(** * Lumascope: the fetch / enrich pipeline of [scraper.py] and
    [llm_handler.py], embedded in Rocq.

    Conventions of the embedding.
    - A Python [str] is a [string], one [ascii] per character; the Unicode
      tables and the library functions the code calls ([hashlib], [hash],
      [str.lower], [json.loads], the [regex] classes) are the fields of the
      class [Host], so that no proof depends on what they compute.
    - A Python value that came out of [json] is a [json]; [None] is [JNull].
    - An exception is a value of [exn]; code that may raise returns [res].
    - Files of the two cache directories are finite maps from paths. *)

From Stdlib Require Import ZArith QArith Qreduction Strings.String Strings.Ascii List Bool Lia.
From Stdlib Require Import Numbers.DecimalString.
From stdpp Require Import base option list gmap strings fin_maps.

Set Warnings "-register-all".
Open Scope Z_scope.

(** ** Python values and exceptions *)

Module Py.

Inductive json : Type :=
| JNull
| JBool (b : bool)
| JNum (n : Z)
| JStr (s : string)
| JArr (l : list json)
| JObj (kvs : list (string * json)).

Inductive exn : Type :=
| AttributeError
| TypeError
| KeyError
| IndexError
| JSONDecodeError
| UnboundLocalError
| HTTPStatusError (status : Z)
| TransportError (what : string).

Inductive res (A : Type) : Type :=
| Ok (a : A)
| Raise (e : exn).
Arguments Ok {A} a.
Arguments Raise {A} e.

#[global] Instance res_ret : MRet res := fun _ a => Ok a.
#[global] Instance res_bind : MBind res := fun _ _ f m =>
  match m with Ok a => f a | Raise e => Raise e end.

(** [try: body except Exception: handler]. *)
Definition catch {A} (body : res A) (handler : exn -> res A) : res A :=
  match body with Ok a => Ok a | Raise e => handler e end.

(** Truth value of a Python object, as [if v:], [not v] and [or] test it. *)
Definition truthy (v : json) : bool :=
  match v with
  | JNull => false
  | JBool b => b
  | JNum n => negb (n =? 0)
  | JStr s => negb (String.eqb s "")
  | JArr l => match l with [] => false | _ => true end
  | JObj kvs => match kvs with [] => false | _ => true end
  end.

(** [a or b], with [b] evaluated only when [a] is falsy. *)
Definition or_else (a : json) (b : res json) : res json :=
  if truthy a then Ok a else b.

Definition isinstance_dict (v : json) : bool :=
  match v with JObj _ => true | _ => false end.

Definition isinstance_list (v : json) : bool :=
  match v with JArr _ => true | _ => false end.

(** Items of a dict: the first binding of a key is the dict's. *)
Fixpoint assoc (k : string) (kvs : list (string * json)) : option json :=
  match kvs with
  | [] => None
  | (k', v) :: rest => if String.eqb k k' then Some v else assoc k rest
  end.

(** [d.get(k, dflt)]; objects that are not dicts have no [get]. *)
Definition get (d : json) (k : string) (dflt : json) : res json :=
  match d with
  | JObj kvs => Ok (default dflt (assoc k kvs))
  | _ => Raise AttributeError
  end.

(** [k in d] for a dict [d]. *)
Definition has_key (k : string) (kvs : list (string * json)) : bool :=
  match assoc k kvs with Some _ => true | None => false end.

(** [len(v)]. *)
Definition len (v : json) : res Z :=
  match v with
  | JStr s => Ok (Z.of_nat (String.length s))
  | JArr l => Ok (Z.of_nat (length l))
  | JObj kvs => Ok (Z.of_nat (length kvs))
  | _ => Raise TypeError
  end.

(** [needle in hay] for two strings. *)
Definition contains (hay needle : string) : bool :=
  match String.index 0 needle hay with Some _ => true | None => false end.

(** [text[:n]]. *)
Definition take_prefix (n : nat) (text : string) : string :=
  String.substring 0 n text.

(** What the code takes from its interpreter and libraries. *)
Class Host := {
  (** [hashlib.md5(s.encode("utf-8")).hexdigest()] *)
  md5_hex : string -> string;
  md5_hex_length : forall s, String.length (md5_hex s) = 32%nat;
  (** [hash(s)] of a string (salted per process) and [hash(None)] *)
  str_hash : string -> Z;
  none_hash : Z;
  (** [s.lower()] *)
  str_lower : string -> string;
  (** [str(v)] of a list or dict *)
  container_str : json -> string;
  (** [json.loads(s, strict=False)] *)
  json_loads : string -> res json;
  (** [\p{Latin}], [\p{Han}], [\p{S}] and [\s] of the [regex] module *)
  is_latin : ascii -> bool;
  is_han : ascii -> bool;
  is_symbol : ascii -> bool;
  is_space : ascii -> bool;
  (** the characters [str.strip()] removes *)
  is_strip : ascii -> bool
}.

End Py.
Import Py.

(** ** String methods that depend on the host's tables *)

Module Text.
Section Text.
Context `{Host}.

Fixpoint lstrip (text : string) : string :=
  match text with
  | EmptyString => EmptyString
  | String c r => if is_strip c then lstrip r else text
  end.

Fixpoint rstrip (text : string) : string :=
  match text with
  | EmptyString => EmptyString
  | String c r =>
      match rstrip r with
      | EmptyString => if is_strip c then EmptyString else String c EmptyString
      | r' => String c r'
      end
  end.

Definition strip (text : string) : string := rstrip (lstrip text).

(** [str(v)], as [str()] and f-strings render a value. *)
Definition py_str (v : json) : string :=
  match v with
  | JNull => "None"
  | JBool true => "True"
  | JBool false => "False"
  | JNum n => NilEmpty.string_of_int (Z.to_int n)
  | JStr s => s
  | _ => container_str v
  end.

(** [hash(n)] of an integer (64-bit CPython). *)
Definition int_hash (n : Z) : Z :=
  let h := Z.sgn n * (Z.abs n mod (2 ^ 61 - 1)) in
  if h =? -1 then -2 else h.

(** [hash(v)]; lists and dicts are unhashable. *)
Definition py_hash (v : json) : res Z :=
  match v with
  | JNull => Ok none_hash
  | JBool b => Ok (if b then 1 else 0)
  | JNum n => Ok (int_hash n)
  | JStr s => Ok (str_hash s)
  | _ => Raise TypeError
  end.

(** [needle in v]: substring of a string, element of a list, key of a
    dict; numbers and booleans are not iterable. *)
Definition py_in (needle : string) (v : json) : res bool :=
  match v with
  | JStr s => Ok (contains s needle)
  | JArr l => Ok (existsb (fun x => match x with JStr s => String.eqb s needle | _ => false end) l)
  | JObj kvs => Ok (has_key needle kvs)
  | _ => Raise TypeError
  end.

End Text.
End Text.
Import Text.

(** ** ContentCleaner: [clean_description] of scraper.py *)

Module Cleaner.
Section Clean.
Context `{Host}.

(** [idx = text.lower().find(kw.lower()); if idx != -1: text = text[:idx]] *)
Definition cut_at (text kw : string) : string :=
  match String.index 0 (str_lower kw) (str_lower text) with
  | Some idx => take_prefix idx text
  | None => text
  end.

Definition keywords : list string := ["About"; "Previous Events"; "Contact"].

(** [regex.search(r"\p{Latin}", text)] *)
Fixpoint has_latin (text : string) : bool :=
  match text with
  | EmptyString => false
  | String c r => is_latin c || has_latin r
  end.

(** [regex.sub(r"\p{Han}+", "", text)] *)
Fixpoint drop_han (text : string) : string :=
  match text with
  | EmptyString => EmptyString
  | String c r => if is_han c then drop_han r else String c (drop_han r)
  end.

Definition non_ascii (c : ascii) : bool := (128 <=? nat_of_ascii c)%nat.

(** Which alternative of [\p{S}+|[^\x00-\x7f]+] the scan is inside. *)
Inductive run := Outside | InSymbols | InNonAscii.

(** [regex.sub(r"\p{S}+|[^\x00-\x7f]+", " ", text)]: at each position the
    first alternative that matches is taken, and runs as far as it can. *)
Fixpoint blank_noise (st : run) (text : string) : string :=
  match text with
  | EmptyString => EmptyString
  | String c r =>
      let start :=
        if is_symbol c then String " " (blank_noise InSymbols r)
        else if non_ascii c then String " " (blank_noise InNonAscii r)
        else String c (blank_noise Outside r) in
      match st with
      | Outside => start
      | InSymbols => if is_symbol c then blank_noise InSymbols r else start
      | InNonAscii => if non_ascii c then blank_noise InNonAscii r else start
      end
  end.

(** [regex.sub(r"\s+", " ", text)] *)
Fixpoint collapse (in_run : bool) (text : string) : string :=
  match text with
  | EmptyString => EmptyString
  | String c r =>
      if is_space c
      then if in_run then collapse true r else String " " (collapse true r)
      else String c (collapse false r)
  end.

(** [if len(text) > 1500: text = text[:1500] + "..."] *)
Definition truncate (text : string) : string :=
  if (1500 <? String.length text)%nat then take_prefix 1500 text +:+ "..." else text.

(** The body of [clean_description] once [text] is a non-empty string. *)
Definition clean_text (text : string) : string :=
  let text := fold_left cut_at keywords text in
  let text := if has_latin text then drop_han text else text in
  let text := blank_noise Outside text in
  let text := truncate text in
  strip (collapse false text).

(** [clean_description(text)]; a truthy value that is not a string has no
    [lower]. *)
Definition clean_description (text : json) : res string :=
  if negb (truthy text) then Ok ""
  else match text with
       | JStr s => Ok (clean_text s)
       | _ => Raise AttributeError
       end.

(** A description as the callers hold it: a string, or absent. *)
Definition of_text (t : option string) : json :=
  match t with Some s => JStr s | None => JNull end.

End Clean.
End Cleaner.

(** ** KeyedCache: the file-backed caches of scraper.py and llm_handler.py *)

Module Cache.

(** What a cache file holds: the JSON text of a value, or anything that
    [json.load] rejects. *)
Inductive file : Type :=
| FJson (v : json)
| FGarbage.

(** The cache directories: their files, and whether [open(path, "w")]
    succeeds. *)
Record disk : Type := {
  files : gmap string file;
  writable : string -> bool
}.

Definition USE_CACHE : bool := true.

(** [with open(path, "w") as f: json.dump(data, f)] inside [try/except: pass],
    for [data] that came out of [json]: the file then holds the text that
    [json.load] reads back as [data].  What it reads back of other values
    that [json.dump] accepts is [Serial.reloaded]. *)
Definition write_json (d : disk) (path : string) (data : json) : disk :=
  if writable d path
  then {| files := <[path := FJson data]> (files d); writable := writable d |}
  else d.

(** [if os.path.exists(path): try: return json.load(f) except: return None]
    and [return None] otherwise. *)
Definition read_json (d : disk) (path : string) : json :=
  match files d !! path with
  | Some (FJson v) => v
  | Some FGarbage => JNull
  | None => JNull
  end.

Section Scraper_cache.
Context `{Host}.

Definition CACHE_DIR : string := "outputs/cache".

Definition get_cache_path (url : string) : string :=
  CACHE_DIR +:+ "/" +:+ md5_hex url +:+ ".json".

Definition get_cached_data (d : disk) (url : string) : json :=
  if negb USE_CACHE then JNull else read_json d (get_cache_path url).

Definition set_cached_data (d : disk) (url : string) (data : json) : disk :=
  if negb USE_CACHE then d else write_json d (get_cache_path url) data.


End Scraper_cache.

Section Llm_cache.

Definition LLM_CACHE_DIR : string := "outputs/llm_cache".

Definition summary_path (event_hash : string) : string :=
  LLM_CACHE_DIR +:+ "/" +:+ event_hash +:+ ".json".

Definition get_cached_summary (d : disk) (event_hash : string) : json :=
  if negb USE_CACHE then JNull else read_json d (summary_path event_hash).

Definition set_cached_summary (d : disk) (event_hash : string) (data : json) : disk :=
  if negb USE_CACHE then d else write_json d (summary_path event_hash) data.

End Llm_cache.
End Cache.
Import Cache.

(** ** What the network gives back *)

Module Net.

(** The outcome of one awaited request: a response, or an exception. *)
Inductive reply (A : Type) : Type :=
| Responds (r : A)
| Fails (e : exn).
Arguments Responds {A} r.
Arguments Fails {A} e.

(** What a task did besides computing: requests sent and sleeps taken, in
    order. *)
Inductive io : Type :=
| Request
| Sleep (seconds : Q).

Definition is_request (x : io) : bool :=
  match x with Request => true | Sleep _ => false end.

Definition requests (log : list io) : nat :=
  length (List.filter is_request log).

Definition sleeps (log : list io) : list Q :=
  omap (fun x => match x with Sleep s => Some s | _ => None end) log.

End Net.
Import Net.

(** ** DetailFetcher and EventSourceResolver: scraper.py *)

Module Scraper.
Section Scraper.
Context `{Host}.

Import Cleaner.

(** A detail page as the code reads it: the status, and what
    [json.loads(ld_script.string)] gives when the page has a JSON-LD
    script tag. *)
Record page : Type := {
  status_code : Z;
  ld_json : option (res json)
}.

(** [item.get("@type") == "Event" or "description" in item], for a dict *)
Definition is_event_item (item : json) : bool :=
  match item with
  | JObj kvs =>
      match assoc "@type" kvs with
      | Some (JStr s) => String.eqb s "Event"
      | _ => false
      end || has_key "description" kvs
  | _ => false
  end.

(** The [event_data] that the code picks out of the JSON-LD value. *)
Definition select_event (ld_data : json) : json :=
  match ld_data with
  | JArr l => default JNull (List.find is_event_item l)
  | JObj _ => ld_data
  | _ => JNull
  end.

(** The branch [resp.status_code == 200]: the value returned and the cache
    after it. *)
Definition on_ok_page (d : disk) (url : string) (p : page) : res (json * disk) :=
  match ld_json p with
  | Some loaded =>
      ld_data ← loaded;
      let event_data := select_event ld_data in
      if truthy event_data then
        raw ← get event_data "description" JNull;
        description ← clean_description raw;
        Ok (JStr description,
            set_cached_data d url (JObj [("description", JStr description)]))
      else Ok (JNull, d)
  | None => Ok (JNull, d)
  end.

(** How one pass through the [try] block ends. *)
Inductive step : Type :=
| Return (v : json) (d : disk)
| Continue (slept : list io).

Definition max_retries : nat := 3.

(** The body of the [try] at one attempt. *)
Definition attempt_body (d : disk) (url : string) (attempt : nat) (r : reply page)
  : res step :=
  match r with
  | Fails e => Raise e
  | Responds resp =>
      if status_code resp =? 200 then
        '(v, d') ← on_ok_page d url resp; Ok (Return v d')
      else if status_code resp =? 429 then
        Ok (Continue [Sleep (inject_Z ((Z.of_nat attempt + 1) * 2))])
      else Ok (Return JNull d)
  end.

(** [except Exception as e]: log on the last attempt, else sleep a second. *)
Definition on_exception (attempt : nat) (e : exn) : res step :=
  Ok (Continue (if (attempt =? max_retries - 1)%nat then [] else [Sleep 1%Q])).

(** [for attempt in range(max_retries)], then [return None]. *)
Fixpoint detail_loop (net : nat -> reply page) (url : string) (todo : list nat)
    (d : disk) (log : list io) : res json * disk * list io :=
  match todo with
  | [] => (Ok JNull, d, log)
  | attempt :: rest =>
      let log := log ++ [Request] in
      match catch (attempt_body d url attempt (net attempt)) (on_exception attempt) with
      | Ok (Return v d') => (Ok v, d', log)
      | Ok (Continue slept) => detail_loop net url rest d (log ++ slept)
      | Raise e => (Raise e, d, log)
      end
  end.

(** [fetch_event_details(client, url)]: [net] answers the successive GETs. *)
Definition fetch_event_details (net : nat -> reply page) (d : disk) (url : string)
  : res json * disk * list io :=
  let cached := get_cached_data d url in
  if truthy cached then (get cached "description" JNull, d, [])
  else detail_loop net url (seq 0 max_retries) d [].

(** The calendar API's answer: the status and what [resp.json()] gives. *)
Record api_response : Type := {
  api_status : Z;
  api_json : res json
}.

(** [data.get("items") or data.get("entries") or
     data.get("data", {}).get("entries") or data.get("data", {}).get("items")
     or []] *)
Definition pick_items (data : json) : res json :=
  a ← get data "items" JNull;
  or_else a (
    b ← get data "entries" JNull;
    or_else b (
      inner ← get data "data" (JObj []);
      c ← get inner "entries" JNull;
      or_else c (
        inner ← get data "data" (JObj []);
        e ← get inner "items" JNull;
        or_else e (Ok (JArr []))))).

(** [fetch_calendar_api_events]; an exception of [strptime] or of the GET is
    a [Fails], and every exception ends in [return []]. *)
Definition fetch_calendar_api_events (r : reply api_response) : json :=
  let body : res json :=
    match r with
    | Fails e => Raise e
    | Responds resp =>
        if api_status resp =? 200 then
          data ← api_json resp;
          items ← pick_items data;
          _ ← len items;
          Ok items
        else Ok (JArr [])
    end in
  match body with Ok items => items | Raise _ => JArr [] end.

(** What the landing page gives: the status, the calendar id that the
    regex finds in the app-link meta tag, and what
    [json.loads(next_data_script.string)] gives when the page has the
    script tag. *)
Record landing_page : Type := {
  landing_status : Z;
  cal_id : option string;
  next_data : option (res json)
}.

(** [if cal_id:] *)
Definition api_mode (cal : option string) : bool :=
  match cal with Some s => truthy (JStr s) | None => false end.

(** A prepared item: the dict that [prepare_event] returns. *)
Record candidate : Type := {
  eid : json;
  name : json;
  full_url : string;
  ev : json;
  item : json
}.

(** [x.get(k1) or x.get(k2) or last] *)
Definition first_of (x : json) (k1 k2 : string) (last : res json) : res json :=
  a ← get x k1 JNull;
  or_else a (b ← get x k2 JNull; or_else b last).

(** [item.get("platform", "").lower() != "luma"] negated. *)
Definition platform_is_luma (it : json) : res bool :=
  p ← get it "platform" (JStr "");
  match p with
  | JStr s => Ok (String.eqb (str_lower s) "luma")
  | _ => Raise AttributeError
  end.

(** [prepare_event(item)], a closure over [cal_id], [target_date] and
    [url]. *)
Definition prepare_event (cal : option string) (target_date url : string)
    (it : json) : res (option candidate) :=
  if negb (isinstance_dict it) then Ok None else
  keep ← (if api_mode cal then platform_is_luma it else Ok true);
  if negb keep then Ok None else
  e ← first_of it "event" "api_event" (Ok it);
  if negb (isinstance_dict e) then Ok None else
  start_at_str ← first_of e "start_at" "start_date" (Ok (JStr ""));
  dated ← (if negb (api_mode cal) then py_in target_date start_at_str else Ok true);
  if negb dated then Ok None else
  id ← first_of e "api_id" "id"
         (h ← py_hash start_at_str; Ok (JStr ("evt-" +:+ py_str (JNum h))));
  nm ← first_of e "name" "title" (Ok (JStr "Untitled Event"));
  path ← first_of e "url" "url_path" (Ok (JStr ""));
  Ok (Some {| eid := id;
              name := nm;
              full_url := if truthy path then "https://lu.ma/" +:+ py_str path else url;
              ev := e;
              item := it |}).

(** [for item in events_list]: the elements of a list, the characters of a
    string, the keys of a dict. *)
Fixpoint chars (s : string) : list json :=
  match s with
  | EmptyString => []
  | String c r => JStr (String c EmptyString) :: chars r
  end.

Definition py_iter (v : json) : res (list json) :=
  match v with
  | JArr l => Ok l
  | JStr s => Ok (chars s)
  | JObj kvs => Ok (map (fun kv => JStr kv.1) kvs)
  | _ => Raise TypeError
  end.

(** [[p for p in (prepare_event(item) for item in events_list) if p]] *)
Fixpoint prepare_all (cal : option string) (target_date url : string)
    (items : list json) : res (list candidate) :=
  match items with
  | [] => Ok []
  | it :: rest =>
      p ← prepare_event cal target_date url it;
      ps ← prepare_all cal target_date url rest;
      Ok (match p with Some c => c :: ps | None => ps end)
  end.

(** [item.get("guest_count") or ev.get("guest_count") or
     ev.get("ticket_count") or item.get("num_tickets_sold") or 0] *)
Definition guest_count (c : candidate) : res json :=
  a ← get (item c) "guest_count" JNull;
  or_else a (
    b ← get (ev c) "guest_count" JNull;
    or_else b (
      t ← get (ev c) "ticket_count" JNull;
      or_else t (
        n ← get (item c) "num_tickets_sold" JNull;
        or_else n (Ok (JNum 0))))).

(** [fetch_with_results(event_info)], given what the awaited
    [fetch_event_details] gave. *)
Definition fetch_with_results (fetched : res json) (c : candidate)
  : res (gmap string json) :=
  desc ← fetched;
  g ← get (ev c) "geo_address_info" JNull;
  geo ← or_else g (Ok (JObj []));
  loc ← first_of geo "full_address" "address" (Ok (JStr "Hong Kong"));
  start_date ← get (ev c) "start_at" JNull;
  end_date ← get (ev c) "end_at" JNull;
  description ← or_else desc (
    raw ← get (ev c) "description" (JStr "");
    cleaned ← clean_description raw;
    Ok (JStr cleaned));
  guests ← guest_count c;
  Ok (list_to_map
        [("id", JStr (py_str (eid c)));
         ("title", name c);
         ("url", JStr (full_url c));
         ("start_date", start_date);
         ("end_date", end_date);
         ("location", loc);
         ("description", description);
         ("guest_count", guests)]).

(** [asyncio.gather] over [fetch_with_results(p) for p in prepped_events]:
    [fetched i] is what the detail fetch of the [i]-th candidate gave. *)
Fixpoint gather_results (fetched : nat -> res json) (i : nat)
    (prepped : list candidate) : res (list (gmap string json)) :=
  match prepped with
  | [] => Ok []
  | c :: rest =>
      r ← fetch_with_results (fetched i) c;
      rs ← gather_results fetched (S i) rest;
      Ok (r :: rs)
  end.

(** The raw entries of the page when no calendar id was found. *)
Definition next_data_events (page_data : option (res json)) : res json :=
  match page_data with
  | Some loaded =>
      data ← loaded;
      props ← get data "props" (JObj []);
      page_props ← get props "pageProps" (JObj []);
      initial_data ← get page_props "initialData" (JObj []);
      a ← get initial_data "events" JNull;
      or_else a (inner ← get initial_data "data" (JObj []);
                 get inner "events" (JArr []))
  | None => Ok (JArr [])
  end.

(** The candidates of a run: everything up to the detail fetches. *)
Definition candidates (url target_date : string) (page : landing_page)
    (api : reply api_response) : res (list candidate) :=
  events_list ←
    (if api_mode (cal_id page) then Ok (fetch_calendar_api_events api)
     else next_data_events (next_data page));
  _ ← len events_list;
  items ← py_iter events_list;
  prepare_all (cal_id page) target_date url items.

(** [get_optimized_events(url, target_date)]; every exception ends in
    [return []]. *)
Definition get_optimized_events (url target_date : string)
    (landing : reply landing_page) (api : reply api_response)
    (fetched : nat -> res json) : list (gmap string json) :=
  let body : res (list (gmap string json)) :=
    match landing with
    | Fails e => Raise e
    | Responds page =>
        if negb (landing_status page =? 200) then Ok []
        else
          prepped ← candidates url target_date page api;
          gather_results fetched 0 prepped
    end in
  match body with Ok results => results | Raise _ => [] end.

(** *** What the properties of this module are stated with *)

(** The cache holds no truthy value without a [get] under [url]: what
    [set_cached_data] writes here is always a dict. *)
Definition entry_is_dict (d : disk) (url : string) : Prop :=
  truthy (get_cached_data d url) = true ->
  isinstance_dict (get_cached_data d url) = true.



(** The answer to the attempt is a 429. *)
Definition limited_at (net : nat -> reply page) (attempt : nat) : bool :=
  match net attempt with
  | Responds resp => status_code resp =? 429
  | Fails _ => false
  end.


(** The four places of the items array, in the order the code tries them. *)
Definition item_paths : list (list string) :=
  [["items"]; ["entries"]; ["data"; "entries"]; ["data"; "items"]].

(** The value that a path of keys leads to, when every key on it exists. *)
Fixpoint path_value (data : json) (path : list string) : option json :=
  match path with
  | [] => Some data
  | k :: rest =>
      match data with
      | JObj kvs => v ← assoc k kvs; path_value v rest
      | _ => None
      end
  end.

(** The specification's words: the value at the first of the four paths
    that is present, and the empty sequence when none is. *)
Definition first_present (data : json) : json :=
  default (JArr []) (head (omap (path_value data) item_paths)).

(** The first of the four values that is present and not empty. *)
Definition first_nonempty (data : json) : json :=
  default (JArr []) (List.find truthy (omap (path_value data) item_paths)).

(** The [id] that a candidate's record gets. *)
Definition candidate_id (c : candidate) : string := py_str (eid c).

(** The [id] fields of the records of a run. *)
Definition record_ids (records : list (gmap string json)) : list json :=
  map (fun r => default JNull (r !! "id")) records.

End Scraper.
End Scraper.

(** ** EnrichmentEngine: llm_handler.py *)

Module Enrich.
Section Enrich.
Context `{Host}.

(** [get_event_hash(event)]: the md5 of [f"{title}{description}"]. *)
Definition get_event_hash (event : gmap string json) : string :=
  md5_hex (py_str (default (JStr "") (event !! "title"))
           +:+ py_str (default (JStr "") (event !! "description"))).

(** [str(event.get("id"))] *)
Definition event_id (event : gmap string json) : string :=
  py_str (default JNull (event !! "id")).

(** *** [extract_json] *)

Definition newline : ascii := "010"%char.
Definition fence : string := "```".

Fixpoint drop_prefix (p s : string) : option string :=
  match p, s with
  | EmptyString, _ => Some s
  | String a p', String b s' => if Ascii.eqb a b then drop_prefix p' s' else None
  | String _ _, EmptyString => None
  end.

(** An optional piece of a pattern: skipped when present. *)
Definition skip (p s : string) : string := default s (drop_prefix p s).

(** What follows the first fence of [s]. *)
Fixpoint after_fence (s : string) : option string :=
  match drop_prefix fence s with
  | Some rest => Some rest
  | None => match s with
            | EmptyString => None
            | String _ r => after_fence r
            end
  end.

(** The shortest prefix of [s] that a fence, or a newline and a fence,
    follows: group 1 of the lazy [(.*?)\n?```]. *)
Fixpoint until_fence (s : string) : option string :=
  match drop_prefix fence (skip (String newline EmptyString) s) with
  | Some _ => Some EmptyString
  | None => match s with
            | EmptyString => None
            | String c r => String c <$> until_fence r
            end
  end.

(** [re.search(r"```(?:json)?\n?(.*?)\n?```", text, re.DOTALL)], group 1 *)
Definition fenced (text : string) : option string :=
  rest ← after_fence text;
  until_fence (skip (String newline EmptyString) (skip "json" rest)).

(** [re.sub(r"```$", "", text)]: [$] is the end, or just before a final
    newline. *)
Definition drop_last_fence (text : string) : string :=
  let r := reverse (String.list_ascii_of_string text) in
  let r_fence := String.list_ascii_of_string fence in
  let cut :=
    match r with
    | c :: r' =>
        if bool_decide (take 3 r = r_fence) then drop 3 r
        else if Ascii.eqb c newline && bool_decide (take 3 r' = r_fence)
             then c :: drop 3 r'
             else r
    | [] => r
    end in
  String.string_of_list_ascii (reverse cut).

(** [text.rfind(c)] *)
Fixpoint rfind (c : ascii) (s : string) : option nat :=
  match s with
  | EmptyString => None
  | String a r =>
      match rfind c r with
      | Some i => Some (S i)
      | None => if Ascii.eqb a c then Some 0%nat else None
      end
  end.

Definition extract_json (text : string) : string :=
  let text := strip text in
  let text :=
    if contains text fence then
      match fenced text with
      | Some inner => strip inner
      | None => strip (drop_last_fence (match drop_prefix fence text with
                                        | Some r => skip "json" r
                                        | None => text
                                        end))
      end
    else text in
  match String.index 0 "{" text, rfind "}"%char text with
  | Some start, Some stop => String.substring start (S stop - start) text
  | _, _ => text
  end.

(** [re.sub(r"\n", " ", json_str)] *)
Fixpoint newlines_to_spaces (s : string) : string :=
  match s with
  | EmptyString => EmptyString
  | String c r =>
      String (if Ascii.eqb c newline then " "%char else c) (newlines_to_spaces r)
  end.

(** [data = json.loads(s, strict=False); {str(k): v for k, v in data.items()}] *)
Definition load_items (s : string) : res (list (string * json)) :=
  data ← json_loads s;
  match data with
  | JObj kvs => Ok kvs
  | _ => Raise AttributeError
  end.

(** The two [try] blocks that end [process_batch_async]. *)
Definition parse_reply (json_str : string) : list (string * json) :=
  match load_items json_str with
  | Ok items => items
  | Raise _ =>
      match load_items (newlines_to_spaces json_str) with
      | Ok items => items
      | Raise _ => []
      end
  end.

(** *** [process_batch_async] *)

(** The backend's answer: the status and what [resp.json()] gives. *)
Record llm_response : Type := {
  llm_status : Z;
  llm_json : res json
}.

(** [v[k]] for a string [k]. *)
Definition subscript (v : json) (k : string) : res json :=
  match v with
  | JObj kvs => match assoc k kvs with Some x => Ok x | None => Raise KeyError end
  | _ => Raise TypeError
  end.

(** [v[0]] *)
Definition first_item (v : json) : res json :=
  match v with
  | JArr (x :: _) => Ok x
  | JArr [] => Raise IndexError
  | JStr (String c _) => Ok (JStr (String c EmptyString))
  | JStr EmptyString => Raise IndexError
  | JObj _ => Raise KeyError
  | _ => Raise TypeError
  end.

(** [resp.raise_for_status()] of httpx: raises unless the status is 2xx. *)
Definition raise_for_status (r : llm_response) : res unit :=
  if (200 <=? llm_status r) && (llm_status r <=? 299) then Ok ()
  else Raise (HTTPStatusError (llm_status r)).

Definition max_retries : nat := 5.

(** [retry_delay *= 1.5] *)
Definition backoff (retry_delay : Q) : Q := Qred (retry_delay * (3 # 2)).

(** [except Exception as e] at [attempt]: re-raise on the last attempt, else
    sleep [retry_delay] and go on with [rest]. *)
Definition on_exception {A} (attempt : nat) (e : exn) (retry_delay : Q)
    (log : list io) (go_on : list io -> res A * list io) : res A * list io :=
  if (attempt =? max_retries - 1)%nat then (Raise e, log)
  else go_on (log ++ [Sleep retry_delay]).

(** [for attempt in range(max_retries)]: [resp] is the variable of that
    name, which the code reads after the loop. *)
Fixpoint post_loop (backend : nat -> reply llm_response) (todo : list nat)
    (retry_delay : Q) (resp : option llm_response) (log : list io)
  : res llm_response * list io :=
  match todo with
  | [] => (match resp with Some r => Ok r | None => Raise UnboundLocalError end, log)
  | attempt :: rest =>
      let log := log ++ [Request] in
      match backend attempt with
      | Responds r =>
          if llm_status r =? 429 then
            post_loop backend rest (backoff retry_delay) (Some r)
              (log ++ [Sleep retry_delay])
          else
            match raise_for_status r with
            | Ok _ => (Ok r, log)
            | Raise e =>
                on_exception attempt e retry_delay log
                  (post_loop backend rest retry_delay (Some r))
            end
      | Fails e =>
          on_exception attempt e retry_delay log
            (post_loop backend rest retry_delay resp)
      end
  end.

(** What the code does with [resp] after the loop. *)
Definition read_reply (resp : llm_response) : res (list (string * json)) :=
  result ← llm_json resp;
  choices ← subscript result "choices";
  choice ← first_item choices;
  message ← subscript choice "message";
  content ← subscript message "content";
  match content with
  | JStr s => Ok (parse_reply (extract_json (strip s)))
  | _ => Raise AttributeError
  end.

(** [process_batch_async(client, batch, ...)]: [backend] answers the
    successive POSTs of this batch. *)
Definition process_batch_async (backend : nat -> reply llm_response)
  : res (list (string * json)) * list io :=
  let '(r, log) := post_loop backend (seq 0 max_retries) 10%Q None [] in
  (resp ← r; read_reply resp, log).

(** *** [summarize_events] *)

(** [event["ai_summary"] = data.get("s")] and the two assignments after
    it; [data.get] raises before anything is assigned. *)
Definition apply_summary (event : gmap string json) (data : json)
  : res (gmap string json) :=
  s ← get data "s" JNull;
  r ← get data "r" JNull;
  t ← get data "t" JNull;
  Ok (<["tags" := t]> (<["top_reasons" := r]> (<["ai_summary" := s]> event))).

(** The [else] branch of the merge. *)
Definition apply_placeholder (event : gmap string json) : gmap string json :=
  <["tags" := JArr []]>
    (<["top_reasons" := JArr [JStr "N/A"]]>
       (<["ai_summary" := JStr "Synthesis incomplete."]> event)).

(** The first loop.  The events are the dicts of the caller's list, which
    the code changes in place: the result holds them after the loop, with
    the positions of those appended to [to_process] and the dict
    [id_to_hash].  A dict is taken to occur once in the list, as in the list
    that [get_optimized_events] builds, so that a position names a dict. *)
Fixpoint partition (d : disk) (events : list (gmap string json)) (i : nat)
    (id_to_hash : gmap string string)
  : res (list (gmap string json) * list nat * gmap string string) :=
  match events with
  | [] => Ok ([], [], id_to_hash)
  | event :: rest =>
      let ehash := get_event_hash event in
      let id_to_hash := <[event_id event := ehash]> id_to_hash in
      let cached := get_cached_summary d ehash in
      if truthy cached then
        event' ← apply_summary event cached;
        '(evs, to_process, m) ← partition d rest (S i) id_to_hash;
        Ok (event' :: evs, to_process, m)
      else
        '(evs, to_process, m) ← partition d rest (S i) id_to_hash;
        Ok (event :: evs, i :: to_process, m)
  end.

Definition batch_size : nat := 15.

(** [[to_process[i : i + batch_size] for i in range(0, len(to_process),
    batch_size)]] *)
Fixpoint batches_of (fuel : nat) (to_process : list nat) : list (list nat) :=
  match fuel, to_process with
  | _, [] => []
  | O, _ => []
  | S fuel', _ =>
      take batch_size to_process :: batches_of fuel' (drop batch_size to_process)
  end.

Definition batches (to_process : list nat) : list (list nat) :=
  batches_of (length to_process) to_process.

(** [asyncio.gather] of the tasks: [backend i] answers the POSTs of batch [i].
    Every task is followed to its end, and of several exceptions the first in
    task order stands for the one that [asyncio.gather] raises, which is the
    first in time; the log is that of all tasks. *)
Fixpoint gather_batches (backend : nat -> nat -> reply llm_response) (i : nat)
    (todo : list (list nat)) : res (list (list (string * json))) * list io :=
  match todo with
  | [] => (Ok [], [])
  | _ :: rest =>
      let '(r, log) := process_batch_async (backend i) in
      let '(rs, logs) := gather_batches backend (S i) rest in
      (items ← r; others ← rs; Ok (items :: others), log ++ logs)
  end.

(** [for res in batch_results: master_map.update(res)] *)
Definition master_map_of (batch_results : list (list (string * json)))
  : gmap string json :=
  fold_left (fun m items => list_to_map items ∪ m) batch_results ∅.

(** [ehash = id_to_hash.get(eid); if ehash: set_cached_summary(ehash, ai_data)] *)
Definition save_summary (d : disk) (id_to_hash : gmap string string)
    (eid : string) (ai_data : json) : disk :=
  match id_to_hash !! eid with
  | Some ehash => if truthy (JStr ehash) then set_cached_summary d ehash ai_data else d
  | None => d
  end.

(** The merge loop over [to_process], whose elements are the dicts at these
    positions of [events]. *)
Fixpoint merge (master_map : gmap string json) (id_to_hash : gmap string string)
    (to_process : list nat) (events : list (gmap string json)) (d : disk)
  : res (list (gmap string json)) * disk :=
  match to_process with
  | [] => (Ok events, d)
  | i :: rest =>
      match events !! i with
      | None => merge master_map id_to_hash rest events d
      | Some event =>
          let eid := event_id event in
          let ai_data := default JNull (master_map !! eid) in
          if truthy ai_data then
            match apply_summary event ai_data with
            | Raise e => (Raise e, d)
            | Ok event' =>
                merge master_map id_to_hash rest (<[i := event']> events)
                  (save_summary d id_to_hash eid ai_data)
            end
          else
            merge master_map id_to_hash rest
              (<[i := apply_placeholder event]> events) d
      end
  end.

(** [summarize_events(events)]: the events and the cache after the call,
    and what the batches did on the network. *)
Definition summarize_events (backend : nat -> nat -> reply llm_response)
    (d : disk) (events : list (gmap string json))
  : res (list (gmap string json)) * disk * list io :=
  match events with
  | [] => (Ok events, d, [])
  | _ =>
      match partition d events 0 ∅ with
      | Raise e => (Raise e, d, [])
      | Ok (events, to_process, id_to_hash) =>
          match to_process with
          | [] => (Ok events, d, [])
          | _ =>
              let '(r, log) := gather_batches backend 0 (batches to_process) in
              match r with
              | Raise e => (Raise e, d, log)
              | Ok batch_results =>
                  let '(r, d') :=
                    merge (master_map_of batch_results) id_to_hash to_process
                      events d in
                  (r, d', log)
              end
          end
      end
  end.

(** *** What the properties of this module are stated with *)

(** How an attempt of the retry loop ends. *)
Inductive attempt_end : Type :=
| Accepted (r : llm_response)
| RateLimited (r : llm_response)
| Raised (e : exn).

Definition attempt_end_of (x : reply llm_response) : attempt_end :=
  match x with
  | Fails e => Raised e
  | Responds r =>
      if llm_status r =? 429 then RateLimited r
      else match raise_for_status r with
           | Ok _ => Accepted r
           | Raise e => Raised e
           end
  end.

Definition rate_limited (x : reply llm_response) : bool :=
  match attempt_end_of x with RateLimited _ => true | _ => false end.

Definition accepted (x : reply llm_response) : bool :=
  match attempt_end_of x with Accepted _ => true | _ => false end.

(** The number of 429 answers among the attempts before [attempt]. *)
Fixpoint count_429 (backend : nat -> reply llm_response) (attempt : nat) : nat :=
  match attempt with
  | O => O
  | S a => ((if rate_limited (backend a) then 1 else 0) + count_429 backend a)%nat
  end.

(** [retry_delay] after [n] multiplications: 10, 15, 22.5, ... *)
Definition delay_after (n : nat) : Q := Nat.iter n backoff 10%Q.

(** The event is not served from the cache at the start of a run. *)
Definition is_miss (d : disk) (event : gmap string json) : bool :=
  negb (truthy (get_cached_summary d (get_event_hash event))).

(** The positions, from [i] on, of the events that are not served from the
    cache. *)
Fixpoint miss_positions (d : disk) (events : list (gmap string json)) (i : nat)
  : list nat :=
  match events with
  | [] => []
  | event :: rest =>
      if is_miss d event then i :: miss_positions d rest (S i)
      else miss_positions d rest (S i)
  end.

(** The dict [id_to_hash] after the first loop. *)
Definition hashes_by_id (events : list (gmap string json))
    (start : gmap string string) : gmap string string :=
  fold_left (fun m event => <[event_id event := get_event_hash event]> m) events start.

(** An event with the three fields of a cached or generated dict. *)
Definition with_summary (event : gmap string json) (kvs : list (string * json))
  : gmap string json :=
  <["tags" := default JNull (assoc "t" kvs)]>
    (<["top_reasons" := default JNull (assoc "r" kvs)]>
       (<["ai_summary" := default JNull (assoc "s" kvs)]> event)).

(** The data model's [ai_summary]: a sequence of exactly 3 strings. *)
Definition three_strings (v : json) : bool :=
  match v with
  | JArr [JStr _; JStr _; JStr _] => true
  | _ => false
  end.

(** Every file of the enrichment cache that parses holds a non-empty dict,
    as every file that [summarize_events] writes does. *)
Definition summaries_are_dicts (d : disk) : Prop :=
  forall ehash, truthy (get_cached_summary d ehash) = true ->
                isinstance_dict (get_cached_summary d ehash) = true.

(** The delay that the [j]-th wait of a batch lasts. *)
Definition wait_at (backend : nat -> reply llm_response) (j : nat) : Q :=
  delay_after (count_429 backend j).

(** The items of the dict that the cache holds for an event. *)
Definition cached_fields (d : disk) (event : gmap string json)
  : list (string * json) :=
  match get_cached_summary d (get_event_hash event) with
  | JObj kvs => kvs
  | _ => []
  end.

(** The cache holds a non-empty dict under the event's content hash. *)
Definition is_cached (d : disk) (event : gmap string json) : Prop :=
  exists kvs, kvs <> [] /\ get_cached_summary d (get_event_hash event) = JObj kvs.

(** The events, each with the fields of its cache entry. *)
Definition from_cache (d : disk) (events : list (gmap string json))
  : list (gmap string json) :=
  map (fun event => with_summary event (cached_fields d event)) events.

(** What the merge loop leaves of a dispatched event [e], given what the
    merged results hold under its id. *)
Definition merged (ai_data : json) (e e' : gmap string json) : Prop :=
  (truthy ai_data = true /\ exists kvs, ai_data = JObj kvs /\ e' = with_summary e kvs)
  \/ (truthy ai_data = false /\ e' = apply_placeholder e).

(** The cache write of the merge loop for one dispatched event. *)
Definition saved (master_map : gmap string json) (id_to_hash : gmap string string)
    (d : disk) (event : gmap string json) : disk :=
  let ai_data := default JNull (master_map !! event_id event) in
  if truthy ai_data then save_summary d id_to_hash (event_id event) ai_data else d.

(** The events of a run that are handed to the backend, in order. *)
Definition dispatched (d : disk) (events : list (gmap string json))
  : list (gmap string json) :=
  omap (fun i => events !! i) (miss_positions d events 0).

(** The merged results of a run: [master_map] when every batch returned. *)
Definition merged_results (backend : nat -> nat -> reply llm_response) (d : disk)
    (events : list (gmap string json)) : gmap string json :=
  match (gather_batches backend 0 (batches (miss_positions d events 0))).1 with
  | Ok batch_results => master_map_of batch_results
  | Raise _ => ∅
  end.

End Enrich.
End Enrich.

(** ** A host to run the definitions on

    Theorems hold for every [Host]; the examples below run on this one,
    whose tables cover ASCII and whose hash keeps the first 32 characters. *)

Module Sample.

Fixpoint pad (n : nat) (s : string) : string :=
  match n with
  | O => EmptyString
  | S n' =>
      match s with
      | EmptyString => String "0" (pad n' EmptyString)
      | String c r => String c (pad n' r)
      end
  end.

Fixpoint pad_length (n : nat) (s : string) {struct n} : String.length (pad n s) = n :=
  match n with
  | O => eq_refl
  | S n' =>
      match s with
      | EmptyString => f_equal S (pad_length n' EmptyString)
      | String _ r => f_equal S (pad_length n' r)
      end
  end.

Definition between (lo hi : nat) (c : ascii) : bool :=
  (lo <=? nat_of_ascii c)%nat && (nat_of_ascii c <=? hi)%nat.

Definition lower_char (c : ascii) : ascii :=
  if between 65 90 c then ascii_of_nat (nat_of_ascii c + 32) else c.

Fixpoint lower (s : string) : string :=
  match s with
  | EmptyString => EmptyString
  | String c r => String (lower_char c) (lower r)
  end.

Definition letter (c : ascii) : bool := between 65 90 c || between 97 122 c.

Definition symbol (c : ascii) : bool :=
  existsb (Ascii.eqb c) (String.list_ascii_of_string "$+<=>^`|~").

Definition space (c : ascii) : bool := between 9 13 c || Ascii.eqb c " ".

(** A string between double quotes. *)
Definition quoted (s : string) : string :=
  String "034"%char (s +:+ String "034"%char EmptyString).

(** Two replies of the backend, as JSON text and as the value they decode
    to: the fields of event [evt-1], and an empty dict for it. *)
Definition full_reply_text : string :=
  "{" +:+ quoted "evt-1" +:+ ": {"
  +:+ quoted "s" +:+ ": [" +:+ quoted "Summary: talks" +:+ ", "
  +:+ quoted "Topics: rollups" +:+ ", " +:+ quoted "Speakers: two" +:+ "], "
  +:+ quoted "r" +:+ ": [" +:+ quoted "Network" +:+ "], "
  +:+ quoted "t" +:+ ": [" +:+ quoted "Rollups" +:+ "]}}".

Definition full_reply : json :=
  JObj [("evt-1",
         JObj [("s", JArr [JStr "Summary: talks"; JStr "Topics: rollups";
                           JStr "Speakers: two"]);
               ("r", JArr [JStr "Network"]);
               ("t", JArr [JStr "Rollups"])])].

Definition empty_reply_text : string := "{" +:+ quoted "evt-1" +:+ ": {}}".

Definition empty_reply : json := JObj [("evt-1", JObj [])].

(** A decoder that knows these two texts and rejects every other. *)
Definition loads (s : string) : res json :=
  if String.eqb s full_reply_text then Ok full_reply
  else if String.eqb s empty_reply_text then Ok empty_reply
  else Raise JSONDecodeError.

#[local] Instance host : Host := {|
  md5_hex := pad 32;
  md5_hex_length := pad_length 32;
  str_hash := fun s => Z.of_nat (String.length s);
  none_hash := 0;
  str_lower := lower;
  container_str := fun _ => "[...]";
  json_loads := loads;
  is_latin := letter;
  is_han := fun _ => false;
  is_symbol := symbol;
  is_space := space;
  is_strip := space
|}.

(** An empty cache directory in which every file can be written. *)
Definition blank : disk := {| files := ∅; writable := fun _ => true |}.

(** An event record as the scraper hands it to the enrichment. *)
Definition event1 : gmap string json :=
  list_to_map [("id", JStr "evt-1"); ("title", JStr "Rollup night");
               ("description", JStr "Talks on rollups")].

(** The body of a chat completion whose content is [text]. *)
Definition completion (text : string) : json :=
  JObj [("choices", JArr [JObj [("message", JObj [("content", JStr text)])]])].

Definition answer (status : Z) (text : string) : reply Enrich.llm_response :=
  Responds {| Enrich.llm_status := status; Enrich.llm_json := Ok (completion text) |}.

(** Backends: 429 three times and then the full reply; a connection that
    fails twice and then the full reply; 429 at every attempt. *)
Definition limited_thrice (attempt : nat) : reply Enrich.llm_response :=
  if (attempt <? 3)%nat then answer 429 "slow down" else answer 200 full_reply_text.

Definition failing_twice (attempt : nat) : reply Enrich.llm_response :=
  if (attempt <? 2)%nat then Fails (TransportError "connection reset")
  else answer 200 full_reply_text.

Definition always_limited (attempt : nat) : reply Enrich.llm_response :=
  answer 429 "slow down".

(** Two entries of a page's data blob that carry no id and start at the
    same time, and the landing page that lists them. *)
Definition entry (title : string) : json :=
  JObj [("name", JStr title); ("start_at", JStr "2025-03-01T10:00:00.000Z")].

Definition blob_page : Scraper.landing_page := {|
  Scraper.landing_status := 200;
  Scraper.cal_id := None;
  Scraper.next_data :=
    Some (Ok (JObj [("props",
                JObj [("pageProps",
                  JObj [("initialData",
                    JObj [("events",
                      JArr [entry "Morning meetup"; entry "Builders breakfast"])])])])]))
|}.

(** A calendar item of the platform whose [event] is not a dict. *)
Definition odd_item : json := JObj [("platform", JStr "Luma"); ("event", JStr "evt-1")].

(** A calendar item of the platform with a nested event. *)
Definition luma_item : json :=
  JObj [("platform", JStr "luma");
        ("event", JObj [("api_id", JStr "evt-1"); ("name", JStr "Rollup night");
                        ("start_at", JStr "2031-12-31T10:00:00.000Z")])].

(** What the prepared [luma_item] is, for a landing page at [https://lu.ma/hk]. *)
Definition luma_candidate : Scraper.candidate := {|
  Scraper.eid := JStr "evt-1";
  Scraper.name := JStr "Rollup night";
  Scraper.full_url := "https://lu.ma/hk";
  Scraper.ev := JObj [("api_id", JStr "evt-1"); ("name", JStr "Rollup night");
                      ("start_at", JStr "2031-12-31T10:00:00.000Z")];
  Scraper.item := luma_item
|}.

(** A landing page with a calendar id, and the calendar API's answer with
    [luma_item] under [entries] and an empty [items]. *)
Definition calendar_page : Scraper.landing_page := {|
  Scraper.landing_status := 200;
  Scraper.cal_id := Some "cal-abc123";
  Scraper.next_data := None
|}.

Definition calendar_body : json :=
  JObj [("items", JArr []); ("entries", JArr [luma_item])].

Definition calendar_answer : reply Scraper.api_response :=
  Responds {| Scraper.api_status := 200; Scraper.api_json := Ok calendar_body |}.

(** The fields of [full_reply] for [evt-1], and the cache that holds them
    under the content hash of [event1]. *)
Definition fields : list (string * json) :=
  [("s", JArr [JStr "Summary: talks"; JStr "Topics: rollups"; JStr "Speakers: two"]);
   ("r", JArr [JStr "Network"]);
   ("t", JArr [JStr "Rollups"])].

Definition warm : disk :=
  set_cached_summary blank (Enrich.get_event_hash event1) (JObj fields).

(** What the retry loop logs when it is answered 429 three times. *)
Definition three_waits : list io :=
  [Request; Sleep 10%Q; Request; Sleep 15%Q; Request; Sleep (45 # 2)%Q; Request].

End Sample.

(** ** Shapes of texts and logs that further properties are stated with *)

Module Shapes.
Section Shapes.
Context `{Host}.

(** Every character of the text passes the test. *)
Fixpoint all_chars (test : ascii -> bool) (text : string) : bool :=
  match text with
  | EmptyString => true
  | String c r => test c && all_chars test r
  end.

(** The character is in [\x00-\x7f]. *)
Definition is_ascii (c : ascii) : bool := negb (Cleaner.non_ascii c).

(** No two neighbours in the text are both whitespace for [\s];
    [after_space] tells whether a whitespace character stands before it. *)
Fixpoint spaced (after_space : bool) (text : string) : bool :=
  match text with
  | EmptyString => true
  | String c r =>
      if is_space c then negb after_space && spaced true r else spaced false r
  end.

(** The seconds slept in all. *)
Definition total (waits : list Q) : Q := fold_right Qplus 0%Q waits.

End Shapes.
End Shapes.

(** ** What the calls leave behind, for the properties of whole runs *)

Module Outcomes.
Section Outcomes.
Context `{Host}.

(** The cache entry that a parsed page leaves under its URL:
    [{"description": description}]. *)
Definition entry_of (description : string) : json :=
  JObj [("description", JStr description)].

(** The longest that the detail loop can wait over the attempts [todo]:
    [(attempt + 1) * 2] seconds after each. *)
Definition worst_wait (todo : list nat) : Q :=
  Shapes.total (map (fun attempt => inject_Z ((Z.of_nat attempt + 1) * 2)) todo).

(** The keys of an EventRecord, as [fetch_with_results] writes them. *)
Definition record_keys : list string :=
  ["id"; "title"; "url"; "start_date"; "end_date"; "location"; "description";
   "guest_count"].

(** A string as the cleaner leaves it: ASCII, 1503 characters at most. *)
Definition clean_string (v : json) : Prop :=
  exists s, v = JStr s /\ (String.length s <= 1503)%nat
            /\ Shapes.all_chars Shapes.is_ascii s = true.

(** What every EventRecord of a run looks like. *)
Definition well_formed_record (r : gmap string json) : Prop :=
  (forall k, is_Some (r !! k) <-> k ∈ record_keys)
  /\ (exists s, r !! "id" = Some (JStr s))
  /\ (exists s, r !! "url" = Some (JStr s))
  /\ (exists v, r !! "location" = Some v /\ truthy v = true)
  /\ (exists v, r !! "guest_count" = Some v /\ (truthy v = true \/ v = JNum 0))
  /\ (exists v, r !! "description" = Some v /\ (truthy v = true \/ clean_string v)).

(** What a detail fetch gives when the cache holds only what the fetcher
    wrote: [None] or a cleaned string. *)
Definition fetched_cleanly (fetched : res json) : Prop :=
  fetched = Ok JNull \/ exists v, fetched = Ok v /\ clean_string v.

(** The item passes the filters of [prepare_event]. *)
Definition passes (cal : option string) (target_date : string) (c : Scraper.candidate)
  : Prop :=
  isinstance_dict (Scraper.item c) = true
  /\ isinstance_dict (Scraper.ev c) = true
  /\ Scraper.first_of (Scraper.item c) "event" "api_event" (Ok (Scraper.item c))
     = Ok (Scraper.ev c)
  /\ (Scraper.api_mode cal = true -> Scraper.platform_is_luma (Scraper.item c) = Ok true)
  /\ (Scraper.api_mode cal = false ->
      exists start,
        Scraper.first_of (Scraper.ev c) "start_at" "start_date" (Ok (JStr "")) = Ok start
        /\ py_in target_date start = Ok true).

(** The character is another one than [c]. *)
Definition other_than (c x : ascii) : bool := negb (Ascii.eqb x c).

(** The text has no character [c]. *)
Definition without (c : ascii) (text : string) : Prop :=
  Shapes.all_chars (other_than c) text = true.

(** An optional piece of a reply: present or not. *)
Definition opt (present : bool) (piece : string) : string :=
  if present then piece else "".

(** The three fields that enrichment sets on an event. *)
Definition summary_keys : list string := ["ai_summary"; "top_reasons"; "tags"].

End Outcomes.
End Outcomes.

(** ** Orchestrator: [handle_scrape] of main.py

    The handler is modelled by what it answers and by what the enrichment
    backend sees.  The landing page, the calendar API and the detail fetches
    are what [get_optimized_events] is given; [d] holds the cache
    directories as enrichment finds them, and tells which of the three
    output files [raw_], [cleaned_] and [final_] can be opened for writing.
    [cleanup_old_files] swallows its exceptions and has no part in the
    answer. *)

Module Main.
Section Main.
Context `{Host}.

Definition OUTPUTS_DIR : string := "outputs".

(** What [except Exception as e] catches: an exception of the pipeline, or
    an output file that cannot be opened. *)
Inductive failure : Type :=
| Python (e : exn)
| CannotOpen (path : string).

(** The answers: [{"status": "success", "data": ...}], the 400 with its
    message, and the 500 whose message is [str(e)]. *)
Inductive response : Type :=
| Success (data : list (gmap string json))
| NoEvents (message : string)
| ServerError (cause : failure).

(** [os.path.join(OUTPUTS_DIR, f"{kind}_{date}.json")] *)
Definition output_path (kind date : string) : string :=
  OUTPUTS_DIR +:+ "/" +:+ kind +:+ "_" +:+ date +:+ ".json".

(** [{"id": e["id"], "desc": e["description"]}] *)
Definition cleaned_entry (e : gmap string json) : res json :=
  match e !! "id" with
  | None => Raise KeyError
  | Some id =>
      match e !! "description" with
      | None => Raise KeyError
      | Some desc => Ok (JObj [("id", id); ("desc", desc)])
      end
  end.

(** [[{"id": e["id"], "desc": e["description"]} for e in all_event_details]] *)
Fixpoint cleaned_data (all_event_details : list (gmap string json))
  : res (list json) :=
  match all_event_details with
  | [] => Ok []
  | e :: rest =>
      c ← cleaned_entry e;
      cs ← cleaned_data rest;
      Ok (c :: cs)
  end.

(** [with open(path, "w", encoding="utf-8") as f: json.dump(value, f, indent=2)] *)
Definition dump (d : disk) (path : string) : option failure :=
  if writable d path then None else Some (CannotOpen path).

(** [handle_scrape(request, url, date)] *)
Definition handle_scrape (url date : string)
    (landing : reply Scraper.landing_page) (api : reply Scraper.api_response)
    (fetched : nat -> res json)
    (backend : nat -> nat -> reply Enrich.llm_response) (d : disk)
  : response * list io :=
  let url := strip url in
  let date := strip date in
  let all_event_details :=
    Scraper.get_optimized_events url date landing api fetched in
  match all_event_details with
  | [] =>
      (NoEvents ("No events found for " +:+ date +:+ " at " +:+ url +:+ "."), [])
  | _ =>
      match dump d (output_path "raw" date) with
      | Some cause => (ServerError cause, [])
      | None =>
          match cleaned_data all_event_details with
          | Raise e => (ServerError (Python e), [])
          | Ok _ =>
              match dump d (output_path "cleaned" date) with
              | Some cause => (ServerError cause, [])
              | None =>
                  let '(r, d', log) :=
                    Enrich.summarize_events backend d all_event_details in
                  match r with
                  | Raise e => (ServerError (Python e), log)
                  | Ok enriched_events =>
                      match dump d' (output_path "final" date) with
                      | Some cause => (ServerError cause, log)
                      | None => (Success enriched_events, log)
                      end
                  end
              end
          end
      end
  end.

(** The keys of an event of the success body. *)
Definition enriched_keys : list string :=
  Outcomes.record_keys ++ Outcomes.summary_keys.

End Main.
End Main.

(** ** More values to run the definitions on *)

Module Scenes.
Import Sample.

(** A detail page whose JSON-LD is an event with a description. *)
Definition event_page : Scraper.page := {|
  Scraper.status_code := 200;
  Scraper.ld_json :=
    Some (Ok (JObj [("@type", JStr "Event");
                    ("description", JStr "Talks on rollups")]))
|}.

(** A second event, of which the cache knows nothing. *)
Definition event2 : gmap string json :=
  list_to_map [("id", JStr "evt-2"); ("title", JStr "Validator lunch");
               ("description", JStr "Lunch for validators")].

(** A cache directory and an output directory that refuse every write. *)
Definition read_only : disk := {| files := ∅; writable := fun _ => false |}.

(** A backend that is down. *)
Definition down (batch attempt : nat) : reply Enrich.llm_response :=
  Fails (TransportError "connection refused").

(** The answer 200 that carries the summary of [evt-1]. *)
Definition good_answer : Enrich.llm_response := {|
  Enrich.llm_status := 200;
  Enrich.llm_json := Ok (completion full_reply_text)
|}.

(** The answer 429 of [always_limited]. *)
Definition slow_down : Enrich.llm_response := {|
  Enrich.llm_status := 429;
  Enrich.llm_json := Ok (completion "slow down")
|}.

End Scenes.

(** ** Traces of the retry loop and of the merge loop *)

Module Traces.
Section Traces.
Context `{Host}.

(** [m] rounds of the retry loop: a request, then a wait of the delay
    that the 429 answers before it have left: 10 seconds times 1.5 for each
    of them. *)
Definition rounds (backend : nat -> reply Enrich.llm_response) (m : nat) : list io :=
  flat_map (fun j => [Request; Sleep (Enrich.delay_after (Enrich.count_429 backend j))])
           (seq 0 m).

(** The value that the merged results hold under the event's id is truthy
    and has no [get]: the merge loop raises at this event, at
    [ai_data.get("s")]. *)
Definition breaks (master_map : gmap string json) (event : gmap string json) : bool :=
  let ai_data := default JNull (master_map !! Enrich.event_id event) in
  truthy ai_data && negb (isinstance_dict ai_data).

(** The cache holds under the event's content hash a value that is truthy
    and has no [get]: the first loop raises at this event, at
    [cached.get("s")]. *)
Definition stale (d : disk) (event : gmap string json) : bool :=
  let cached := get_cached_summary d (Enrich.get_event_hash event) in
  truthy cached && negb (isinstance_dict cached).

(** The dispatched events that the merge loop gets through: those before
    the first one at which it raises. *)
Fixpoint reached (master_map : gmap string json) (todo : list (gmap string json))
  : list (gmap string json) :=
  match todo with
  | [] => []
  | event :: rest =>
      if breaks master_map event then [] else event :: reached master_map rest
  end.

End Traces.
End Traces.

(** ** What [json.dump] writes of a Python value, and [json.load] reads back *)

Module Serial.
Section Serial.
Context `{Host}.









End Serial.
End Serial.

(** ** A calendar with two events *)

Module Calendar.
Import Sample.

Definition luma_item2 : json :=
  JObj [("platform", JStr "luma");
        ("event", JObj [("api_id", JStr "evt-2"); ("name", JStr "Validator lunch");
                        ("start_at", JStr "2031-12-31T12:00:00.000Z")])].

Definition luma_candidate2 : Scraper.candidate := {|
  Scraper.eid := JStr "evt-2";
  Scraper.name := JStr "Validator lunch";
  Scraper.full_url := "https://lu.ma/hk";
  Scraper.ev := JObj [("api_id", JStr "evt-2"); ("name", JStr "Validator lunch");
                      ("start_at", JStr "2031-12-31T12:00:00.000Z")];
  Scraper.item := luma_item2
|}.

(** The calendar API's answer with both items. *)
Definition two_items : reply Scraper.api_response :=
  Responds {| Scraper.api_status := 200;
              Scraper.api_json := Ok (JObj [("items", JArr [luma_item; luma_item2])]) |}.

End Calendar.

(** * Properties *)

(** ** ContentCleaner *)

Module CleanerFacts.
Import Cleaner.
Section Facts.
Context `{Host}.

Lemma length_append (s t : string) :
  String.length (s +:+ t) = (String.length s + String.length t)%nat.
Proof. induction s as [|c s IH]; simpl; [reflexivity | now rewrite IH]. Qed.

Lemma length_take_prefix (n : nat) (s : string) :
  (String.length (take_prefix n s) <= n)%nat.
Proof.
  unfold take_prefix. revert s.
  induction n as [|n IH]; intros [|c s]; simpl; try lia.
  specialize (IH s). lia.
Qed.

Lemma length_truncate (s : string) : (String.length (truncate s) <= 1503)%nat.
Proof.
  unfold truncate. destruct (1500 <? String.length s)%nat eqn:E.
  - rewrite length_append. pose proof (length_take_prefix 1500 s).
    change (String.length "...") with 3%nat. lia.
  - apply Nat.ltb_ge in E. lia.
Qed.

Lemma length_collapse (b : bool) (s : string) :
  (String.length (collapse b s) <= String.length s)%nat.
Proof.
  revert b. induction s as [|c s IH]; intros b; simpl; [lia|].
  destruct (is_space c).
  - destruct b; simpl; specialize (IH true); lia.
  - simpl. specialize (IH false). lia.
Qed.

Lemma length_lstrip (s : string) : (String.length (lstrip s) <= String.length s)%nat.
Proof.
  induction s as [|c s IH]; simpl; [lia|].
  destruct (is_strip c); simpl; lia.
Qed.

Lemma length_rstrip (s : string) : (String.length (rstrip s) <= String.length s)%nat.
Proof.
  induction s as [|c s IH]; simpl; [lia|].
  destruct (rstrip s) as [|c' r'] eqn:E.
  - destruct (is_strip c); simpl; lia.
  - simpl in *. lia.
Qed.

Lemma length_strip (s : string) : (String.length (strip s) <= String.length s)%nat.
Proof.
  unfold strip. pose proof (length_rstrip (lstrip s)). pose proof (length_lstrip s). lia.
Qed.

Lemma length_clean_text (s : string) : (String.length (clean_text s) <= 1503)%nat.
Proof.
  unfold clean_text.
  match goal with |- context [truncate ?t] =>
    pose proof (length_strip (collapse false (truncate t)));
    pose proof (length_collapse false (truncate t));
    pose proof (length_truncate t)
  end.
  cbv zeta. lia.
Qed.

(** C8. For every input that is a string or absent, [clean_description]
    returns a string of at most 1503 characters (1500 and the three of the
    ellipsis). *)
Theorem clean_description_length (text : option string) :
  exists out, clean_description (of_text text) = Ok out
              /\ (String.length out <= 1503)%nat.
Proof.
  destruct text as [s|]; simpl.
  - unfold clean_description. simpl.
    destruct (String.eqb s "") eqn:E; simpl.
    + eexists; split; [reflexivity | simpl; lia].
    + eexists; split; [reflexivity | apply length_clean_text].
  - eexists; split; [reflexivity | simpl; lia].
Qed.

End Facts.
End CleanerFacts.

(** ** KeyedCache *)

Module CacheFacts.
Section Facts.
Context `{Host}.

Lemma append_inj_l (p a b : string) : p +:+ a = p +:+ b -> a = b.
Proof. induction p as [|c p IH]; simpl; intros E; [exact E | injection E; auto]. Qed.

Lemma list_of_append (a b : string) :
  String.list_ascii_of_string (a +:+ b)
  = String.list_ascii_of_string a ++ String.list_ascii_of_string b.
Proof. induction a as [|c a IH]; simpl; [reflexivity | now rewrite IH]. Qed.

Lemma append_inj_r (a b s : string) : a +:+ s = b +:+ s -> a = b.
Proof.
  intros E. apply (f_equal String.list_ascii_of_string) in E.
  rewrite !list_of_append in E. apply app_inv_tail in E.
  rewrite <- (String.string_of_list_ascii_of_string a),
          <- (String.string_of_list_ascii_of_string b).
  now rewrite E.
Qed.

(** Two keys share a cache file exactly when they share a hash. *)
Lemma get_cache_path_inj (k k' : string) :
  get_cache_path k = get_cache_path k' -> md5_hex k = md5_hex k'.
Proof.
  unfold get_cache_path. intros E.
  apply append_inj_l in E. apply append_inj_l in E.
  now apply append_inj_r in E.
Qed.

Lemma read_after_write (d : disk) (path : string) (v : json) :
  writable d path = true -> read_json (write_json d path v) path = v.
Proof.
  intros W. unfold write_json, read_json. rewrite W. simpl.
  now rewrite lookup_insert_eq.
Qed.

Lemma read_other_write (d : disk) (path path' : string) (v : json) :
  path <> path' -> read_json (write_json d path v) path' = read_json d path'.
Proof.
  intros Ne. unfold write_json, read_json.
  destruct (writable d path); [simpl | reflexivity].
  now rewrite lookup_insert_ne.
Qed.


(** A file that [json.load] rejects reads as a miss. *)
Lemma garbage_reads_as_absent (d : disk) (url : string) :
  files d !! get_cache_path url = Some FGarbage -> get_cached_data d url = JNull.
Proof. unfold get_cached_data, read_json. simpl. now intros ->. Qed.


End Facts.
End CacheFacts.

(** ** Logs of requests and sleeps *)

Module NetFacts.

Lemma requests_app (l1 l2 : list io) :
  requests (l1 ++ l2) = (requests l1 + requests l2)%nat.
Proof. unfold requests. now rewrite List.filter_app, length_app. Qed.

Lemma sleeps_app (l1 l2 : list io) : sleeps (l1 ++ l2) = sleeps l1 ++ sleeps l2.
Proof. unfold sleeps. apply omap_app. Qed.

End NetFacts.

(** ** DetailFetcher *)

Module DetailFacts.
Import Cleaner Scraper NetFacts.
Section Facts.
Context `{Host}.

(** The handler turns every exception of the [try] block into a step. *)
Lemma handled (body : res step) (attempt : nat) :
  exists s, catch body (on_exception attempt) = Ok s.
Proof. destruct body as [s|e]; simpl; eauto. Qed.










(** What the fetch writes to the cache is a dict, so [entry_is_dict] holds
    again after it, for every URL. *)
Lemma set_cached_data_keeps_dicts (d : disk) (url url' : string) (kvs : list (string * json)) :
  entry_is_dict d url' -> entry_is_dict (set_cached_data d url (JObj kvs)) url'.
Proof.
  unfold entry_is_dict, set_cached_data, get_cached_data. simpl.
  unfold write_json, read_json. destruct (writable d (get_cache_path url)); [simpl | easy].
  destruct (decide (get_cache_path url = get_cache_path url')) as [E|N].
  - rewrite E, lookup_insert_eq. reflexivity.
  - now rewrite lookup_insert_ne.
Qed.

Lemma attempt_keeps_dicts (d : disk) (url url' : string) (attempt : nat)
    (r : reply page) (v : json) (d' : disk) :
  attempt_body d url attempt r = Ok (Return v d') ->
  entry_is_dict d url' -> entry_is_dict d' url'.
Proof.
  unfold attempt_body. destruct r as [resp|e]; [|discriminate].
  destruct (status_code resp =? 200).
  - unfold on_ok_page. destruct (ld_json resp) as [[ld|e]|]; simpl; try discriminate.
    + destruct (truthy (select_event ld)).
      * destruct (get (select_event ld) "description" JNull) as [raw|e]; simpl; [|discriminate].
        destruct (Cleaner.clean_description raw) as [s|e]; simpl; [|discriminate].
        intros E. injection E as <- <-. apply set_cached_data_keeps_dicts.
      * simpl. intros E. now injection E as <- <-.
    + intros E. now injection E as <- <-.
  - destruct (status_code resp =? 429); [discriminate|].
    intros E. now injection E as <- <-.
Qed.

Lemma detail_loop_keeps_dicts (net : nat -> reply page) (url url' : string)
    (todo : list nat) (d : disk) (log : list io) :
  entry_is_dict d url' -> entry_is_dict (detail_loop net url todo d log).1.2 url'.
Proof.
  revert log. induction todo as [|attempt rest IH]; intros log Wf; [exact Wf|].
  cbn [detail_loop].
  destruct (catch (attempt_body d url attempt (net attempt)) (on_exception attempt))
    as [[v d'|slept]|e] eqn:E; simpl.
  - destruct (attempt_body d url attempt (net attempt)) as [st|e] eqn:B; simpl in E.
    + injection E as ->. eapply attempt_keeps_dicts; eauto.
    + unfold on_exception in E. discriminate.
  - now apply IH.
  - exact Wf.
Qed.

(** The invariant that C5 rests on holds in an empty cache and after every
    call. *)
Lemma fetch_event_details_keeps_dicts (net : nat -> reply page) (d : disk)
    (url url' : string) :
  entry_is_dict d url' -> entry_is_dict (fetch_event_details net d url).1.2 url'.
Proof.
  intros Wf. unfold fetch_event_details.
  destruct (truthy (get_cached_data d url)); [exact Wf|].
  now apply detail_loop_keeps_dicts.
Qed.

Lemma empty_cache_has_dicts (d : disk) (url : string) :
  files d = ∅ -> entry_is_dict d url.
Proof.
  intros E T. unfold get_cached_data, read_json in T. simpl in T.
  rewrite E, lookup_empty in T. discriminate T.
Qed.

End Facts.
End DetailFacts.

(** ** EventSourceResolver *)

Module ResolverFacts.
Import Cleaner Scraper.

Lemma list_has_len (v : json) : isinstance_list v = true -> exists n, len v = Ok n.
Proof. destruct v; try discriminate. simpl. eauto. Qed.

(** C6, as amended. On a 200 response whose body is [data], when every
    non-empty value at one of the four paths is an array, the code returns
    the first of [items], [entries], [data.entries], [data.items] that is
    present and not empty, and the empty sequence when there is none. *)
Theorem items_first_nonempty (data : json) :
  Forall (fun p => forall v, path_value data p = Some v ->
                             truthy v = true -> isinstance_list v = true)
         item_paths ->
  fetch_calendar_api_events (Responds {| api_status := 200; api_json := Ok data |})
  = first_nonempty data.
Proof.
  intros F. unfold item_paths in F.
  apply Forall_cons in F as [H1 F]. apply Forall_cons in F as [H2 F].
  apply Forall_cons in F as [H3 F]. apply Forall_cons in F as [H4 _].
  unfold fetch_calendar_api_events, first_nonempty, item_paths, pick_items.
  destruct data as [| | | | |kvs]; try reflexivity.
  cbn in H1, H2, H3, H4. cbn.
  destruct (assoc "items" kvs) as [a|]; destruct (assoc "entries" kvs) as [b|];
    destruct (assoc "data" kvs) as [[| | | | |inner]|]; cbn in *;
    try (destruct (assoc "entries" inner) as [c|]);
    try (destruct (assoc "items" inner) as [e|]); cbn in *;
    repeat match goal with
           | K : forall v : json, Some ?x = Some v -> _ |- _ => specialize (K x eq_refl)
           | K : forall v : json, None = Some v -> _ |- _ => clear K
           end;
    unfold or_else;
    repeat match goal with
           | K : truthy ?x = true -> isinstance_list ?x = true |- _ =>
               destruct (truthy x);
               [ destruct x; try (specialize (K eq_refl); discriminate); clear K
               | clear K ]; cbn
           end;
    reflexivity.
Qed.

Section Facts.
Context `{Host}.

Lemma first_of_dict (kvs : list (string * json)) (k1 k2 : string) (last : res json) :
  (exists v, last = Ok v) -> exists v, first_of (JObj kvs) k1 k2 last = Ok v.
Proof.
  intros [v0 ->]. unfold first_of, or_else. simpl.
  destruct (truthy _); [eauto|]. destruct (truthy _); eauto.
Qed.

(** What a prepared item tells about the item it came from. *)
Lemma prepare_event_inv (cal : option string) (target_date url : string)
    (it : json) (c : candidate) :
  prepare_event cal target_date url it = Ok (Some c) ->
  exists start,
    item c = it
    /\ first_of it "event" "api_event" (Ok it) = Ok (ev c)
    /\ isinstance_dict (ev c) = true
    /\ first_of (ev c) "start_at" "start_date" (Ok (JStr "")) = Ok start
    /\ (api_mode cal = true -> platform_is_luma it = Ok true)
    /\ (api_mode cal = false -> py_in target_date start = Ok true)
    /\ first_of (ev c) "api_id" "id"
         (h ← py_hash start; Ok (JStr ("evt-" +:+ py_str (JNum h)))) = Ok (eid c).
Proof.
  unfold prepare_event.
  destruct (isinstance_dict it) eqn:D; [simpl | discriminate].
  destruct (api_mode cal) eqn:M; simpl.
  - destruct (platform_is_luma it) as [[|]|] eqn:P; simpl; try discriminate.
    destruct (first_of it "event" "api_event" (Ok it)) as [e|] eqn:E; simpl; [|discriminate].
    destruct (isinstance_dict e) eqn:De; simpl; [|discriminate].
    destruct (first_of e "start_at" "start_date" (Ok (JStr ""))) as [start|] eqn:S;
      simpl; [|discriminate].
    destruct (first_of e "api_id" "id" _) as [id|] eqn:I; simpl; [|discriminate].
    destruct (first_of e "name" "title" _) as [nm|]; simpl; [|discriminate].
    destruct (first_of e "url" "url_path" _) as [path|]; simpl; [|discriminate].
    intros Q. injection Q as <-. simpl. exists start. repeat split; auto; discriminate.
  - destruct (first_of it "event" "api_event" (Ok it)) as [e|] eqn:E; simpl; [|discriminate].
    destruct (isinstance_dict e) eqn:De; simpl; [|discriminate].
    destruct (first_of e "start_at" "start_date" (Ok (JStr ""))) as [start|] eqn:S;
      simpl; [|discriminate].
    destruct (py_in target_date start) as [[|]|] eqn:In; simpl; try discriminate.
    destruct (first_of e "api_id" "id" _) as [id|] eqn:I; simpl; [|discriminate].
    destruct (first_of e "name" "title" _) as [nm|]; simpl; [|discriminate].
    destruct (first_of e "url" "url_path" _) as [path|]; simpl; [|discriminate].
    intros Q. injection Q as <-. simpl. exists start. repeat split; auto; discriminate.
Qed.

(** C10, as amended. With a calendar id (API mode), a dict item whose
    platform lowercases to [luma] and whose event sub-record ([event], else
    [api_event], else the item) is a dict yields a candidate whatever its
    start-date string and whatever the target date; in API mode the target
    date is never consulted; without a calendar id a candidate exists only if
    the target date occurs in its start-date value. *)
Theorem api_mode_has_no_date_filter (cal : option string) (url : string)
    (kvs : list (string * json)) (e : json) (start : string) :
  api_mode cal = true ->
  platform_is_luma (JObj kvs) = Ok true ->
  first_of (JObj kvs) "event" "api_event" (Ok (JObj kvs)) = Ok e ->
  isinstance_dict e = true ->
  first_of e "start_at" "start_date" (Ok (JStr "")) = Ok (JStr start) ->
  (forall target_date, exists c,
      prepare_event cal target_date url (JObj kvs) = Ok (Some c)
      /\ ev c = e /\ item c = JObj kvs)
  /\ (forall t1 t2 it, prepare_event cal t1 url it = prepare_event cal t2 url it)
  /\ (forall cal' target_date it c,
        api_mode cal' = false ->
        prepare_event cal' target_date url it = Ok (Some c) ->
        exists start',
          first_of (ev c) "start_at" "start_date" (Ok (JStr "")) = Ok start'
          /\ py_in target_date start' = Ok true).
Proof.
  intros M P E De S. split; [|split].
  - intros target_date. unfold prepare_event. simpl. rewrite M, P. simpl.
    rewrite E. simpl. rewrite De. simpl. rewrite S. simpl.
    destruct e as [| | | | |ekvs]; try discriminate.
    repeat match goal with
           | |- context [first_of (JObj ekvs) ?k1 ?k2 ?l] =>
               let v := fresh "v" in
               destruct (first_of_dict ekvs k1 k2 l) as [v ->]; [simpl; eauto|]; simpl
           end.
    simpl. eexists. split; [reflexivity|]. split; reflexivity.
  - intros t1 t2 it. unfold prepare_event. rewrite M. reflexivity.
  - intros cal' target_date it c M' Q.
    destruct (prepare_event_inv _ _ _ _ _ Q) as (start' & _ & _ & _ & S' & _ & In & _).
    exists start'. split; [exact S' | now apply In].
Qed.

Lemma record_has_id (fetched : res json) (c : candidate) (r : gmap string json) :
  fetch_with_results fetched c = Ok r -> r !! "id" = Some (JStr (candidate_id c)).
Proof.
  unfold fetch_with_results.
  destruct fetched as [desc|]; simpl; [|discriminate].
  destruct (get (ev c) "geo_address_info" JNull) as [g|]; simpl; [|discriminate].
  destruct (or_else g _) as [geo|]; simpl; [|discriminate].
  destruct (first_of geo _ _ _) as [loc|]; simpl; [|discriminate].
  destruct (get (ev c) "start_at" JNull) as [sd|]; simpl; [|discriminate].
  destruct (get (ev c) "end_at" JNull) as [ed|]; simpl; [|discriminate].
  destruct (or_else desc _) as [description|]; simpl; [|discriminate].
  destruct (guest_count c) as [guests|]; simpl; [|discriminate].
  intros Q. injection Q as <-. apply lookup_insert_eq.
Qed.

Lemma gather_results_ids (fetched : nat -> res json) (prepped : list candidate) :
  forall i rs, gather_results fetched i prepped = Ok rs ->
               record_ids rs = map (fun c => JStr (candidate_id c)) prepped.
Proof.
  induction prepped as [|c rest IH]; intros i rs; simpl.
  - intros Q. now injection Q as <-.
  - destruct (fetch_with_results (fetched i) c) as [r|] eqn:R; simpl; [|discriminate].
    destruct (gather_results fetched (S i) rest) as [rs'|] eqn:G; simpl; [|discriminate].
    intros Q. injection Q as <-. simpl.
    rewrite (record_has_id _ _ _ R), (IH _ _ G). reflexivity.
Qed.

End Facts.

End ResolverFacts.

(** ** EnrichmentEngine: the retry loop *)

Module RetryFacts.
Import Enrich NetFacts.
Section Facts.
Context `{Host}.

Lemma post_loop_log (backend : nat -> reply llm_response) (n : nat) :
  forall a retry_delay resp log,
    (a + n = max_retries)%nat ->
    retry_delay = wait_at backend a ->
    requests log = a ->
    sleeps log = map (wait_at backend) (seq 0 a) ->
    let log' := (post_loop backend (seq a n) retry_delay resp log).2 in
    (requests log' <= max_retries)%nat
    /\ sleeps log' = map (wait_at backend) (seq 0 (length (sleeps log'))).
Proof.
  induction n as [|n IH]; intros a retry_delay resp log An Dl Rq Sl; cbn [seq post_loop].
  - cbn [snd]. split; [lia|]. rewrite Sl at 2. now rewrite length_map, length_seq.
  - assert (Rq1 : requests (log ++ [Request]) = S a).
    { rewrite requests_app, Rq. change (requests [Request]) with 1%nat. lia. }
    assert (Sl1 : sleeps (log ++ [Request]) = map (wait_at backend) (seq 0 a)).
    { rewrite sleeps_app, Sl. apply app_nil_r. }
    assert (Sl2 : sleeps ((log ++ [Request]) ++ [Sleep retry_delay])
                  = map (wait_at backend) (seq 0 (S a))).
    { rewrite sleeps_app, Sl1, seq_S, map_app. cbn. now rewrite Dl. }
    assert (Rq2 : requests ((log ++ [Request]) ++ [Sleep retry_delay]) = S a).
    { rewrite requests_app, Rq1. change (requests [Sleep retry_delay]) with 0%nat. lia. }
    assert (Stop : (requests (log ++ [Request]) <= max_retries)%nat
                   /\ sleeps (log ++ [Request])
                      = map (wait_at backend) (seq 0 (length (sleeps (log ++ [Request]))))).
    { split; [lia|]. rewrite Sl1 at 2. now rewrite length_map, length_seq. }
    assert (Same : rate_limited (backend a) = false ->
                   retry_delay = wait_at backend (S a)).
    { intros R. rewrite Dl. unfold wait_at. cbn [count_429]. now rewrite R. }
    destruct (backend a) as [r|e] eqn:B.
    + destruct (llm_status r =? 429) eqn:L.
      * apply IH; [lia | | exact Rq2 | exact Sl2].
        rewrite Dl. unfold wait_at. cbn [count_429].
        unfold rate_limited, attempt_end_of. rewrite B, L. reflexivity.
      * destruct (raise_for_status r) as [u|e] eqn:Rs; [exact Stop|].
        unfold on_exception. destruct (a =? max_retries - 1)%nat; [exact Stop|].
        apply IH; [lia | | exact Rq2 | exact Sl2]. apply Same.
        unfold rate_limited, attempt_end_of. now rewrite L, Rs.
    + unfold on_exception. destruct (a =? max_retries - 1)%nat; [exact Stop|].
      apply IH; [lia | | exact Rq2 | exact Sl2]. now apply Same.
Qed.

Lemma post_loop_last_raises (backend : nat -> reply llm_response) (e : exn) (n : nat) :
  forall a retry_delay resp log,
    (a + n = max_retries)%nat -> (0 < n)%nat ->
    (forall i, (a <= i < max_retries - 1)%nat -> accepted (backend i) = false) ->
    attempt_end_of (backend (max_retries - 1)%nat) = Raised e ->
    (post_loop backend (seq a n) retry_delay resp log).1 = Raise e.
Proof.
  induction n as [|n IH]; intros a retry_delay resp log An Pos Bad Last; [lia|].
  cbn [seq post_loop].
  destruct (Nat.eqb_spec a (max_retries - 1)) as [->|Ne].
  - unfold attempt_end_of in Last.
    destruct (backend (max_retries - 1)%nat) as [r|e'].
    + destruct (llm_status r =? 429); [discriminate|].
      destruct (raise_for_status r); [discriminate|].
      injection Last as ->. unfold on_exception. now rewrite Nat.eqb_refl.
    + injection Last as ->. unfold on_exception. now rewrite Nat.eqb_refl.
  - assert (Ba : accepted (backend a) = false) by (apply Bad; unfold max_retries in *; lia).
    assert (Go : forall d r l, (post_loop backend (seq (S a) n) d r l).1 = Raise e).
    { intros. apply IH; auto; [lia | unfold max_retries in *; lia |].
      intros i Hi. apply Bad. lia. }
    unfold accepted, attempt_end_of in Ba.
    destruct (backend a) as [r|e'].
    + destruct (llm_status r =? 429); [apply Go|].
      destruct (raise_for_status r); [discriminate|].
      unfold on_exception. destruct (Nat.eqb_spec a (max_retries - 1)); [contradiction|].
      apply Go.
    + unfold on_exception. destruct (Nat.eqb_spec a (max_retries - 1)); [contradiction|].
      apply Go.
Qed.

End Facts.
End RetryFacts.

(** ** EnrichmentEngine: cache hits *)

Module SummaryFacts.
Import Enrich.
Section Facts.
Context `{Host}.

Lemma apply_summary_dict (event : gmap string json) (kvs : list (string * json)) :
  apply_summary event (JObj kvs) = Ok (with_summary event kvs).
Proof. reflexivity. Qed.

Lemma with_summary_fields (event : gmap string json) (kvs : list (string * json)) :
  with_summary event kvs !! "ai_summary" = Some (default JNull (assoc "s" kvs))
  /\ with_summary event kvs !! "top_reasons" = Some (default JNull (assoc "r" kvs))
  /\ with_summary event kvs !! "tags" = Some (default JNull (assoc "t" kvs)).
Proof.
  unfold with_summary. repeat split.
  - rewrite lookup_insert_ne by discriminate. rewrite lookup_insert_ne by discriminate.
    apply lookup_insert_eq.
  - rewrite lookup_insert_ne by discriminate. apply lookup_insert_eq.
  - apply lookup_insert_eq.
Qed.

Lemma with_summary_other (event : gmap string json) (kvs : list (string * json)) (k : string) :
  k <> "ai_summary" -> k <> "top_reasons" -> k <> "tags" ->
  with_summary event kvs !! k = event !! k.
Proof.
  intros N1 N2 N3. unfold with_summary.
  rewrite !lookup_insert_ne by congruence. reflexivity.
Qed.

Lemma with_summary_hash (event : gmap string json) (kvs : list (string * json)) :
  get_event_hash (with_summary event kvs) = get_event_hash event.
Proof.
  unfold get_event_hash. rewrite !with_summary_other by discriminate. reflexivity.
Qed.

Lemma with_summary_id (event : gmap string json) (kvs : list (string * json)) :
  event_id (with_summary event kvs) = event_id event.
Proof. unfold event_id. rewrite with_summary_other by discriminate. reflexivity. Qed.

Lemma with_summary_twice (event : gmap string json) (kvs : list (string * json)) :
  with_summary (with_summary event kvs) kvs = with_summary event kvs.
Proof.
  apply map_eq. intros k.
  destruct (decide (k = "ai_summary")) as [->|N1];
    [| destruct (decide (k = "top_reasons")) as [->|N2];
       [| destruct (decide (k = "tags")) as [->|N3]]].
  - destruct (with_summary_fields (with_summary event kvs) kvs) as (-> & _ & _).
    now destruct (with_summary_fields event kvs) as (-> & _ & _).
  - destruct (with_summary_fields (with_summary event kvs) kvs) as (_ & -> & _).
    now destruct (with_summary_fields event kvs) as (_ & -> & _).
  - destruct (with_summary_fields (with_summary event kvs) kvs) as (_ & _ & ->).
    now destruct (with_summary_fields event kvs) as (_ & _ & ->).
  - now rewrite with_summary_other.
Qed.

Lemma is_cached_hit (d : disk) (event : gmap string json) :
  is_cached d event ->
  truthy (get_cached_summary d (get_event_hash event)) = true
  /\ get_cached_summary d (get_event_hash event) = JObj (cached_fields d event).
Proof.
  intros (kvs & Ne & E). unfold cached_fields. rewrite E.
  split; [|reflexivity]. now destruct kvs.
Qed.

Lemma partition_all_hits (d : disk) (events : list (gmap string json)) :
  Forall (is_cached d) events ->
  forall i m, partition d events i m
              = Ok (from_cache d events, [], hashes_by_id events m).
Proof.
  induction 1 as [|event rest Hit _ IH]; intros i m; [reflexivity|].
  destruct (is_cached_hit _ _ Hit) as [T E].
  cbn [partition]. rewrite T, E, apply_summary_dict. cbn.
  rewrite IH. reflexivity.
Qed.

Lemma from_cache_is_cached (d : disk) (events : list (gmap string json)) :
  Forall (is_cached d) events -> Forall (is_cached d) (from_cache d events).
Proof.
  unfold from_cache. induction 1 as [|event rest Hit _ IH]; cbn; constructor; auto.
  unfold is_cached in *. now rewrite with_summary_hash.
Qed.

Lemma from_cache_twice (d : disk) (events : list (gmap string json)) :
  from_cache d (from_cache d events) = from_cache d events.
Proof.
  unfold from_cache. rewrite map_map. apply map_ext. intros event.
  unfold cached_fields. rewrite with_summary_hash. apply with_summary_twice.
Qed.

Lemma all_hits_run (backend : nat -> nat -> reply llm_response) (d : disk)
    (events : list (gmap string json)) :
  Forall (is_cached d) events ->
  summarize_events backend d events = (Ok (from_cache d events), d, []).
Proof.
  intros Hits. unfold summarize_events.
  destruct events as [|event rest]; [reflexivity|].
  now rewrite (partition_all_hits d _ Hits).
Qed.

(** C2. When the cache holds a non-empty dict under the content hash of
    every event, [summarize_events] does nothing on the network, leaves the
    cache as it is, and returns the events with [ai_summary], [top_reasons]
    and [tags] set to the [s], [r] and [t] of their entries; run again on what
    it returned, it does nothing on the network and returns the same events. *)
Theorem cached_run_is_offline (first second : nat -> nat -> reply llm_response)
    (d : disk) (events : list (gmap string json)) :
  Forall (is_cached d) events ->
  summarize_events first d events = (Ok (from_cache d events), d, [])
  /\ Forall2 (fun event event' =>
               event' !! "ai_summary"
               = Some (default JNull (assoc "s" (cached_fields d event)))
               /\ event' !! "top_reasons"
                  = Some (default JNull (assoc "r" (cached_fields d event)))
               /\ event' !! "tags"
                  = Some (default JNull (assoc "t" (cached_fields d event))))
             events (from_cache d events)
  /\ summarize_events second d (from_cache d events)
     = (Ok (from_cache d events), d, []).
Proof.
  intros Hits. split; [now apply all_hits_run|]. split.
  - unfold from_cache. apply Forall2_fmap_r, Forall_Forall2_diag, Forall_forall.
    intros event _. apply with_summary_fields.
  - rewrite (all_hits_run second d _ (from_cache_is_cached d _ Hits)).
    now rewrite from_cache_twice.
Qed.

(** The batches are the events to process, cut into runs of at most 15. *)
Lemma batches_of_concat (fuel : nat) :
  forall to_process : list nat,
    (length to_process <= fuel)%nat ->
    concat (batches_of fuel to_process) = to_process
    /\ Forall (fun b : list nat => (0 < length b <= batch_size)%nat)
              (batches_of fuel to_process).
Proof.
  induction fuel as [|fuel IH]; intros [|i rest] L; cbn [length] in L; try lia;
    try (split; [reflexivity | constructor]).
  cbn [batches_of concat].
  destruct (IH (drop batch_size (i :: rest))) as [C F].
  { rewrite length_drop. cbn [length]. unfold batch_size. lia. }
  split.
  - rewrite C. apply take_drop.
  - constructor; [|exact F]. rewrite length_take. cbn [length]. unfold batch_size. lia.
Qed.

Lemma batches_partition (to_process : list nat) :
  concat (batches to_process) = to_process
  /\ Forall (fun b : list nat => (0 < length b <= batch_size)%nat) (batches to_process).
Proof. apply batches_of_concat. lia. Qed.

End Facts.
End SummaryFacts.

(** ** EnrichmentEngine: the merge *)

Module MergeFacts.
Import Enrich SummaryFacts.
Section Facts.
Context `{Host}.

Lemma miss_positions_range (d : disk) (events : list (gmap string json)) :
  forall i j, j ∈ miss_positions d events i -> (i <= j < i + length events)%nat.
Proof.
  induction events as [|event rest IH]; intros i j; cbn [miss_positions length].
  - intros In. inversion In.
  - destruct (is_miss d event).
    + rewrite elem_of_cons. intros [->|In]; [lia|]. apply IH in In. lia.
    + intros In. apply IH in In. lia.
Qed.

Lemma miss_positions_NoDup (d : disk) (events : list (gmap string json)) :
  forall i, NoDup (miss_positions d events i).
Proof.
  induction events as [|event rest IH]; intros i; cbn [miss_positions]; [constructor|].
  destruct (is_miss d event); [|apply IH].
  constructor; [|apply IH]. intros In. apply miss_positions_range in In. lia.
Qed.

Lemma miss_positions_elem (d : disk) (events : list (gmap string json)) :
  forall i k event,
    events !! k = Some event -> is_miss d event = true ->
    (i + k)%nat ∈ miss_positions d events i.
Proof.
  induction events as [|e rest IH]; intros i k event; [discriminate|].
  destruct k as [|k]; cbn [miss_positions]; simpl.
  - intros Q. injection Q as ->. intros ->. rewrite Nat.add_0_r. apply elem_of_cons. now left.
  - intros L M. replace (i + S k)%nat with (S i + k)%nat by lia.
    destruct (is_miss d e); [apply elem_of_cons; right|]; eapply IH; eauto.
Qed.

Lemma miss_positions_miss (d : disk) (events : list (gmap string json)) :
  forall i j event,
    j ∈ miss_positions d events i -> events !! (j - i)%nat = Some event ->
    is_miss d event = true.
Proof.
  induction events as [|e rest IH]; intros i j event; cbn [miss_positions].
  - intros In. inversion In.
  - destruct (is_miss d e) eqn:M.
    + rewrite elem_of_cons. intros [->|In].
      * rewrite Nat.sub_diag. simpl. intros Q. now injection Q as <-.
      * pose proof (miss_positions_range _ _ _ _ In).
        replace (j - i)%nat with (S (j - S i)) by lia. simpl. now apply IH.
    + intros In. pose proof (miss_positions_range _ _ _ _ In).
      replace (j - i)%nat with (S (j - S i)) by lia. simpl. now apply IH.
Qed.

(** What the first loop returns, when it returns. *)
Lemma partition_spec (d : disk) (events : list (gmap string json)) :
  forall i m evs to_process m',
    partition d events i m = Ok (evs, to_process, m') ->
    to_process = miss_positions d events i
    /\ m' = hashes_by_id events m
    /\ length evs = length events
    /\ (forall k event, events !! k = Some event -> is_miss d event = true ->
                        evs !! k = Some event).
Proof.
  induction events as [|e rest IH]; intros i m evs to_process m'; cbn [partition].
  - intros Q. injection Q as <- <- <-.
    repeat split; auto; try (intros k event Q; discriminate).
  - unfold is_miss in *. cbn [miss_positions]. unfold is_miss.
    destruct (truthy (get_cached_summary d (get_event_hash e))) eqn:T; simpl.
    + destruct (apply_summary e _) as [e'|]; simpl; [|discriminate].
      destruct (partition d rest (S i) _) as [[[evs0 todo0] m0]|] eqn:P; simpl; [|discriminate].
      intros Q. injection Q as <- <- <-.
      destruct (IH _ _ _ _ _ P) as (-> & -> & L & K). repeat split; auto.
      * simpl. now rewrite L.
      * intros [|k] event; simpl.
        -- intros Q. injection Q as ->. rewrite T. discriminate.
        -- apply K.
    + destruct (partition d rest (S i) _) as [[[evs0 todo0] m0]|] eqn:P; simpl; [|discriminate].
      intros Q. injection Q as <- <- <-.
      destruct (IH _ _ _ _ _ P) as (-> & -> & L & K). repeat split; auto.
      * simpl. now rewrite L.
      * intros [|k] event; simpl; [auto | apply K].
Qed.

Lemma omap_insert_other (evs : list (gmap string json)) (i : nat)
    (e : gmap string json) (todo : list nat) :
  i ∉ todo ->
  omap (fun j => <[i := e]> evs !! j) todo = omap (fun j => evs !! j) todo.
Proof.
  induction todo as [|j rest IH]; intros Ni; [reflexivity|].
  apply not_elem_of_cons in Ni as [Ne Ni]. cbn.
  rewrite list_lookup_insert_ne by done. now rewrite (IH Ni).
Qed.

Lemma apply_summary_ok (event event' : gmap string json) (ai_data : json) :
  apply_summary event ai_data = Ok event' ->
  exists kvs, ai_data = JObj kvs /\ event' = with_summary event kvs.
Proof.
  destruct ai_data as [| | | | |kvs]; try discriminate.
  rewrite apply_summary_dict. intros Q. injection Q as <-. eauto.
Qed.

(** What the merge loop returns, when it returns. *)
Lemma merge_spec (m : gmap string json) (ids : gmap string string) (to_process : list nat) :
  forall evs d evs' d',
    NoDup to_process ->
    merge m ids to_process evs d = (Ok evs', d') ->
    length evs' = length evs
    /\ (forall i, i ∉ to_process -> evs' !! i = evs !! i)
    /\ (forall i e, i ∈ to_process -> evs !! i = Some e ->
          exists e', evs' !! i = Some e'
                     /\ merged (default JNull (m !! event_id e)) e e')
    /\ d' = fold_left (saved m ids) (omap (fun i => evs !! i) to_process) d.
Proof.
  induction to_process as [|i rest IH]; intros evs d evs' d' ND; cbn [merge].
  - intros Q. injection Q as <- <-. repeat split; auto. intros i e In. inversion In.
  - apply NoDup_cons in ND as [Ni ND].
    destruct (evs !! i) as [event|] eqn:L.
    + set (ai := default JNull (m !! event_id event)).
      assert (Li : (i < length evs)%nat) by (eapply lookup_lt_Some; eauto).
      assert (Step : forall event1 d1,
                merge m ids rest (<[i := event1]> evs) d1 = (Ok evs', d') ->
                merged ai event event1 ->
                d1 = saved m ids d event ->
                length evs' = length evs
                /\ (forall j, j ∉ i :: rest -> evs' !! j = evs !! j)
                /\ (forall j e, j ∈ i :: rest -> evs !! j = Some e ->
                      exists e', evs' !! j = Some e'
                                 /\ merged (default JNull (m !! event_id e)) e e')
                /\ d' = fold_left (saved m ids)
                          (omap (fun j => evs !! j) rest) (saved m ids d event)).
      { intros event1 d1 Q Mg ->.
        destruct (IH _ _ _ _ ND Q) as (Len & Out & In & Dk).
        rewrite length_insert in Len. rewrite omap_insert_other in Dk by done.
        repeat split; auto.
        - intros j Nj. apply not_elem_of_cons in Nj as [Ne Nj].
          rewrite (Out j Nj). now apply list_lookup_insert_ne.
        - intros j e Ij Lj. apply elem_of_cons in Ij as [->|Ij].
          + rewrite L in Lj. injection Lj as <-. exists event1.
            split; [|exact Mg]. rewrite (Out i Ni). now apply list_lookup_insert_eq.
          + apply In; [exact Ij|]. rewrite list_lookup_insert_ne; [exact Lj|].
            intros ->. contradiction. }
      assert (Om : omap (fun j => evs !! j) (i :: rest)
                   = event :: omap (fun j => evs !! j) rest).
      { cbn. now rewrite L. }
      rewrite Om. cbn [fold_left]. clear Om.
      fold ai. destruct (truthy ai) eqn:T.
      * destruct (apply_summary event ai) as [event1|] eqn:A; [|discriminate].
        intros Q. apply (Step _ _ Q).
        -- left. split; [exact T|]. now apply apply_summary_ok.
        -- unfold saved. fold ai. now rewrite T.
      * intros Q. apply (Step _ _ Q).
        -- right. now split.
        -- unfold saved. fold ai. now rewrite T.
    + assert (Om : omap (fun j => evs !! j) (i :: rest)
                   = omap (fun j => evs !! j) rest).
      { cbn. now rewrite L. }
      rewrite Om. clear Om.
      intros Q. destruct (IH _ _ _ _ ND Q) as (Len & Out & In & Dk).
      repeat split; auto.
      * intros j Nj. apply not_elem_of_cons in Nj as [_ Nj]. now apply Out.
      * intros j e Ij Lj. apply elem_of_cons in Ij as [->|Ij]; [congruence|].
        now apply In.
Qed.

Lemma omap_lookup_agree (xs ys : list (gmap string json)) (todo : list nat) :
  (forall j, j ∈ todo -> xs !! j = ys !! j) ->
  omap (fun j => xs !! j) todo = omap (fun j => ys !! j) todo.
Proof.
  induction todo as [|j rest IH]; intros A; [reflexivity|]. cbn.
  rewrite (A j) by (apply elem_of_cons; now left).
  rewrite IH; [reflexivity|]. intros k Ik. apply A, elem_of_cons. now right.
Qed.

Lemma dispatched_elem (d : disk) (events : list (gmap string json)) (e : gmap string json) :
  e ∈ dispatched d events <->
  exists j, j ∈ miss_positions d events 0 /\ events !! j = Some e.
Proof. unfold dispatched. rewrite list_elem_of_omap. reflexivity. Qed.

Lemma dispatched_is_miss (d : disk) (events : list (gmap string json)) (e : gmap string json) :
  e ∈ dispatched d events -> is_miss d e = true.
Proof.
  rewrite dispatched_elem. intros (j & In & L).
  eapply miss_positions_miss; [exact In|]. now rewrite Nat.sub_0_r.
Qed.

(** The shape of a run that returns. *)
Lemma run_returns (backend : nat -> nat -> reply llm_response) (d : disk)
    (events events' : list (gmap string json)) (d' : disk) (log : list io) :
  summarize_events backend d events = (Ok events', d', log) ->
  exists evs,
    partition d events 0 ∅
    = Ok (evs, miss_positions d events 0, hashes_by_id events ∅)
    /\ ((miss_positions d events 0 = [] /\ events' = evs /\ d' = d /\ log = [])
        \/ (exists results,
              gather_batches backend 0 (batches (miss_positions d events 0))
              = (Ok results, log)
              /\ merge (master_map_of results) (hashes_by_id events ∅)
                   (miss_positions d events 0) evs d = (Ok events', d'))).
Proof.
  unfold summarize_events. destruct events as [|e rest].
  - intros Q. injection Q as <- <- <-. exists []. split; [reflexivity|]. left. now repeat split.
  - destruct (partition d (e :: rest) 0 ∅) as [[[evs todo] m]|] eqn:P; [|discriminate].
    destruct (partition_spec _ _ _ _ _ _ _ P) as (-> & -> & _ & _).
    intros Q. exists evs. split; [reflexivity|].
    destruct (miss_positions d (e :: rest) 0) as [|i todo] eqn:M.
    + injection Q as <- <- <-. left. now repeat split.
    + right.
      destruct (gather_batches backend 0 (batches (i :: todo))) as [[results|] lg] eqn:G;
        [|discriminate].
      destruct (merge _ _ _ _ _) as [r dd] eqn:Mg. injection Q as -> -> ->.
      exists results. split; [reflexivity | exact Mg].
Qed.

(** C4, as amended. When [summarize_events] returns, every event that was
    not served from the cache has [ai_summary], [top_reasons] and [tags] set:
    to the [s], [r] and [t] of the dict that the merged results hold under
    its id when that value is not empty ([None] for a key the dict lacks), and
    otherwise to the string [Synthesis incomplete.], the list of the one
    reason [N/A], and the empty list. *)
Theorem dispatched_events_get_fields (backend : nat -> nat -> reply llm_response)
    (d : disk) (events events' : list (gmap string json)) (d' : disk)
    (log : list io) (i : nat) (e : gmap string json) :
  summarize_events backend d events = (Ok events', d', log) ->
  events !! i = Some e ->
  is_miss d e = true ->
  exists e',
    events' !! i = Some e'
    /\ merged (default JNull (merged_results backend d events !! event_id e)) e e'
    /\ is_Some (e' !! "ai_summary") /\ is_Some (e' !! "top_reasons")
    /\ is_Some (e' !! "tags")
    /\ (forall kvs,
          merged_results backend d events !! event_id e = Some (JObj kvs) ->
          kvs <> [] ->
          e' !! "ai_summary" = Some (default JNull (assoc "s" kvs))
          /\ e' !! "top_reasons" = Some (default JNull (assoc "r" kvs))
          /\ e' !! "tags" = Some (default JNull (assoc "t" kvs)))
    /\ (truthy (default JNull (merged_results backend d events !! event_id e)) = false ->
        e' !! "ai_summary" = Some (JStr "Synthesis incomplete.")
        /\ e' !! "top_reasons" = Some (JArr [JStr "N/A"])
        /\ e' !! "tags" = Some (JArr [])).
Proof.
  intros Run L M.
  destruct (run_returns _ _ _ _ _ _ Run) as (evs & P & [(E & _) | (results & G & Mg)]).
  - pose proof (miss_positions_elem d events 0 i e L M) as In. rewrite E in In. inversion In.
  - destruct (partition_spec _ _ _ _ _ _ _ P) as (_ & _ & _ & Keep).
    destruct (merge_spec _ _ _ _ _ _ _ (miss_positions_NoDup d events 0) Mg)
      as (_ & _ & In & _).
    destruct (In i e (miss_positions_elem d events 0 i e L M) (Keep _ _ L M)) as (e' & L' & Mgd).
    assert (R : merged_results backend d events = master_map_of results).
    { unfold merged_results. now rewrite G. }
    rewrite R. exists e'. split; [exact L'|]. split; [exact Mgd|].
    assert (Ph : apply_placeholder e !! "ai_summary" = Some (JStr "Synthesis incomplete.")
                 /\ apply_placeholder e !! "top_reasons" = Some (JArr [JStr "N/A"])
                 /\ apply_placeholder e !! "tags" = Some (JArr [])).
    { unfold apply_placeholder. repeat split.
      - rewrite !lookup_insert_ne by discriminate. apply lookup_insert_eq.
      - rewrite lookup_insert_ne by discriminate. apply lookup_insert_eq.
      - apply lookup_insert_eq. }
    destruct Mgd as [(T & kvs & A & ->) | (T & ->)].
    + destruct (with_summary_fields e kvs) as (F1 & F2 & F3).
      split; [rewrite F1; eauto|]. split; [rewrite F2; eauto|].
      split; [rewrite F3; eauto|]. split.
      * intros kvs' Q _. rewrite Q in A. simpl in A. injection A as ->. now repeat split.
      * intros F. congruence.
    + destruct Ph as (F1 & F2 & F3).
      split; [rewrite F1; eauto|]. split; [rewrite F2; eauto|].
      split; [rewrite F3; eauto|]. split.
      * intros kvs Q Ne. rewrite Q in T. simpl in T. now destruct kvs.
      * intros _. now repeat split.
Qed.

(** *** The cache after a run *)

Lemma summary_path_inj (a b : string) : summary_path a = summary_path b -> a = b.
Proof.
  unfold summary_path. intros E.
  apply CacheFacts.append_inj_l in E. apply CacheFacts.append_inj_l in E.
  now apply CacheFacts.append_inj_r in E.
Qed.

Lemma summary_other (d : disk) (h h' : string) (v : json) :
  h <> h' -> get_cached_summary (set_cached_summary d h v) h' = get_cached_summary d h'.
Proof.
  intros Ne. unfold get_cached_summary, set_cached_summary. simpl.
  apply CacheFacts.read_other_write. intros E. now apply Ne, summary_path_inj.
Qed.

Lemma summary_same (d : disk) (h : string) (v : json) :
  writable d (summary_path h) = true ->
  get_cached_summary (set_cached_summary d h v) h = v.
Proof.
  intros W. unfold get_cached_summary, set_cached_summary. simpl.
  now apply CacheFacts.read_after_write.
Qed.

Lemma summary_unwritable (d : disk) (h : string) (v : json) :
  writable d (summary_path h) = false -> set_cached_summary d h v = d.
Proof.
  intros W. unfold set_cached_summary, write_json. simpl. now rewrite W.
Qed.

(** One step of the merge either leaves a cache entry or puts the result
    of its event there. *)
Lemma saved_entry (mm : gmap string json) (ids : gmap string string) (d : disk)
    (e : gmap string json) (h : string) :
  get_cached_summary (saved mm ids d e) h = get_cached_summary d h
  \/ (truthy (default JNull (mm !! event_id e)) = true
      /\ ids !! event_id e = Some h
      /\ get_cached_summary (saved mm ids d e) h = default JNull (mm !! event_id e)).
Proof.
  unfold saved, save_summary.
  destruct (truthy (default JNull (mm !! event_id e))) eqn:T; [|now left].
  destruct (ids !! event_id e) as [h0|]; [|now left].
  destruct (truthy (JStr h0)); [|now left].
  destruct (decide (h0 = h)) as [->|Ne]; [|left; now apply summary_other].
  destruct (writable d (summary_path h)) eqn:W.
  - right. repeat split; auto. now apply summary_same.
  - left. now rewrite summary_unwritable.
Qed.

Lemma saved_writable (mm : gmap string json) (ids : gmap string string) (d : disk)
    (e : gmap string json) :
  writable (saved mm ids d e) = writable d.
Proof.
  unfold saved, save_summary, set_cached_summary, write_json.
  destruct (truthy (default JNull _)); [|reflexivity].
  destruct (ids !! event_id e) as [h0|]; [|reflexivity].
  destruct (truthy (JStr h0)); [|reflexivity]. simpl.
  now destruct (writable d (summary_path h0)).
Qed.

Lemma fold_saved_writable (mm : gmap string json) (ids : gmap string string)
    (l : list (gmap string json)) :
  forall d, writable (fold_left (saved mm ids) l d) = writable d.
Proof.
  induction l as [|e l IH]; intros d; [reflexivity|]. simpl.
  now rewrite IH, saved_writable.
Qed.

(** Every entry after the steps of [l] is an entry from before them, or
    the non-empty result of one of their events. *)
Lemma fold_saved_entry (mm : gmap string json) (ids : gmap string string)
    (l : list (gmap string json)) (h : string) :
  forall d,
    get_cached_summary (fold_left (saved mm ids) l d) h = get_cached_summary d h
    \/ exists e, e ∈ l
                 /\ truthy (default JNull (mm !! event_id e)) = true
                 /\ ids !! event_id e = Some h
                 /\ get_cached_summary (fold_left (saved mm ids) l d) h
                    = default JNull (mm !! event_id e).
Proof.
  induction l as [|e l IH]; intros d; [now left|]. simpl.
  destruct (IH (saved mm ids d e)) as [Same | (e2 & In & T & I & G)].
  - rewrite Same. destruct (saved_entry mm ids d e h) as [S | (T & I & G)]; [now left|].
    right. exists e. repeat split; auto. apply elem_of_cons. now left.
  - right. exists e2. repeat split; auto. apply elem_of_cons. now right.
Qed.

Lemma hash_is_truthy (e : gmap string json) : truthy (JStr (get_event_hash e)) = true.
Proof.
  unfold get_event_hash. simpl.
  match goal with |- context [md5_hex ?x] => pose proof (md5_hex_length x) as L;
    destruct (md5_hex x) end; [discriminate | reflexivity].
Qed.

(** Once the entry of [h] is truthy, the steps of the merge keep it so. *)
Lemma fold_saved_keeps (mm : gmap string json) (ids : gmap string string)
    (l : list (gmap string json)) (h : string) :
  forall d, truthy (get_cached_summary d h) = true ->
            truthy (get_cached_summary (fold_left (saved mm ids) l d) h) = true.
Proof.
  induction l as [|e l IH]; intros d T; [exact T|]. simpl. apply IH.
  destruct (saved_entry mm ids d e h) as [-> | (T' & _ & ->)]; auto.
Qed.

(** The cache after a run that returns, and the shape of the results that
    were written to it. *)
Lemma run_cache_shape (backend : nat -> nat -> reply llm_response)
    (d : disk) (events events' : list (gmap string json)) (d' : disk) (log : list io) :
  summarize_events backend d events = (Ok events', d', log) ->
  d' = fold_left (saved (merged_results backend d events) (hashes_by_id events ∅))
                 (dispatched d events) d
  /\ (forall e, e ∈ dispatched d events ->
        truthy (default JNull (merged_results backend d events !! event_id e)) = true ->
        exists kvs, merged_results backend d events !! event_id e = Some (JObj kvs)
                    /\ kvs <> []).
Proof.
  intros Run.
  set (mm := merged_results backend d events). set (ids := hashes_by_id events ∅).
  destruct (run_returns _ _ _ _ _ _ Run) as (evs & P & [(E & _ & -> & _) | (results & G & Mg)]).
  - unfold dispatched. rewrite E. split; [reflexivity|]. intros e In. inversion In.
  - destruct (partition_spec _ _ _ _ _ _ _ P) as (_ & _ & _ & Keep).
    destruct (merge_spec _ _ _ _ _ _ _ (miss_positions_NoDup d events 0) Mg)
      as (_ & _ & In & Dk).
    assert (R : mm = master_map_of results).
    { unfold mm, merged_results. now rewrite G. }
    assert (Ag : forall j, j ∈ miss_positions d events 0 -> evs !! j = events !! j).
    { intros j Ij. pose proof (miss_positions_range _ _ _ _ Ij) as [_ Lt].
      destruct (events !! j) as [e|] eqn:L.
      - apply Keep; [exact L|]. eapply miss_positions_miss; [exact Ij|].
        now rewrite Nat.sub_0_r.
      - apply lookup_ge_None in L. simpl in Lt. lia. }
    split.
    + rewrite Dk, R. unfold dispatched. fold ids.
      now rewrite (omap_lookup_agree evs events _ Ag).
    + intros e Ie T. apply dispatched_elem in Ie as (j & Ij & L).
      rewrite <- (Ag j Ij) in L. destruct (In j e Ij L) as (e' & _ & Mgd).
      rewrite <- R in Mgd. destruct Mgd as [(_ & kvs & A & _) | (F & _)]; [|congruence].
      exists kvs. rewrite A in T. destruct (mm !! event_id e) as [v|]; [|discriminate].
      simpl in A. subst v. split; [reflexivity|]. now destruct kvs.
Qed.

(** The files that a run leaves in the enrichment cache are non-empty
    dicts, if those it found were. *)
Lemma run_keeps_summaries_dicts (backend : nat -> nat -> reply llm_response)
    (d : disk) (events events' : list (gmap string json)) (d' : disk) (log : list io) :
  summarize_events backend d events = (Ok events', d', log) ->
  summaries_are_dicts d -> summaries_are_dicts d'.
Proof.
  intros Run Wf h.
  destruct (run_cache_shape _ _ _ _ _ _ Run) as [-> Dicts].
  destruct (fold_saved_entry (merged_results backend d events) (hashes_by_id events ∅)
              (dispatched d events) h d) as [-> | (e & Ie & T & _ & ->)].
  - apply Wf.
  - intros _. destruct (Dicts e Ie T) as (kvs & -> & _). reflexivity.
Qed.

End Facts.
End MergeFacts.

(** ** The properties at work on the sample host *)

Module Examples.
Import Cleaner Scraper Enrich Sample.
#[local] Existing Instance Sample.host.

(** Scenarios of the specification.  A detail page whose JSON-LD is an
    array of two objects, the second an [Event] described as
    [Foo About Bar]: the description is [Foo], and it is cached. *)
Example event_description_is_cut :
  fetch_event_details
    (fun _ => Responds {| status_code := 200;
                          ld_json := Some (Ok (JArr [JObj [("@type", JStr "Organization")];
                                                     JObj [("@type", JStr "Event");
                                                           ("description",
                                                            JStr "Foo About Bar")]])) |})
    blank "https://lu.ma/evt-1"
  = (Ok (JStr "Foo"),
     set_cached_data blank "https://lu.ma/evt-1" (JObj [("description", JStr "Foo")]),
     [Request]).
Proof. vm_compute. reflexivity. Qed.

(** A calendar item of another platform is no candidate. *)
Example other_platform_is_dropped :
  prepare_event (Some "cal-abc123") "2025-03-01" "https://lu.ma/hk"
    (JObj [("platform", JStr "other");
           ("event", JObj [("api_id", JStr "evt-2")])])
  = Ok None.
Proof. reflexivity. Qed.

(** 429 three times, then 200. The
    batch is enriched after waits of 10, 15 and 22.5 seconds. *)
Example three_429_then_200 :
  process_batch_async limited_thrice = (Ok [("evt-1", JObj fields)], three_waits).
Proof. vm_compute. reflexivity. Qed.

(** C1, the claim as written fails: after two exceptions the waits are 10
    and 10 seconds, not 10 and 15; and a batch that is answered 429 five
    times waits a fifth time and then reads the last answer, here into an
    empty result, without raising. *)
Lemma waits_escalate_on_429_only :
  sleeps (process_batch_async failing_twice).2 = [10%Q; 10%Q]
  /\ (process_batch_async failing_twice).1 = Ok [("evt-1", JObj fields)]
  /\ process_batch_async always_limited
     = (Ok [], [Request; Sleep 10%Q; Request; Sleep 15%Q; Request; Sleep (45 # 2)%Q;
                Request; Sleep (135 # 4)%Q; Request; Sleep (405 # 8)%Q]).
Proof. vm_compute. repeat split; reflexivity. Qed.

(** C2, at work: [event1] is in the cache, the run is silent. *)
Lemma cached_run_is_offline_witness :
  Forall (is_cached warm) [event1]
  /\ summarize_events (fun _ => always_limited) warm [event1]
     = (Ok (from_cache warm [event1]), warm, []).
Proof.
  assert (Hits : Forall (is_cached warm) [event1]).
  { repeat constructor. exists fields. split; [discriminate | vm_compute; reflexivity]. }
  exact (conj Hits
           (proj1 (SummaryFacts.cached_run_is_offline
                     (fun _ => always_limited) (fun _ => always_limited)
                     warm [event1] Hits))).
Defined.

(** C3, the claim as written fails: two entries without an id that start
    at the same time get the same id. *)
Lemma fallback_ids_collide :
  record_ids (get_optimized_events "https://lu.ma/hk" "2025-03-01"
                (Responds blob_page) (Fails KeyError) (fun _ => Ok JNull))
  = [JStr "evt-24"; JStr "evt-24"]
  /\ ~ NoDup (record_ids (get_optimized_events "https://lu.ma/hk" "2025-03-01"
                            (Responds blob_page) (Fails KeyError) (fun _ => Ok JNull))).
Proof.
  assert (E : record_ids (get_optimized_events "https://lu.ma/hk" "2025-03-01"
                            (Responds blob_page) (Fails KeyError) (fun _ => Ok JNull))
              = [JStr "evt-24"; JStr "evt-24"]) by (vm_compute; reflexivity).
  split; [exact E|]. rewrite E. intros N. apply NoDup_cons in N as [N _].
  apply N, elem_of_cons. now left.
Qed.

(** C6, the claim as written fails: [items] is present and empty, and the
    code returns what [entries] holds. *)
Lemma empty_items_are_skipped :
  fetch_calendar_api_events calendar_answer = JArr [luma_item]
  /\ first_present calendar_body = JArr [].
Proof. vm_compute. split; reflexivity. Qed.

(** C6, at work on the same body. *)
Lemma items_first_nonempty_witness :
  Forall (fun p => forall v, path_value calendar_body p = Some v ->
                             truthy v = true -> isinstance_list v = true)
         item_paths
  /\ fetch_calendar_api_events calendar_answer = first_nonempty calendar_body.
Proof.
  assert (F : Forall (fun p => forall v, path_value calendar_body p = Some v ->
                                         truthy v = true -> isinstance_list v = true)
                     item_paths).
  { repeat constructor; intros v Q; vm_compute in Q; try discriminate;
      injection Q as <-; reflexivity. }
  exact (conj F (ResolverFacts.items_first_nonempty calendar_body F)).
Defined.

(** C10, the claim as written fails: a dict item of the platform whose
    [event] is a string yields no candidate. *)
Lemma non_dict_event_is_dropped :
  isinstance_dict odd_item = true
  /\ platform_is_luma odd_item = Ok true
  /\ prepare_event (Some "cal-abc123") "2025-03-01" "https://lu.ma/hk" odd_item = Ok None.
Proof. vm_compute. repeat split; reflexivity. Qed.

(** C10, at work: the item starts in 2031, the target date is in 2025,
    and the item is a candidate all the same. *)
Lemma api_mode_has_no_date_filter_witness :
  api_mode (Some "cal-abc123") = true
  /\ platform_is_luma luma_item = Ok true
  /\ first_of luma_item "event" "api_event" (Ok luma_item) = Ok (ev luma_candidate)
  /\ isinstance_dict (ev luma_candidate) = true
  /\ first_of (ev luma_candidate) "start_at" "start_date" (Ok (JStr ""))
     = Ok (JStr "2031-12-31T10:00:00.000Z")
  /\ exists c,
       prepare_event (Some "cal-abc123") "2025-03-01" "https://lu.ma/hk" luma_item
       = Ok (Some c)
       /\ ev c = ev luma_candidate /\ item c = luma_item.
Proof.
  assert (M : api_mode (Some "cal-abc123") = true) by reflexivity.
  assert (P : platform_is_luma luma_item = Ok true) by reflexivity.
  assert (E : first_of luma_item "event" "api_event" (Ok luma_item)
              = Ok (ev luma_candidate)) by reflexivity.
  assert (D : isinstance_dict (ev luma_candidate) = true) by reflexivity.
  assert (S : first_of (ev luma_candidate) "start_at" "start_date" (Ok (JStr ""))
              = Ok (JStr "2031-12-31T10:00:00.000Z")) by reflexivity.
  exact (conj M (conj P (conj E (conj D (conj S
           (proj1 (ResolverFacts.api_mode_has_no_date_filter
                     (Some "cal-abc123") "https://lu.ma/hk" _ _ _ M P E D S)
                  "2025-03-01")))))).
Defined.


(** C4, the claim as written fails: the backend answers with text that is
    no JSON, the event gets the placeholders, and its [ai_summary] is one
    string, not a sequence of three. *)
Lemma placeholder_summary_is_one_string :
  summarize_events (fun _ _ => answer 200 "busy") blank [event1]
  = (Ok [apply_placeholder event1], blank, [Request])
  /\ apply_placeholder event1 !! "ai_summary" = Some (JStr "Synthesis incomplete.")
  /\ three_strings (JStr "Synthesis incomplete.") = false.
Proof. vm_compute. repeat split; reflexivity. Qed.

(** C4, at work: the backend answers the fields of [evt-1] after three
    429s, and the event carries them. *)
Lemma dispatched_events_get_fields_witness :
  summarize_events (fun _ => limited_thrice) blank [event1]
  = (Ok [with_summary event1 fields], warm, three_waits)
  /\ [event1] !! 0%nat = Some event1
  /\ is_miss blank event1 = true
  /\ exists e',
       [with_summary event1 fields] !! 0%nat = Some e'
       /\ e' !! "ai_summary" = Some (default JNull (assoc "s" fields))
       /\ e' !! "top_reasons" = Some (default JNull (assoc "r" fields))
       /\ e' !! "tags" = Some (default JNull (assoc "t" fields)).
Proof.
  assert (Run : summarize_events (fun _ => limited_thrice) blank [event1]
                = (Ok [with_summary event1 fields], warm, three_waits))
    by (vm_compute; reflexivity).
  assert (L : [event1] !! 0%nat = Some event1) by reflexivity.
  assert (M : is_miss blank event1 = true) by reflexivity.
  split; [exact Run|]. split; [exact L|]. split; [exact M|].
  destruct (MergeFacts.dispatched_events_get_fields _ _ _ _ _ _ _ _ Run L M)
    as (e' & L' & _ & _ & _ & _ & K & _).
  exists e'. split; [exact L'|]. apply K; [vm_compute; reflexivity | discriminate].
Defined.

(** C9, the claim as written fails: the merged results hold the id of the
    event, with an empty dict; nothing is written to the cache and the event
    gets the placeholders. *)
Lemma empty_result_is_not_cached :
  merged_results (fun _ _ => answer 200 empty_reply_text) blank [event1] !! "evt-1"
  = Some (JObj [])
  /\ summarize_events (fun _ _ => answer 200 empty_reply_text) blank [event1]
     = (Ok [apply_placeholder event1], blank, [Request]).
Proof. vm_compute. split; reflexivity. Qed.

End Examples.

From Stdlib Require Import Lqa.

(** * Further properties *)

(** ** ContentCleaner: the shape of a cleaned description *)

Module CleanShape.
Import Cleaner Shapes.
Section Facts.
Context `{Host}.

Lemma all_chars_append (test : ascii -> bool) (s t : string) :
  all_chars test (s +:+ t) = all_chars test s && all_chars test t.
Proof.
  induction s as [|c s IH]; simpl; [reflexivity|]. now rewrite IH, andb_assoc.
Qed.

Lemma all_chars_take (test : ascii -> bool) (n : nat) (s : string) :
  all_chars test s = true -> all_chars test (take_prefix n s) = true.
Proof.
  unfold take_prefix. revert s. induction n as [|n IH]; intros [|c s]; simpl; auto.
  intros A. apply andb_true_iff in A as [-> A]. simpl. now apply IH.
Qed.

Lemma blank_noise_ascii (st : run) (s : string) :
  all_chars is_ascii (blank_noise st s) = true.
Proof.
  revert st. induction s as [|c s IH]; intros st; [reflexivity|]. cbn [blank_noise].
  assert (Start : all_chars is_ascii
                    (if is_symbol c then String " " (blank_noise InSymbols s)
                     else if non_ascii c then String " " (blank_noise InNonAscii s)
                     else String c (blank_noise Outside s)) = true).
  { destruct (is_symbol c); [simpl; apply IH|].
    destruct (non_ascii c) eqn:N; [simpl; apply IH|].
    simpl. unfold is_ascii at 1. rewrite N. simpl. apply IH. }
  destruct st; [exact Start | |].
  - destruct (is_symbol c); [apply IH | exact Start].
  - destruct (non_ascii c); [apply IH | exact Start].
Qed.

Lemma truncate_ascii (s : string) :
  all_chars is_ascii s = true -> all_chars is_ascii (truncate s) = true.
Proof.
  intros A. unfold truncate. destruct (1500 <? String.length s)%nat; [|exact A].
  rewrite all_chars_append, (all_chars_take _ _ _ A). reflexivity.
Qed.

Lemma collapse_chars (test : ascii -> bool) (b : bool) (s : string) :
  test " "%char = true -> all_chars test s = true ->
  all_chars test (collapse b s) = true.
Proof.
  intros Sp. revert b. induction s as [|c s IH]; intros b A; [reflexivity|].
  simpl in A. apply andb_true_iff in A as [Tc A]. cbn [collapse].
  destruct (is_space c).
  - destruct b; [now apply IH|]. simpl. rewrite Sp. now apply IH.
  - simpl. rewrite Tc. now apply IH.
Qed.

Lemma lstrip_chars (test : ascii -> bool) (s : string) :
  all_chars test s = true -> all_chars test (lstrip s) = true.
Proof.
  induction s as [|c s IH]; intros A; [reflexivity|]. cbn [lstrip].
  destruct (is_strip c); [|exact A]. simpl in A.
  apply andb_true_iff in A as [_ A]. now apply IH.
Qed.

Lemma rstrip_chars (test : ascii -> bool) (s : string) :
  all_chars test s = true -> all_chars test (rstrip s) = true.
Proof.
  induction s as [|c s IH]; intros A; [reflexivity|]. cbn [rstrip].
  simpl in A. apply andb_true_iff in A as [Tc A]. specialize (IH A).
  destruct (rstrip s) as [|c' r'].
  - destruct (is_strip c); simpl; [reflexivity | now rewrite Tc].
  - cbn [all_chars] in *. now rewrite Tc.
Qed.

Lemma clean_text_ascii (s : string) : all_chars is_ascii (clean_text s) = true.
Proof.
  unfold clean_text, strip. apply rstrip_chars, lstrip_chars.
  apply collapse_chars; [reflexivity|]. apply truncate_ascii, blank_noise_ascii.
Qed.

(** X1. Whatever the input string, and for [None], every character of the
    cleaned description is ASCII. *)
Theorem clean_description_is_ascii (text : option string) :
  exists out, clean_description (of_text text) = Ok out
              /\ all_chars is_ascii out = true.
Proof.
  destruct text as [s|]; [|exists ""; split; reflexivity].
  unfold clean_description. simpl.
  destruct (String.eqb s ""); simpl; eexists; split; try reflexivity.
  apply clean_text_ascii.
Qed.

Lemma spaced_weaken (b : bool) (s : string) : spaced b s = true -> spaced false s = true.
Proof.
  destruct s as [|c s]; [reflexivity|]. simpl.
  destruct (is_space c); [|auto]. intros A. apply andb_true_iff in A as [_ A]. exact A.
Qed.

Lemma collapse_spaced (s : string) :
  forall b, spaced b (collapse b s) = true.
Proof.
  induction s as [|c s IH]; intros b; [reflexivity|]. cbn [collapse].
  destruct (is_space c) eqn:Sc.
  - destruct b; [apply IH|]. cbn [spaced].
    destruct (is_space " "); [simpl; apply IH | apply (spaced_weaken true), IH].
  - cbn [spaced]. rewrite Sc. apply IH.
Qed.

Lemma lstrip_spaced (s : string) : forall b, spaced b s = true -> spaced false (lstrip s) = true.
Proof.
  induction s as [|c s IH]; intros b A; [reflexivity|]. cbn [lstrip].
  destruct (is_strip c); [|now apply (spaced_weaken b)].
  simpl in A. destruct (is_space c).
  - apply andb_true_iff in A as [_ A]. now apply (IH true).
  - now apply (IH false).
Qed.

Lemma rstrip_spaced (s : string) : forall b, spaced b s = true -> spaced b (rstrip s) = true.
Proof.
  induction s as [|c s IH]; intros b A; [reflexivity|]. cbn [rstrip].
  simpl in A.
  destruct (is_space c) eqn:Sc.
  - apply andb_true_iff in A as [Nb A]. specialize (IH true A).
    destruct (rstrip s) as [|c' r'].
    + destruct (is_strip c); [reflexivity|]. simpl. now rewrite Sc, Nb.
    + cbn [spaced]. rewrite Sc, Nb. exact IH.
  - specialize (IH false A).
    destruct (rstrip s) as [|c' r'].
    + destruct (is_strip c); [reflexivity|]. simpl. now rewrite Sc.
    + cbn [spaced]. rewrite Sc. exact IH.
Qed.

Lemma rstrip_cons (c : ascii) (s : string) :
  rstrip (String c s)
  = match rstrip s with
    | EmptyString => if is_strip c then EmptyString else String c EmptyString
    | r' => String c r'
    end.
Proof. reflexivity. Qed.

Lemma rstrip_twice (s : string) : rstrip (rstrip s) = rstrip s.
Proof.
  induction s as [|c s IH]; [reflexivity|]. cbn [rstrip].
  destruct (rstrip s) as [|c' r'] eqn:R.
  - destruct (is_strip c) eqn:Sc; [reflexivity|]. simpl. now rewrite Sc.
  - rewrite (rstrip_cons c (String c' r')), IH. reflexivity.
Qed.

Lemma lstrip_rstrip (s : string) :
  lstrip s = s -> lstrip (rstrip s) = rstrip s.
Proof.
  destruct s as [|c s]; [reflexivity|]. cbn [lstrip rstrip].
  destruct (is_strip c) eqn:Sc.
  - intros E. exfalso. apply (f_equal String.length) in E. simpl in E.
    pose proof (CleanerFacts.length_lstrip s). lia.
  - intros _. destruct (rstrip s); simpl; now rewrite Sc.
Qed.

Lemma lstrip_twice (s : string) : lstrip (lstrip s) = lstrip s.
Proof.
  induction s as [|c s IH]; [reflexivity|]. cbn [lstrip].
  destruct (is_strip c) eqn:Sc; [exact IH|]. simpl. now rewrite Sc.
Qed.

Lemma strip_twice (s : string) : strip (strip s) = strip s.
Proof.
  unfold strip. rewrite (lstrip_rstrip (lstrip s) (lstrip_twice s)).
  apply rstrip_twice.
Qed.

(** X2. Whatever the input string, and for [None], the cleaned description
    has no two neighbouring whitespace characters, and stripping it again
    changes nothing: it neither starts nor ends with whitespace. *)
Theorem clean_description_is_single_spaced (text : option string) :
  exists out, clean_description (of_text text) = Ok out
              /\ spaced false out = true
              /\ strip out = out.
Proof.
  destruct text as [s|]; [|exists ""; repeat split; reflexivity].
  unfold clean_description. simpl.
  destruct (String.eqb s ""); simpl; eexists; split; try reflexivity;
    try (split; reflexivity).
  unfold clean_text. split; [|apply strip_twice].
  unfold strip. apply rstrip_spaced, (lstrip_spaced _ false), collapse_spaced.
Qed.

End Facts.
End CleanShape.

(** ** Cache: the two stores and the law of get after put *)

Module CacheLaws.
Import CacheFacts.
Section Facts.
Context `{Host}.

Lemma paths_apart (url event_hash : string) :
  get_cache_path url <> summary_path event_hash.
Proof. unfold get_cache_path, summary_path. simpl. discriminate. Qed.

(** X3. The description cache and the summary cache never share a file:
    a put into one leaves every get of the other as it was, whatever the
    keys and the value. *)
Theorem caches_are_apart (d : disk) (url event_hash : string) (v : json) :
  get_cached_data (set_cached_summary d event_hash v) url = get_cached_data d url
  /\ get_cached_summary (set_cached_data d url v) event_hash
     = get_cached_summary d event_hash.
Proof.
  unfold get_cached_data, get_cached_summary, set_cached_data, set_cached_summary.
  simpl. split; apply read_other_write.
  - intros E. now apply (paths_apart url event_hash).
  - apply paths_apart.
Qed.

(** X4. What a get sees after a put, in both caches: the value put when
    the file of the key could be written and the second key has the same
    file (the same md5 for a URL, the same hash for a summary); what was
    there before in every other case, so that a put that fails changes
    nothing and the last put wins. *)
Theorem get_after_put (d : disk) (k k' : string) (v : json) :
  get_cached_data (set_cached_data d k v) k'
  = (if writable d (get_cache_path k) && String.eqb (md5_hex k) (md5_hex k')
     then v else get_cached_data d k')
  /\ get_cached_summary (set_cached_summary d k v) k'
     = (if writable d (summary_path k) && String.eqb k k'
        then v else get_cached_summary d k').
Proof.
  unfold get_cached_data, get_cached_summary, set_cached_data, set_cached_summary.
  simpl. split.
  - destruct (String.eqb_spec (md5_hex k) (md5_hex k')) as [E|Ne].
    + assert (P : get_cache_path k' = get_cache_path k)
        by (unfold get_cache_path; now rewrite E).
      rewrite P. destruct (writable d (get_cache_path k)) eqn:W; simpl.
      * now apply read_after_write.
      * unfold write_json. now rewrite W.
    + rewrite andb_false_r. apply read_other_write.
      intros E. now apply Ne, get_cache_path_inj.
  - destruct (String.eqb_spec k k') as [<-|Ne].
    + destruct (writable d (summary_path k)) eqn:W; simpl.
      * now apply read_after_write.
      * unfold write_json. now rewrite W.
    + rewrite andb_false_r. apply read_other_write.
      intros E. apply Ne. unfold summary_path in E.
      apply append_inj_l in E. apply append_inj_l in E.
      now apply append_inj_r in E.
Qed.

End Facts.
End CacheLaws.

(** ** DetailFetcher: what a fetch leaves behind *)

Module DetailMore.
Import Cleaner Scraper Shapes Outcomes NetFacts CacheFacts DetailFacts.
Section Facts.
Context `{Host}.

(** One pass through the [try] block returns [None] and leaves the cache,
    or returns a cleaned description and stores it. *)
Lemma attempt_returns (d : disk) (url : string) (attempt : nat) (r : reply page)
    (v : json) (d' : disk) :
  catch (attempt_body d url attempt r) (on_exception attempt) = Ok (Return v d') ->
  (v = JNull /\ d' = d)
  \/ exists text description,
       clean_description text = Ok description
       /\ v = JStr description
       /\ d' = set_cached_data d url (entry_of description).
Proof.
  destruct (attempt_body d url attempt r) as [s|e] eqn:E; simpl;
    [|unfold on_exception; discriminate].
  intros E'. injection E' as ->. unfold attempt_body in E.
  destruct r as [resp|e]; [|discriminate].
  destruct (status_code resp =? 200).
  - destruct (on_ok_page d url resp) as [[v0 d0]|e] eqn:P; simpl in E; [|discriminate].
    injection E as -> ->. unfold on_ok_page in P.
    destruct (ld_json resp) as [[ld|e]|]; try discriminate; simpl in P.
    + destruct (truthy (select_event ld)).
      * destruct (get (select_event ld) "description" JNull) as [raw|e];
          [|discriminate]. simpl in P.
        destruct (clean_description raw) as [description|e] eqn:C; [|discriminate].
        simpl in P. injection P as <- <-. right. now exists raw, description.
      * injection P as <- <-. now left.
    + injection P as <- <-. now left.
  - destruct (status_code resp =? 429); [discriminate|].
    injection E as <- <-. now left.
Qed.

(** The sleeps of one pass: none, one second after an exception, or
    [2 * (attempt + 1)] seconds after a 429. *)
Lemma attempt_waits (d : disk) (url : string) (attempt : nat) (r : reply page)
    (slept : list io) :
  catch (attempt_body d url attempt r) (on_exception attempt) = Ok (Continue slept) ->
  slept = [] \/ slept = [Sleep 1%Q]
  \/ slept = [Sleep (inject_Z ((Z.of_nat attempt + 1) * 2))].
Proof.
  destruct (attempt_body d url attempt r) as [[v d'|sl]|e] eqn:E; simpl;
    intros E'; try discriminate.
  - injection E' as <-. unfold attempt_body in E.
    destruct r as [resp|e]; [|discriminate].
    destruct (status_code resp =? 200).
    + destruct (on_ok_page d url resp) as [[v d']|e]; discriminate.
    + destruct (status_code resp =? 429); [|discriminate].
      injection E as <-. now right; right.
  - unfold on_exception in E'. injection E' as <-.
    destruct (_ =? _)%nat; [now left | now right; left].
Qed.

Lemma detail_loop_result (net : nat -> reply page) (url : string) (todo : list nat)
    (d : disk) (log : list io) :
  exists v d' log',
    detail_loop net url todo d log = (Ok v, d', log')
    /\ ((v = JNull /\ d' = d)
        \/ exists text description,
             clean_description text = Ok description
             /\ v = JStr description
             /\ d' = set_cached_data d url (entry_of description)).
Proof.
  revert log. induction todo as [|attempt rest IH]; intros log; simpl.
  - exists JNull, d, log. split; [reflexivity | now left].
  - destruct (handled (attempt_body d url attempt (net attempt)) attempt) as [s Hs].
    rewrite Hs. destruct s as [v d'|slept].
    + exists v, d', (log ++ [Request]). split; [reflexivity|].
      exact (attempt_returns _ _ _ _ _ _ Hs).
    + apply IH.
Qed.

Lemma clean_description_shape (text : json) (description : string) :
  clean_description text = Ok description ->
  (String.length description <= 1503)%nat
  /\ all_chars is_ascii description = true.
Proof.
  unfold clean_description. destruct (truthy text); simpl.
  - destruct text as [| | |s| |]; try discriminate.
    intros E. injection E as <-. split;
      [apply CleanerFacts.length_clean_text | apply CleanShape.clean_text_ascii].
  - intros E. injection E as <-. split; [simpl; lia | reflexivity].
Qed.

(** X5. A fetch that finds no usable entry under its URL gives [None] and
    leaves the cache as it was, or gives a string of at most 1503 ASCII
    characters and stores it under the URL: a [None] is never stored.  And
    when the file could be written, a later fetch of the same URL returns the
    same string without any request, whatever the network would answer. *)
Theorem fetched_description_is_reused
    (net later : nat -> reply page) (d : disk) (url : string) :
  truthy (get_cached_data d url) = false ->
  exists v d' log,
    fetch_event_details net d url = (Ok v, d', log)
    /\ ((v = JNull /\ d' = d)
        \/ exists description,
             v = JStr description
             /\ (String.length description <= 1503)%nat
             /\ all_chars is_ascii description = true
             /\ d' = set_cached_data d url (entry_of description)
             /\ (writable d (get_cache_path url) = true ->
                 fetch_event_details later d' url = (Ok v, d', []))).
Proof.
  intros Miss. unfold fetch_event_details at 1. rewrite Miss.
  destruct (detail_loop_result net url (seq 0 max_retries) d [])
    as (v & d' & log & E & Shape).
  exists v, d', log. split; [exact E|].
  destruct Shape as [Nothing | (text & description & C & -> & ->)]; [now left|].
  right. exists description.
  destruct (clean_description_shape _ _ C) as [Len Asc].
  repeat split; try assumption.
  intros W. unfold fetch_event_details.
  assert (G : get_cached_data (set_cached_data d url (entry_of description)) url
              = entry_of description).
  { unfold get_cached_data, set_cached_data. simpl. now apply read_after_write. }
  rewrite G. reflexivity.
Qed.

Lemma set_cached_data_files (d : disk) (url : string) (v : json) (path : string) :
  path <> get_cache_path url ->
  files (set_cached_data d url v) !! path = files d !! path
  /\ writable (set_cached_data d url v) = writable d.
Proof.
  intros Ne. unfold set_cached_data, write_json. simpl.
  destruct (writable d (get_cache_path url)); simpl; [|auto].
  split; [|reflexivity]. now apply lookup_insert_ne.
Qed.

(** X6. A fetch touches one file at most, the one of its URL: every other
    file of the cache directories is as before, so the descriptions stored
    for URLs with another md5 and all stored summaries read as before; and
    what can be written stays the same. *)
Theorem fetch_event_details_frame (net : nat -> reply page) (d : disk) (url : string) :
  exists r d' log,
    fetch_event_details net d url = (r, d', log)
    /\ writable d' = writable d
    /\ (forall path, path <> get_cache_path url -> files d' !! path = files d !! path)
    /\ (forall other, md5_hex other <> md5_hex url ->
          get_cached_data d' other = get_cached_data d other)
    /\ (forall event_hash, get_cached_summary d' event_hash
                           = get_cached_summary d event_hash).
Proof.
  assert (Frame : forall d', writable d' = writable d ->
            (forall path, path <> get_cache_path url ->
                          files d' !! path = files d !! path) ->
            (forall other, md5_hex other <> md5_hex url ->
               get_cached_data d' other = get_cached_data d other)
            /\ (forall event_hash, get_cached_summary d' event_hash
                                   = get_cached_summary d event_hash)).
  { intros d' _ F. split.
    - intros other Ne. unfold get_cached_data, read_json. simpl.
      rewrite F; [reflexivity|]. intros E. now apply Ne, get_cache_path_inj.
    - intros event_hash. unfold get_cached_summary, read_json. simpl.
      rewrite F; [reflexivity|]. intros E. now apply (CacheLaws.paths_apart url event_hash). }
  unfold fetch_event_details. destruct (truthy (get_cached_data d url)).
  - eexists _, d, _. split; [reflexivity|]. split; [reflexivity|].
    split; [reflexivity|]. now apply Frame.
  - destruct (detail_loop_result net url (seq 0 max_retries) d [])
      as (v & d' & log & E & Shape).
    exists (Ok v), d', log. split; [exact E|].
    assert (W : writable d' = writable d
                /\ forall path, path <> get_cache_path url ->
                                files d' !! path = files d !! path).
    { destruct Shape as [[_ ->] | (text & description & _ & _ & ->)]; [auto|].
      split; [|intros path Ne]; now apply set_cached_data_files with (path := "")
        || now apply set_cached_data_files. }
    destruct W as [W F]. split; [exact W|]. split; [exact F|]. now apply Frame.
Qed.

End Facts.
End DetailMore.

(** ** DetailFetcher: how long a fetch can wait *)

Module DetailWaits.
Import Cleaner Scraper Shapes Outcomes NetFacts DetailFacts DetailMore.
Section Facts.
Context `{Host}.

Lemma total_app (a b : list Q) : (total (a ++ b) == total a + total b)%Q.
Proof. induction a as [|q a IH]; simpl; [|rewrite IH]; lra. Qed.

Lemma wait_is_positive (attempt : nat) :
  (1 <= inject_Z ((Z.of_nat attempt + 1) * 2))%Q.
Proof. unfold Qle. simpl. lia. Qed.

(** A pass waits no longer than its 429 wait. *)
Lemma attempt_waits_bound (d : disk) (url : string) (attempt : nat) (r : reply page)
    (slept : list io) :
  catch (attempt_body d url attempt r) (on_exception attempt) = Ok (Continue slept) ->
  (total (sleeps slept) <= inject_Z ((Z.of_nat attempt + 1) * 2))%Q.
Proof.
  intros E. pose proof (wait_is_positive attempt) as P.
  destruct (attempt_waits _ _ _ _ _ E) as [-> | [-> | ->]];
    remember (inject_Z ((Z.of_nat attempt + 1) * 2)) as w;
    unfold sleeps, total; simpl; lra.
Qed.

Lemma worst_wait_cons (attempt : nat) (rest : list nat) :
  worst_wait (attempt :: rest)
  = (inject_Z ((Z.of_nat attempt + 1) * 2) + worst_wait rest)%Q.
Proof. reflexivity. Qed.

Lemma worst_wait_positive (todo : list nat) : (0 <= worst_wait todo)%Q.
Proof.
  induction todo as [|i rest IH]; [discriminate|]. rewrite worst_wait_cons.
  pose proof (wait_is_positive i). lra.
Qed.

Lemma detail_loop_waits (net : nat -> reply page) (url : string) (todo : list nat)
    (d : disk) (log : list io) :
  (total (sleeps (detail_loop net url todo d log).2)
   <= total (sleeps log) + worst_wait todo)%Q.
Proof.
  revert log. induction todo as [|attempt rest IH]; intros log.
  - simpl. unfold worst_wait. simpl. lra.
  - cbn [detail_loop]. rewrite worst_wait_cons.
    destruct (handled (attempt_body d url attempt (net attempt)) attempt) as [s Hs].
    rewrite Hs. pose proof (worst_wait_positive rest) as Pos.
    pose proof (wait_is_positive attempt) as P.
    destruct s as [v d'|slept].
    + cbn [snd]. rewrite sleeps_app. change (sleeps [Request]) with (@nil Q).
      rewrite app_nil_r. lra.
    + pose proof (IH ((log ++ [Request]) ++ slept)) as B.
      rewrite !sleeps_app in B. change (sleeps [Request]) with (@nil Q) in B.
      rewrite app_nil_r, total_app in B.
      pose proof (attempt_waits_bound _ _ _ _ _ Hs). lra.
Qed.

(** X7. Whatever the network answers, the sleeps of one fetch add up to 12
    seconds at most, and a fetch served from the cache sends no request and
    never sleeps.  The bound is reached: on a miss, three answers 429 make
    the fetch sleep 2, 4 and 6 seconds, the last one after the final attempt,
    and give [None]. *)
Theorem fetch_event_details_waits (net : nat -> reply page) (d : disk) (url : string) :
  exists r d' log,
    fetch_event_details net d url = (r, d', log)
    /\ (total (sleeps log) <= 12)%Q
    /\ (truthy (get_cached_data d url) = true -> log = [])
    /\ (truthy (get_cached_data d url) = false ->
        (forall i, (i < max_retries)%nat -> limited_at net i = true) ->
        r = Ok JNull /\ d' = d
        /\ log = [Request; Sleep 2; Request; Sleep 4; Request; Sleep 6]).
Proof.
  unfold fetch_event_details. destruct (truthy (get_cached_data d url)).
  - eexists _, _, _. split; [reflexivity|]. split; [discriminate|].
    split; [reflexivity | discriminate].
  - destruct (detail_loop net url (seq 0 max_retries) d []) as [[r d'] log] eqn:E.
    exists r, d', log. split; [reflexivity|].
    split; [|split; [discriminate|]].
    + pose proof (detail_loop_waits net url (seq 0 max_retries) d []) as B.
      rewrite E in B. cbn [snd] in B. change (sleeps []) with (@nil Q) in B. change (total []) with 0%Q in B.
      assert (W : (worst_wait (seq 0 max_retries) == 12)%Q) by reflexivity. lra.
    + intros _ L.
      assert (A : forall i, (i < 3)%nat ->
                 catch (attempt_body d url i (net i)) (on_exception i)
                 = Ok (Continue [Sleep (inject_Z ((Z.of_nat i + 1) * 2))])).
      { intros i Hi. specialize (L i Hi). unfold limited_at in L.
        unfold attempt_body. destruct (net i) as [resp|e]; [|discriminate].
        apply Z.eqb_eq in L. rewrite L. reflexivity. }
      unfold max_retries in E. cbn [seq detail_loop] in E.
      rewrite (A 0%nat), (A 1%nat), (A 2%nat) in E by lia.
      cbn in E. injection E as <- <- <-. repeat split.
Qed.

End Facts.
End DetailWaits.

(** ** Resolver: what the records of a run look like *)

Module RecordFacts.
Import Cleaner Scraper Shapes Outcomes ResolverFacts.
Section Facts.
Context `{Host}.

Lemma or_else_inv (a : json) (b : res json) (v : json) :
  or_else a b = Ok v -> (truthy a = true /\ v = a) \/ (truthy a = false /\ b = Ok v).
Proof.
  unfold or_else. destruct (truthy a); intros E; [left | now right].
  injection E as <-. now split.
Qed.

Lemma first_of_inv (x : json) (k1 k2 : string) (last : res json) (v : json) :
  first_of x k1 k2 last = Ok v -> truthy v = true \/ last = Ok v.
Proof.
  unfold first_of. destruct (get x k1 JNull) as [a|]; simpl; [|discriminate].
  intros E. apply or_else_inv in E as [[T ->] | [_ E]]; [now left|].
  destruct (get x k2 JNull) as [b|]; simpl in E; [|discriminate].
  apply or_else_inv in E as [[T ->] | [_ E]]; [now left | now right].
Qed.

Lemma guest_count_inv (c : candidate) (v : json) :
  guest_count c = Ok v -> truthy v = true \/ v = JNum 0.
Proof.
  unfold guest_count.
  destruct (get (item c) "guest_count" JNull) as [a|]; simpl; [|discriminate].
  intros E. apply or_else_inv in E as [[T ->] | [_ E]]; [now left|].
  destruct (get (ev c) "guest_count" JNull) as [b|]; simpl in E; [|discriminate].
  apply or_else_inv in E as [[T ->] | [_ E]]; [now left|].
  destruct (get (ev c) "ticket_count" JNull) as [t|]; simpl in E; [|discriminate].
  apply or_else_inv in E as [[T ->] | [_ E]]; [now left|].
  destruct (get (item c) "num_tickets_sold" JNull) as [n|]; simpl in E; [|discriminate].
  apply or_else_inv in E as [[T ->] | [_ E]]; [now left|].
  injection E as <-. now right.
Qed.

(** The record of a candidate, field by field. *)
Lemma fetch_with_results_inv (fetched : res json) (c : candidate)
    (r : gmap string json) :
  fetch_with_results fetched c = Ok r ->
  exists desc start_date end_date loc description guests,
    fetched = Ok desc
    /\ r = list_to_map
             [("id", JStr (py_str (eid c))); ("title", name c);
              ("url", JStr (full_url c)); ("start_date", start_date);
              ("end_date", end_date); ("location", loc);
              ("description", description); ("guest_count", guests)]
    /\ truthy loc = true
    /\ (truthy guests = true \/ guests = JNum 0)
    /\ ((truthy desc = true /\ description = desc)
        \/ (truthy desc = false /\ clean_string description)).
Proof.
  unfold fetch_with_results.
  destruct fetched as [desc|]; simpl; [|discriminate].
  destruct (get (ev c) "geo_address_info" JNull) as [g|]; simpl; [|discriminate].
  destruct (or_else g _) as [geo|]; simpl; [|discriminate].
  destruct (first_of geo _ _ _) as [loc|] eqn:L; simpl; [|discriminate].
  destruct (get (ev c) "start_at" JNull) as [sd|]; simpl; [|discriminate].
  destruct (get (ev c) "end_at" JNull) as [ed|]; simpl; [|discriminate].
  destruct (or_else desc _) as [description|] eqn:D; simpl; [|discriminate].
  destruct (guest_count c) as [guests|] eqn:G; simpl; [|discriminate].
  intros Q. injection Q as <-.
  exists desc, sd, ed, loc, description, guests.
  split; [reflexivity|]. split; [reflexivity|]. split; [|split].
  - apply first_of_inv in L as [T | L]; [exact T|]. now injection L as <-.
  - exact (guest_count_inv _ _ G).
  - apply or_else_inv in D as [[T ->] | [T D]]; [now left|]. right. split; [exact T|].
    destruct (get (ev c) "description" (JStr "")) as [raw|]; simpl in D; [|discriminate].
    destruct (clean_description raw) as [cleaned|] eqn:C; simpl in D; [|discriminate].
    injection D as <-. exists cleaned. split; [reflexivity|].
    exact (DetailMore.clean_description_shape _ _ C).
Qed.

Lemma record_is_well_formed (fetched : res json) (c : candidate) (r : gmap string json) :
  fetch_with_results fetched c = Ok r -> well_formed_record r.
Proof.
  intros E. apply fetch_with_results_inv in E
    as (desc & sd & ed & loc & description & guests & _ & -> & Tl & Tg & Td).
  unfold well_formed_record. cbn [list_to_map foldr].
  split; [|repeat split].
  - intros k. unfold record_keys.
    rewrite !lookup_insert_is_Some, !elem_of_cons, elem_of_nil, lookup_empty.
    split.
    + intros K. repeat (destruct K as [<- | [_ K]]; [tauto|]).
      now destruct K.
    + intros K.
      repeat (destruct K as [-> | K];
              [repeat (first [now left | right; split; [discriminate|]])|]).
      contradiction.
  - eexists. apply lookup_insert_eq.
  - eexists. now repeat (rewrite lookup_insert_ne by discriminate); rewrite lookup_insert_eq.
  - exists loc. split; [|exact Tl].
    now repeat (rewrite lookup_insert_ne by discriminate); rewrite lookup_insert_eq.
  - exists guests. split; [|exact Tg].
    now repeat (rewrite lookup_insert_ne by discriminate); rewrite lookup_insert_eq.
  - exists description. split.
    + now repeat (rewrite lookup_insert_ne by discriminate); rewrite lookup_insert_eq.
    + destruct Td as [[T ->] | [_ C]]; [now left | now right].
Qed.

Lemma gather_results_Forall (P : gmap string json -> Prop) (fetched : nat -> res json)
    (prepped : list candidate) :
  (forall i c r, fetch_with_results (fetched i) c = Ok r -> P r) ->
  forall i rs, gather_results fetched i prepped = Ok rs -> Forall P rs.
Proof.
  intros One. induction prepped as [|c rest IH]; intros i rs; simpl.
  - intros Q. injection Q as <-. constructor.
  - destruct (fetch_with_results (fetched i) c) as [r|] eqn:R; simpl; [|discriminate].
    destruct (gather_results fetched (S i) rest) as [rs'|] eqn:G; simpl; [|discriminate].
    intros Q. injection Q as <-. constructor; [exact (One _ _ _ R) | exact (IH _ _ G)].
Qed.

Lemma run_Forall (P : gmap string json -> Prop) (url target_date : string)
    (landing : reply landing_page) (api : reply api_response)
    (fetched : nat -> res json) :
  (forall i c r, fetch_with_results (fetched i) c = Ok r -> P r) ->
  Forall P (get_optimized_events url target_date landing api fetched).
Proof.
  intros One. unfold get_optimized_events.
  destruct landing as [page|e]; [|constructor].
  destruct (negb (landing_status page =? 200)); [constructor|].
  destruct (candidates url target_date page api) as [prepped|]; simpl; [|constructor].
  destruct (gather_results fetched 0 prepped) as [rs|] eqn:G; [|constructor].
  exact (gather_results_Forall P fetched prepped One _ _ G).
Qed.

(** X8. Whatever the landing page, the calendar API and the detail fetches
    give, every record that [get_optimized_events] returns has exactly the
    eight keys of an EventRecord; its [id] and [url] are strings, its
    [location] is never empty (it falls back to Hong Kong), its
    [guest_count] is a non-zero count or 0, never [None], and its
    [description] is a non-empty fetched value or a cleaned string. *)
Theorem records_are_well_formed (url target_date : string)
    (landing : reply landing_page) (api : reply api_response)
    (fetched : nat -> res json) :
  Forall well_formed_record (get_optimized_events url target_date landing api fetched).
Proof. apply run_Forall. intros i c r. apply record_is_well_formed. Qed.

(** X9. When every detail fetch gives [None] or a cleaned string, as it
    does from a cache that holds only what the fetcher wrote, the
    [description] of every record of the run is a string of at most 1503
    ASCII characters: nothing longer reaches the enrichment prompt. *)
Theorem descriptions_are_clean (url target_date : string)
    (landing : reply landing_page) (api : reply api_response)
    (fetched : nat -> res json) :
  (forall i, fetched_cleanly (fetched i)) ->
  Forall (fun r => exists v, r !! "description" = Some v /\ clean_string v)
         (get_optimized_events url target_date landing api fetched).
Proof.
  intros Clean. apply run_Forall. intros i c r E.
  apply fetch_with_results_inv in E
    as (desc & sd & ed & loc & description & guests & F & -> & _ & _ & Td).
  exists description. split.
  - cbn [list_to_map foldr].
    now repeat (rewrite lookup_insert_ne by discriminate); rewrite lookup_insert_eq.
  - destruct Td as [[T ->] | [_ C]]; [|exact C].
    destruct (Clean i) as [N | (v & V & C)]; rewrite F in *.
    + injection N as ->. discriminate.
    + now injection V as ->.
Qed.

Lemma prepare_event_passes (cal : option string) (target_date url : string)
    (it : json) (c : candidate) :
  prepare_event cal target_date url it = Ok (Some c) ->
  item c = it /\ passes cal target_date c.
Proof.
  intros Q.
  assert (D : isinstance_dict it = true).
  { unfold prepare_event in Q. destruct (isinstance_dict it); [reflexivity | discriminate]. }
  destruct (prepare_event_inv _ _ _ _ _ Q) as (start & I & E & De & S & P & In & _).
  split; [exact I|]. unfold passes. rewrite I.
  repeat split; auto. intros M. exists start. split; [exact S | now apply In].
Qed.

(** X10. The candidates of a run are items of the raw list, in its order,
    none twice unless the list has it twice, and each has passed the
    filters: the item and its event sub-record are dicts, the platform is
    luma in API mode, and the target date occurs in the start date
    otherwise. *)
Theorem candidates_come_from_items (cal : option string) (target_date url : string)
    (items : list json) (prepped : list candidate) :
  prepare_all cal target_date url items = Ok prepped ->
  sublist (map item prepped) items
  /\ Forall (passes cal target_date) prepped.
Proof.
  revert prepped. induction items as [|it rest IH]; intros prepped; simpl.
  - intros Q. injection Q as <-. split; constructor.
  - destruct (prepare_event cal target_date url it) as [p|] eqn:P; simpl; [|discriminate].
    destruct (prepare_all cal target_date url rest) as [ps|]; simpl; [|discriminate].
    destruct (IH ps eq_refl) as [Sub All].
    intros Q. injection Q as <-. destruct p as [c|].
    + destruct (prepare_event_passes _ _ _ _ _ P) as [I Pc]. simpl. rewrite I.
      split; [now apply sublist_skip | now constructor].
    + split; [now apply sublist_cons | exact All].
Qed.

(** X11. In API mode the value that the caller counts and iterates is
    always countable and iterable: [fetch_calendar_api_events] gives the
    empty list on an exception of the request, on a status other than 200
    and on a body whose items have no length, and otherwise a value whose
    [len] is the number of entries that the caller loops over. *)
Theorem api_items_are_countable (r : reply api_response) :
  (exists items, py_iter (fetch_calendar_api_events r) = Ok items
                 /\ len (fetch_calendar_api_events r) = Ok (Z.of_nat (length items)))
  /\ (forall e, fetch_calendar_api_events (Fails e) = JArr [])
  /\ (forall resp, api_status resp <> 200 ->
                   fetch_calendar_api_events (Responds resp) = JArr [])
  /\ (forall resp data items,
        api_status resp = 200 -> api_json resp = Ok data ->
        pick_items data = Ok items -> len items = Raise TypeError ->
        fetch_calendar_api_events (Responds resp) = JArr []).
Proof.
  split; [|split; [|split]].
  - assert (Empty : exists items, py_iter (JArr []) = Ok items
                       /\ len (JArr []) = Ok (Z.of_nat (length items)))
      by (exists []; split; reflexivity).
    unfold fetch_calendar_api_events. destruct r as [resp|e]; [|exact Empty].
    destruct (api_status resp =? 200); [|exact Empty].
    destruct (api_json resp) as [data|]; simpl; [|exact Empty].
    destruct (pick_items data) as [items|]; simpl; [|exact Empty].
    destruct items as [| | |s|l|kvs]; simpl; try exact Empty.
    + exists (chars s). split; [reflexivity|]. f_equal. f_equal.
      induction s as [|c s IH]; simpl; [reflexivity | now rewrite IH].
    + exists l. split; reflexivity.
    + eexists. split; [reflexivity|]. now rewrite length_map.
  - reflexivity.
  - intros resp Ne. unfold fetch_calendar_api_events.
    destruct (Z.eqb_spec (api_status resp) 200); [contradiction | reflexivity].
  - intros resp data items S J P L. unfold fetch_calendar_api_events.
    rewrite S, J. simpl. rewrite P. simpl. rewrite L. reflexivity.
Qed.

End Facts.
End RecordFacts.

(** ** EnrichmentEngine: what a batch's retry loop ends with *)

Module RetryMore.
Import Cleaner Enrich Shapes Outcomes NetFacts RetryFacts.
Section Facts.
Context `{Host}.

(** Attempts that are not accepted lead to the next one, up to the last. *)
Lemma post_loop_reaches (backend : nat -> reply llm_response) (k : nat) (n : nat) :
  forall a retry_delay resp log,
    (a <= k)%nat -> (k < a + n)%nat -> (k < max_retries)%nat ->
    (forall i, (a <= i < k)%nat -> accepted (backend i) = false) ->
    exists retry_delay' resp' log',
      post_loop backend (seq a n) retry_delay resp log
      = post_loop backend (seq k (a + n - k)) retry_delay' resp' log'
      /\ requests log' = (requests log + (k - a))%nat
      /\ length (sleeps log') = (length (sleeps log) + (k - a))%nat.
Proof.
  induction n as [|n IH]; intros a retry_delay resp log Ak Kn Km Bad; [lia|].
  destruct (Nat.eq_dec a k) as [->|Ne].
  - exists retry_delay, resp, log.
    replace (k + S n - k)%nat with (S n) by lia.
    split; [reflexivity|]. split; lia.
  - assert (Ba : accepted (backend a) = false) by (apply Bad; lia).
    assert (Go : forall delay r,
              exists retry_delay' resp' log',
                post_loop backend (seq (S a) n) delay r
                  ((log ++ [Request]) ++ [Sleep retry_delay])
                = post_loop backend (seq k (a + S n - k)) retry_delay' resp' log'
                  /\ requests log' = (requests log + (k - a))%nat
                  /\ length (sleeps log') = (length (sleeps log) + (k - a))%nat).
    { intros delay r.
      destruct (IH (S a) delay r ((log ++ [Request]) ++ [Sleep retry_delay]))
        as (d' & r' & l' & E & Rq & Sl); [lia | lia | lia | |].
      { intros i Hi. apply Bad. lia. }
      exists d', r', l'. replace (a + S n - k)%nat with (S a + n - k)%nat by lia.
      split; [exact E|].
      rewrite !requests_app in Rq. rewrite !sleeps_app, !length_app in Sl.
      change (requests [Request]) with 1%nat in Rq.
      change (requests [Sleep retry_delay]) with 0%nat in Rq.
      change (length (sleeps [Request])) with 0%nat in Sl.
      change (length (sleeps [Sleep retry_delay])) with 1%nat in Sl.
      split; lia. }
    cbn [seq post_loop]. unfold accepted, attempt_end_of in Ba.
    assert (Na : (a =? max_retries - 1)%nat = false)
      by (apply Nat.eqb_neq; unfold max_retries in *; lia).
    destruct (backend a) as [r|e].
    + destruct (llm_status r =? 429); [apply Go|].
      destruct (raise_for_status r); [discriminate|].
      unfold on_exception. rewrite Na. apply Go.
    + unfold on_exception. rewrite Na. apply Go.
Qed.

(** X12. The first accepted answer ends the loop and is the one parsed:
    when the answers before attempt [k] (counted from 0, below 5) are 429s
    or failures and the answer to attempt [k] has a 2xx status, the batch
    sends [k + 1] requests, waits [k] times and gives what the body of that
    answer parses to. *)
Theorem first_accepted_answer_is_read (backend : nat -> reply llm_response)
    (k : nat) (r : llm_response) :
  (k < 5)%nat ->
  (forall i, (i < k)%nat -> accepted (backend i) = false) ->
  attempt_end_of (backend k) = Accepted r ->
  (process_batch_async backend).1 = read_reply r
  /\ requests (process_batch_async backend).2 = S k
  /\ length (sleeps (process_batch_async backend).2) = k.
Proof.
  intros Hk Bad Acc. unfold process_batch_async.
  destruct (post_loop_reaches backend k max_retries 0 10%Q None [])
    as (delay & resp & log & E & Rq & Sl);
    [lia | unfold max_retries; lia | unfold max_retries; lia | |].
  { intros i Hi. apply Bad. lia. }
  rewrite E. unfold max_retries.
  replace (0 + 5 - k)%nat with (S (4 - k)) by lia. cbn [seq post_loop].
  unfold attempt_end_of in Acc. destruct (backend k) as [r'|e]; [|discriminate].
  destruct (llm_status r' =? 429); [discriminate|].
  destruct (raise_for_status r'); [|discriminate].
  injection Acc as ->. cbn [fst snd]. split; [reflexivity|].
  rewrite requests_app, sleeps_app, length_app, Rq, Sl.
  change (requests [Request]) with 1%nat.
  change (length (sleeps [Request])) with 0%nat.
  change (requests []) with 0%nat. change (length (sleeps [])) with 0%nat.
  split; lia.
Qed.

Lemma fifth_429 (backend : nat -> reply llm_response) (r : llm_response) :
  (forall i, (i < 4)%nat -> accepted (backend i) = false) ->
  attempt_end_of (backend 4%nat) = RateLimited r ->
  exists log,
    post_loop backend (seq 0 max_retries) 10%Q None [] = (Ok r, log)
    /\ requests log = 5%nat
    /\ length (sleeps log) = 5%nat.
Proof.
  intros Bad Lim.
  destruct (post_loop_reaches backend 4 max_retries 0 10%Q None [])
    as (delay & resp & log & E & Rq & Sl);
    [lia | unfold max_retries; lia | unfold max_retries; lia | |].
  { intros i Hi. apply Bad. lia. }
  rewrite E. unfold max_retries. cbn [Nat.add Nat.sub seq post_loop].
  unfold attempt_end_of in Lim. destruct (backend 4%nat) as [r'|e]; [|discriminate].
  destruct (llm_status r' =? 429).
  - injection Lim as ->. eexists. split; [reflexivity|].
    rewrite !requests_app, !sleeps_app, !length_app, Rq, Sl.
    change (requests [Request]) with 1%nat.
    change (length (sleeps [Request])) with 0%nat.
    change (requests [Sleep delay]) with 0%nat.
    change (length (sleeps [Sleep delay])) with 1%nat.
    change (requests []) with 0%nat. change (length (sleeps [])) with 0%nat.
    split; lia.
  - destruct (raise_for_status r'); discriminate.
Qed.

(** X13. A 429 on the fifth attempt does not end in an error of the retry
    loop: when no earlier answer was accepted, the batch waits a fifth time
    and then parses the body of that 429 answer as if it had been accepted. *)
Theorem last_429_is_parsed (backend : nat -> reply llm_response) (r : llm_response) :
  (forall i, (i < 4)%nat -> accepted (backend i) = false) ->
  attempt_end_of (backend 4%nat) = RateLimited r ->
  (process_batch_async backend).1 = read_reply r
  /\ requests (process_batch_async backend).2 = 5%nat
  /\ length (sleeps (process_batch_async backend).2) = 5%nat.
Proof.
  intros Bad Lim. destruct (fifth_429 backend r Bad Lim) as (log & E & Rq & Sl).
  unfold process_batch_async. rewrite E. cbn [fst snd].
  split; [reflexivity|]. split; [exact Rq | exact Sl].
Qed.

(** A request is followed by one sleep at most. *)
Lemma post_loop_counts (backend : nat -> reply llm_response) (todo : list nat) :
  forall retry_delay resp log,
    (length (sleeps log) <= requests log)%nat ->
    let log' := (post_loop backend todo retry_delay resp log).2 in
    (length (sleeps log') <= requests log')%nat.
Proof.
  induction todo as [|a rest IH]; intros retry_delay resp log L; cbn [post_loop].
  - exact L.
  - assert (L1 : (length (sleeps (log ++ [Request])) <= requests (log ++ [Request]))%nat).
    { rewrite requests_app, sleeps_app, length_app.
      change (requests [Request]) with 1%nat.
      change (length (sleeps [Request])) with 0%nat. lia. }
    assert (L2 : (length (sleeps ((log ++ [Request]) ++ [Sleep retry_delay]))
                  <= requests ((log ++ [Request]) ++ [Sleep retry_delay]))%nat).
    { rewrite !requests_app, !sleeps_app, !length_app.
      change (requests [Request]) with 1%nat.
      change (length (sleeps [Request])) with 0%nat.
      change (requests [Sleep retry_delay]) with 0%nat.
      change (length (sleeps [Sleep retry_delay])) with 1%nat. lia. }
    destruct (backend a) as [r|e].
    + destruct (llm_status r =? 429); [now apply IH|].
      destruct (raise_for_status r); [exact L1|].
      unfold on_exception. destruct (a =? max_retries - 1)%nat; [exact L1 | now apply IH].
    + unfold on_exception. destruct (a =? max_retries - 1)%nat; [exact L1 | now apply IH].
Qed.

Lemma count_429_le (backend : nat -> reply llm_response) (j : nat) :
  (count_429 backend j <= j)%nat.
Proof.
  induction j as [|j IH]; [reflexivity|]. cbn [count_429].
  destruct (rate_limited (backend j)); lia.
Qed.

Lemma delay_after_grows (c j : nat) :
  (c <= j)%nat -> (j <= 4)%nat -> (0 <= delay_after c <= delay_after j)%Q.
Proof.
  intros Cj J4.
  do 5 (destruct j as [|j];
        [do 5 (destruct c as [|c];
               [try lia; split; apply Qle_bool_imp_le; reflexivity|]); lia|]).
  lia.
Qed.

Lemma wait_at_bound (backend : nat -> reply llm_response) (j : nat) :
  (j <= 4)%nat -> (0 <= wait_at backend j <= delay_after j)%Q.
Proof. intros J. apply delay_after_grows; [apply count_429_le | exact J]. Qed.

(** X14. Whatever the backend answers, a batch waits five times at most
    and for 131.875 seconds in all at most (10 + 15 + 22.5 + 33.75 + 50.625),
    the sum that five 429 answers give. *)
Theorem batch_waits_are_bounded (backend : nat -> reply llm_response) :
  (length (sleeps (process_batch_async backend).2) <= 5)%nat
  /\ (total (sleeps (process_batch_async backend).2) <= 1055 # 8)%Q
  /\ ((forall i, (i < 5)%nat -> rate_limited (backend i) = true) ->
      sleeps (process_batch_async backend).2
      = [10%Q; 15%Q; 45 # 2; 135 # 4; 405 # 8]).
Proof.
  pose proof (post_loop_log backend max_retries 0 10%Q None []
                eq_refl eq_refl eq_refl eq_refl) as [Rq Sl].
  pose proof (post_loop_counts backend (seq 0 max_retries) 10%Q None []
                (Nat.le_refl _)) as Cn.
  unfold process_batch_async.
  destruct (post_loop backend (seq 0 max_retries) 10%Q None []) as [r log] eqn:E.
  cbn [fst snd] in *.
  assert (Len : (length (sleeps log) <= 5)%nat) by (unfold max_retries in Rq; lia).
  split; [exact Len|]. split.
  - rewrite Sl. clear Sl.
    pose proof (wait_at_bound backend 0 ltac:(lia)) as W0.
    pose proof (wait_at_bound backend 1 ltac:(lia)) as W1.
    pose proof (wait_at_bound backend 2 ltac:(lia)) as W2.
    pose proof (wait_at_bound backend 3 ltac:(lia)) as W3.
    pose proof (wait_at_bound backend 4 ltac:(lia)) as W4.
    change (delay_after 0) with 10%Q in W0.
    change (delay_after 1) with 15%Q in W1.
    change (delay_after 2) with (45 # 2)%Q in W2.
    change (delay_after 3) with (135 # 4)%Q in W3.
    change (delay_after 4) with (405 # 8)%Q in W4.
    destruct (length (sleeps log)) as [|[|[|[|[|[|n]]]]]]; [..|lia];
      cbn [seq map]; unfold total; cbn [fold_right]; lra.
  - intros All.
    assert (C : forall j, (j <= 5)%nat -> count_429 backend j = j).
    { induction j as [|j IH]; intros J; [reflexivity|]. cbn [count_429].
      rewrite All, IH by lia. reflexivity. }
    assert (Five : length (sleeps log) = 5%nat).
    { destruct (attempt_end_of (backend 4%nat)) as [r4|r4|e4] eqn:A4.
      - specialize (All 4%nat ltac:(lia)). unfold rate_limited in All.
        now rewrite A4 in All.
      - destruct (fifth_429 backend r4) as (log5 & E5 & _ & Sl5); [|exact A4|].
        + intros i Hi. specialize (All i ltac:(lia)).
          unfold rate_limited in All. unfold accepted.
          now destruct (attempt_end_of (backend i)).
        + rewrite E in E5. now injection E5 as _ ->.
      - specialize (All 4%nat ltac:(lia)). unfold rate_limited in All.
        now rewrite A4 in All. }
    rewrite Sl, Five. cbn [seq map]. unfold wait_at.
    rewrite !C by lia. reflexivity.
Qed.

End Facts.
End RetryMore.

(** ** EnrichmentEngine: batches and whole runs *)

Module RunFacts.
Import Cleaner Enrich Shapes Outcomes NetFacts CacheFacts RetryFacts SummaryFacts MergeFacts.
Section Facts.
Context `{Host}.

Lemma batches_of_length (fuel : nat) :
  forall to_process : list nat,
    (length to_process <= fuel)%nat ->
    length (batches_of fuel to_process) = ((length to_process + 14) / 15)%nat.
Proof.
  induction fuel as [|fuel IH]; intros [|i rest] L; cbn [length] in L; try lia;
    try reflexivity.
  cbn [batches_of length]. rewrite IH.
  - rewrite length_drop. cbn [length]. unfold batch_size.
    destruct (le_lt_dec 15 (S (length rest))) as [Big|Small].
    + replace (S (length rest) + 14)%nat
        with ((S (length rest) - 15 + 14) + 1 * 15)%nat by lia.
      rewrite Nat.div_add by lia. lia.
    + replace (S (length rest) - 15)%nat with 0%nat by lia.
      change ((0 + 14) / 15)%nat with 0%nat.
      apply (Nat.div_unique _ _ 1 (length rest)); lia.
  - rewrite length_drop. cbn [length]. unfold batch_size. lia.
Qed.

Lemma batches_of_lookup (fuel : nat) :
  forall (to_process : list nat) (i : nat) (b : list nat),
    (length to_process <= fuel)%nat ->
    batches_of fuel to_process !! i = Some b ->
    b = take 15 (drop (15 * i) to_process).
Proof.
  induction fuel as [|fuel IH]; intros [|x rest] i b L; cbn [length] in L;
    try lia; try discriminate.
  cbn [batches_of]. destruct i as [|i].
  - intros Q. injection Q as <-. reflexivity.
  - remember (drop batch_size (x :: rest)) as tl eqn:Tl.
    intros Q. cbn in Q. apply IH in Q.
    + rewrite Q, Tl. unfold batch_size. rewrite drop_drop. f_equal. f_equal. lia.
    + rewrite Tl, length_drop. cbn [length]. unfold batch_size. lia.
Qed.

(** X15. The queue of dispatched events is cut into consecutive slices of
    15: batch [i] is [to_process[15 i : 15 i + 15]], there are
    [ceil(n / 15)] batches, none is empty, and together they are the queue,
    so that every dispatched event is sent in exactly one batch. *)
Theorem batches_slice_the_queue (to_process : list nat) :
  concat (batches to_process) = to_process
  /\ length (batches to_process) = ((length to_process + 14) / 15)%nat
  /\ (forall i b, batches to_process !! i = Some b ->
        b = take 15 (drop (15 * i) to_process) /\ (0 < length b <= 15)%nat).
Proof.
  destruct (batches_partition to_process) as [C F].
  split; [exact C|]. split; [apply batches_of_length; lia|].
  intros i b L. split.
  - exact (batches_of_lookup _ _ _ _ (Nat.le_refl _) L).
  - rewrite Forall_forall in F. apply F.
    now apply (list_elem_of_lookup_2 _ i).
Qed.

Lemma batch_requests (backend : nat -> reply llm_response) :
  (requests (process_batch_async backend).2 <= 5)%nat.
Proof.
  unfold process_batch_async.
  pose proof (post_loop_log backend max_retries 0 10%Q None []
                eq_refl eq_refl eq_refl eq_refl) as [Rq _].
  destruct (post_loop backend (seq 0 max_retries) 10%Q None []) as [r log].
  exact Rq.
Qed.

Lemma gather_requests (backend : nat -> nat -> reply llm_response)
    (todo : list (list nat)) :
  forall i, (requests (gather_batches backend i todo).2 <= 5 * length todo)%nat.
Proof.
  induction todo as [|b rest IH]; intros i; cbn [gather_batches length].
  - cbn. lia.
  - pose proof (batch_requests (backend i)) as B. specialize (IH (S i)).
    destruct (process_batch_async (backend i)) as [r log].
    destruct (gather_batches backend (S i) rest) as [rs logs].
    cbn [snd] in *. rewrite requests_app. lia.
Qed.

Lemma run_requests (backend : nat -> nat -> reply llm_response)
    (d : disk) (events : list (gmap string json)) :
  (requests (summarize_events backend d events).2
   <= 5 * length (batches (miss_positions d events 0)))%nat.
Proof.
  unfold summarize_events. destruct events as [|e0 rest]; [cbn; lia|].
  destruct (partition d (e0 :: rest) 0 ∅) as [[[evs to_process] ids]|] eqn:P;
    [|cbn; lia].
  destruct (partition_spec _ _ _ _ _ _ _ P) as (-> & _).
  destruct (miss_positions d (e0 :: rest) 0) as [|i0 todo] eqn:M; [cbn; lia|].
  pose proof (gather_requests backend (batches (i0 :: todo)) 0) as G.
  destruct (gather_batches backend 0 (batches (i0 :: todo))) as [[results|e] log].
  - destruct (merge _ _ _ _ _) as [r d']. exact G.
  - exact G.
Qed.

(** X16. A run sends at most five requests for each batch of dispatched
    events, [5 * ceil(misses / 15)] in all, whatever the backend answers and
    however the run ends. *)
Theorem run_requests_are_bounded (backend : nat -> nat -> reply llm_response)
    (d : disk) (events : list (gmap string json)) :
  (requests (summarize_events backend d events).2
   <= 5 * ((length (miss_positions d events 0) + 14) / 15))%nat.
Proof.
  pose proof (run_requests backend d events) as B.
  unfold batches in B. now rewrite (batches_of_length _ _ (Nat.le_refl _)) in B.
Qed.

Lemma partition_hits (d : disk) (events : list (gmap string json)) :
  forall i m evs to_process m',
    partition d events i m = Ok (evs, to_process, m') ->
    forall k event, events !! k = Some event -> is_miss d event = false ->
                    evs !! k = Some (with_summary event (cached_fields d event)).
Proof.
  induction events as [|e rest IH]; intros i m evs to_process m'; cbn [partition].
  - intros _ k event Q. discriminate.
  - destruct (truthy (get_cached_summary d (get_event_hash e))) eqn:T; simpl.
    + destruct (apply_summary e _) as [e'|] eqn:A; simpl; [|discriminate].
      destruct (partition d rest (S i) _) as [[[evs0 todo0] m0]|] eqn:P; simpl;
        [|discriminate].
      intros Q. injection Q as <- <- <-. intros [|k] event; simpl.
      * intros Q _. injection Q as <-.
        apply apply_summary_ok in A as (kvs & C & ->).
        unfold cached_fields. now rewrite C.
      * apply (IH _ _ _ _ _ P).
    + destruct (partition d rest (S i) _) as [[[evs0 todo0] m0]|] eqn:P; simpl;
        [|discriminate].
      intros Q. injection Q as <- <- <-. intros [|k] event; simpl.
      * intros Q M. injection Q as <-. unfold is_miss in M. rewrite T in M. discriminate.
      * apply (IH _ _ _ _ _ P).
Qed.

Lemma placeholder_other (event : gmap string json) (k : string) :
  k ∉ summary_keys -> apply_placeholder event !! k = event !! k.
Proof.
  unfold summary_keys. rewrite !not_elem_of_cons. intros (N1 & N2 & N3 & _).
  unfold apply_placeholder. now rewrite !lookup_insert_ne by congruence.
Qed.

Lemma summary_other_keys (event : gmap string json) (kvs : list (string * json))
    (k : string) :
  k ∉ summary_keys -> with_summary event kvs !! k = event !! k.
Proof.
  unfold summary_keys. rewrite !not_elem_of_cons. intros (N1 & N2 & N3 & _).
  now apply with_summary_other.
Qed.

Lemma summary_keys_set (event : gmap string json) (kvs : list (string * json))
    (k : string) :
  k ∈ summary_keys -> is_Some (with_summary event kvs !! k).
Proof.
  destruct (with_summary_fields event kvs) as (S & R & T).
  unfold summary_keys. rewrite !elem_of_cons, elem_of_nil.
  intros [-> | [-> | [-> | []]]]; eauto.
Qed.

Lemma placeholder_keys_set (event : gmap string json) (k : string) :
  k ∈ summary_keys -> is_Some (apply_placeholder event !! k).
Proof.
  unfold summary_keys, apply_placeholder. rewrite !elem_of_cons, elem_of_nil.
  intros [-> | [-> | [-> | []]]].
  - rewrite !lookup_insert_ne by discriminate. rewrite lookup_insert_eq. eauto.
  - rewrite lookup_insert_ne by discriminate. rewrite lookup_insert_eq. eauto.
  - rewrite lookup_insert_eq. eauto.
Qed.

(** Where every event of a returning run ends up. *)
Lemma run_positions (backend : nat -> nat -> reply llm_response) (d : disk)
    (events events' : list (gmap string json)) (d' : disk) (log : list io) :
  summarize_events backend d events = (Ok events', d', log) ->
  length events' = length events
  /\ forall i e, events !! i = Some e ->
       (is_miss d e = false
        /\ events' !! i = Some (with_summary e (cached_fields d e)))
       \/ (is_miss d e = true
           /\ exists e' ai_data, events' !! i = Some e' /\ merged ai_data e e').
Proof.
  intros Run. destruct (run_returns _ _ _ _ _ _ Run) as (evs & P & Cases).
  destruct (partition_spec _ _ _ _ _ _ _ P) as (_ & _ & L & Miss).
  pose proof (partition_hits _ _ _ _ _ _ _ P) as Hit.
  destruct Cases as [(M & -> & _ & _) | (results & _ & Mg)].
  - split; [exact L|]. intros i e E. left.
    destruct (is_miss d e) eqn:Me.
    + pose proof (miss_positions_elem d events 0 i e E Me) as In.
      rewrite M in In. inversion In.
    + split; [reflexivity | now apply Hit].
  - destruct (merge_spec _ _ _ _ _ _ _ (miss_positions_NoDup d events 0) Mg)
      as (L' & Out & In & _).
    split; [congruence|]. intros i e E. destruct (is_miss d e) eqn:Me.
    + right. split; [reflexivity|].
      pose proof (miss_positions_elem d events 0 i e E Me) as Pos. simpl in Pos.
      destruct (In i e Pos (Miss i e E Me)) as (e' & E' & Mr). eauto.
    + left. split; [reflexivity|]. rewrite Out; [now apply Hit|].
      intros Pos. pose proof (miss_positions_miss d events 0 i e Pos) as Q.
      rewrite Nat.sub_0_r in Q. specialize (Q E). congruence.
Qed.

(** What the first loop or the merge leaves of an event. *)
Lemma outcome_keeps_record (e e' : gmap string json) :
  (exists kvs, e' = with_summary e kvs) \/ e' = apply_placeholder e ->
  (forall k, k ∉ summary_keys -> e' !! k = e !! k)
  /\ (forall k, k ∈ summary_keys -> is_Some (e' !! k)).
Proof.
  intros [[kvs ->] | ->]; split; intros k K.
  - now apply summary_other_keys.
  - now apply summary_keys_set.
  - now apply placeholder_other.
  - now apply placeholder_keys_set.
Qed.

Lemma position_outcome (backend : nat -> nat -> reply llm_response) (d : disk)
    (events events' : list (gmap string json)) (d' : disk) (log : list io)
    (i : nat) (e : gmap string json) :
  summarize_events backend d events = (Ok events', d', log) ->
  events !! i = Some e ->
  exists e', events' !! i = Some e'
             /\ ((exists kvs, e' = with_summary e kvs) \/ e' = apply_placeholder e).
Proof.
  intros Run E. destruct (run_positions _ _ _ _ _ _ Run) as [_ Pos].
  destruct (Pos i e E) as [[_ E'] | [_ (e' & ai & E' & Mr)]].
  - eexists. split; [exact E' | left; eauto].
  - exists e'. split; [exact E'|].
    destruct Mr as [(_ & kvs & _ & ->) | (_ & ->)]; [left; eauto | now right].
Qed.

(** X17. A run that returns gives back as many events as it got, in the
    same order; each has the three fields [ai_summary], [top_reasons] and
    [tags], and every other field of it, [id] and [description] included, is
    as it was. *)
Theorem enrichment_keeps_records (backend : nat -> nat -> reply llm_response)
    (d : disk) (events events' : list (gmap string json)) (d' : disk) (log : list io) :
  summarize_events backend d events = (Ok events', d', log) ->
  length events' = length events
  /\ forall i e, events !! i = Some e ->
       exists e', events' !! i = Some e'
         /\ (forall k, k ∉ summary_keys -> e' !! k = e !! k)
         /\ (forall k, k ∈ summary_keys -> is_Some (e' !! k)).
Proof.
  intros Run. split; [exact (proj1 (run_positions _ _ _ _ _ _ Run))|].
  intros i e E. destruct (position_outcome _ _ _ _ _ _ _ _ Run E) as (e' & E' & Shape).
  exists e'. split; [exact E' | now apply outcome_keeps_record].
Qed.

(** X18. In every run that returns, also one that dispatches other events,
    an event whose content hash has a cache entry gets the [s], [r] and [t]
    of that entry and is not changed by the merge. *)
Theorem hits_are_served_from_cache (backend : nat -> nat -> reply llm_response)
    (d : disk) (events events' : list (gmap string json)) (d' : disk) (log : list io)
    (i : nat) (e : gmap string json) :
  summarize_events backend d events = (Ok events', d', log) ->
  events !! i = Some e ->
  is_miss d e = false ->
  events' !! i = Some (with_summary e (cached_fields d e)).
Proof.
  intros Run E Hit. destruct (run_positions _ _ _ _ _ _ Run) as [_ Pos].
  destruct (Pos i e E) as [[_ E'] | [M _]]; [exact E' | congruence].
Qed.

Lemma save_summary_frame (d : disk) (ids : gmap string string) (eid : string)
    (ai_data : json) :
  writable (save_summary d ids eid ai_data) = writable d
  /\ forall url, get_cached_data (save_summary d ids eid ai_data) url
                 = get_cached_data d url.
Proof.
  unfold save_summary. destruct (ids !! eid) as [h|]; [|auto].
  destruct (truthy (JStr h)); [|auto].
  unfold set_cached_summary, get_cached_data, write_json. simpl. split.
  - now destruct (writable d (summary_path h)).
  - intros url. fold (write_json d (summary_path h) ai_data).
    apply read_other_write. intros E. now apply (CacheLaws.paths_apart url h).
Qed.

Lemma merge_frame (mm : gmap string json) (ids : gmap string string)
    (to_process : list nat) :
  forall evs d,
    writable (merge mm ids to_process evs d).2 = writable d
    /\ forall url, get_cached_data (merge mm ids to_process evs d).2 url
                   = get_cached_data d url.
Proof.
  induction to_process as [|i rest IH]; intros evs d; cbn [merge]; [auto|].
  destruct (evs !! i) as [event|]; [|apply IH].
  destruct (truthy (default JNull (mm !! event_id event))); [|apply IH].
  destruct (apply_summary event _) as [event'|]; [|auto].
  destruct (IH (<[i := event']> evs)
               (save_summary d ids (event_id event)
                  (default JNull (mm !! event_id event)))) as [W G].
  destruct (save_summary_frame d ids (event_id event)
              (default JNull (mm !! event_id event))) as [W' G'].
  split; [congruence|]. intros url. now rewrite G, G'.
Qed.

(** X19. Enrichment never touches the description cache: after a run,
    however it ends, every URL reads as before, and what can be written is
    the same. *)
Theorem enrichment_leaves_descriptions (backend : nat -> nat -> reply llm_response)
    (d : disk) (events : list (gmap string json)) (url : string) :
  get_cached_data (summarize_events backend d events).1.2 url = get_cached_data d url
  /\ writable (summarize_events backend d events).1.2 = writable d.
Proof.
  unfold summarize_events. destruct events as [|e0 rest]; [auto|].
  destruct (partition d (e0 :: rest) 0 ∅) as [[[evs to_process] ids]|]; [|auto].
  destruct to_process as [|i0 todo]; [auto|].
  destruct (gather_batches backend 0 (batches (i0 :: todo))) as [[results|e] log];
    [|auto].
  destruct (merge_frame (master_map_of results) ids (i0 :: todo) evs d) as [W G].
  destruct (merge _ _ _ _ _) as [r d']. cbn [fst snd] in *. auto.
Qed.

Lemma gather_raises (backend : nat -> nat -> reply llm_response)
    (todo : list (list nat)) :
  forall j i e,
    (i < length todo)%nat ->
    (process_batch_async (backend (j + i)%nat)).1 = Raise e ->
    exists e', (gather_batches backend j todo).1 = Raise e'.
Proof.
  induction todo as [|b rest IH]; intros j i e L R; cbn [length] in L; [lia|].
  cbn [gather_batches].
  destruct (process_batch_async (backend j)) as [r log] eqn:B.
  destruct (gather_batches backend (S j) rest) as [rs logs] eqn:G.
  cbn [fst]. destruct i as [|i].
  - rewrite Nat.add_0_r, B in R. cbn [fst] in R. subst r. eauto.
  - destruct (IH (S j) i e) as [e' E']; [lia | |].
    { now replace (S j + i)%nat with (j + S i)%nat by lia. }
    rewrite G in E'. cbn [fst] in E'. subst rs.
    destruct r; simpl; eauto.
Qed.

(** X20. One failing batch fails the whole enrichment: when the task of
    some batch raises (its fifth attempt fails, or the body of its answer
    cannot be read), [summarize_events] raises, and no summary is written,
    not even those that the other batches returned. *)
Theorem failing_batch_fails_the_run (backend : nat -> nat -> reply llm_response)
    (d : disk) (events : list (gmap string json)) (i : nat) (e : exn) :
  (i < length (batches (miss_positions d events 0)))%nat ->
  (process_batch_async (backend i)).1 = Raise e ->
  exists e' log, summarize_events backend d events = (Raise e', d, log).
Proof.
  intros L R. unfold summarize_events.
  destruct events as [|e0 rest]; [cbn in L; lia|].
  destruct (partition d (e0 :: rest) 0 ∅) as [[[evs to_process] ids]|] eqn:P;
    [|eauto].
  destruct (partition_spec _ _ _ _ _ _ _ P) as (-> & _).
  destruct (miss_positions d (e0 :: rest) 0) as [|i0 todo] eqn:M; [cbn in L; lia|].
  destruct (gather_raises backend (batches (i0 :: todo)) 0 i e L R) as [e' G].
  destruct (gather_batches backend 0 (batches (i0 :: todo))) as [r log].
  cbn [fst] in G. subst r. eauto.
Qed.

End Facts.
End RunFacts.

(** ** EnrichmentEngine: what [extract_json] keeps of a reply *)

Module ExtractFacts.
Import Cleaner Enrich Shapes Outcomes.
Section Facts.
Context `{Host}.

Lemma append_cons (x : ascii) (a b : string) :
  String x a +:+ b = String x (a +:+ b).
Proof. reflexivity. Qed.

Lemma app_assoc_str (a b c : string) : (a +:+ b) +:+ c = a +:+ (b +:+ c).
Proof.
  induction a as [|x a IH]; [reflexivity|]. rewrite !append_cons. now rewrite IH.
Qed.

Lemma length_app_str (a b : string) :
  String.length (a +:+ b) = (String.length a + String.length b)%nat.
Proof. induction a as [|x a IH]; simpl; [reflexivity | now rewrite IH]. Qed.

Lemma other_than_neq (c x : ascii) : other_than c x = true -> x <> c.
Proof.
  unfold other_than. intros E ->. rewrite Ascii.eqb_refl in E. discriminate.
Qed.

Lemma index_char_here (c : ascii) (r : string) :
  String.index 0 (String c EmptyString) (String c r) = Some 0%nat.
Proof.
  simpl. destruct (ascii_dec c c); [|contradiction]. now destruct r.
Qed.

Lemma index_char_skip (c x : ascii) (r : string) :
  x <> c ->
  String.index 0 (String c EmptyString) (String x r)
  = S <$> String.index 0 (String c EmptyString) r.
Proof.
  intros Ne. simpl. destruct (ascii_dec c x) as [E|_]; [now subst|].
  now destruct (String.index 0 (String c EmptyString) r).
Qed.

Lemma index_first (c : ascii) (pre rest : string) :
  without c pre ->
  String.index 0 (String c EmptyString) (pre +:+ String c rest)
  = Some (String.length pre).
Proof.
  unfold without. induction pre as [|x pre IH]; intros W.
  - apply index_char_here.
  - simpl in W. apply andb_true_iff in W as [X W].
    change (String x pre +:+ String c rest) with (String x (pre +:+ String c rest)).
    rewrite (index_char_skip c x _ (other_than_neq _ _ X)), (IH W). reflexivity.
Qed.

Lemma rfind_none (c : ascii) (s : string) : without c s -> rfind c s = None.
Proof.
  unfold without. induction s as [|x s IH]; intros W; [reflexivity|].
  simpl in W. apply andb_true_iff in W as [X W]. cbn [rfind]. rewrite (IH W).
  unfold other_than in X. now destruct (Ascii.eqb x c).
Qed.

Lemma rfind_last (c : ascii) (pre post : string) :
  without c post -> rfind c (pre +:+ String c post) = Some (String.length pre).
Proof.
  intros W. induction pre as [|x pre IH].
  - simpl. now rewrite (rfind_none c post W), Ascii.eqb_refl.
  - change (String x pre +:+ String c post) with (String x (pre +:+ String c post)).
    cbn [rfind]. now rewrite IH.
Qed.

Lemma substring_here (body post : string) :
  String.substring 0 (String.length body) (body +:+ post) = body.
Proof.
  induction body as [|x body IH]; simpl; [now destruct post | now rewrite IH].
Qed.

Lemma substring_skip (pre : string) (m : nat) (s : string) :
  String.substring (String.length pre) m (pre +:+ s) = String.substring 0 m s.
Proof. induction pre as [|x pre IH]; simpl; [reflexivity | exact IH]. Qed.

(** The last step of [extract_json]: from the first [{] to the last [}]. *)
Lemma braces_cut (pre mid post : string) :
  without "{" pre -> without "}" post ->
  match String.index 0 "{" (pre +:+ "{" +:+ mid +:+ "}" +:+ post),
        rfind "}" (pre +:+ "{" +:+ mid +:+ "}" +:+ post) with
  | Some start, Some stop =>
      String.substring start (S stop - start) (pre +:+ "{" +:+ mid +:+ "}" +:+ post)
  | _, _ => pre +:+ "{" +:+ mid +:+ "}" +:+ post
  end = "{" +:+ mid +:+ "}".
Proof.
  intros Wpre Wpost.
  change ("{" +:+ mid +:+ "}" +:+ post) with (String "{" (mid +:+ "}" +:+ post)).
  rewrite (index_first "{" pre _ Wpre).
  assert (Shape : pre +:+ String "{" (mid +:+ "}" +:+ post)
                  = (pre +:+ String "{" mid) +:+ String "}" post).
  { rewrite app_assoc_str. reflexivity. }
  rewrite Shape at 1. rewrite (rfind_last "}" _ post Wpost).
  rewrite length_app_str. cbn [String.length].
  replace (S (String.length pre + S (String.length mid)) - String.length pre)%nat
    with (String.length ("{" +:+ mid +:+ "}")).
  - change (pre +:+ String "{" (mid +:+ "}" +:+ post))
      with (pre +:+ ("{" +:+ (mid +:+ "}" +:+ post))).
    rewrite substring_skip.
    replace ("{" +:+ (mid +:+ "}" +:+ post)) with (("{" +:+ mid +:+ "}") +:+ post).
    + apply substring_here.
    + rewrite !app_assoc_str. reflexivity.
  - rewrite !length_app_str. cbn [String.length]. lia.
Qed.

Lemma lstrip_app (pre : string) (c : ascii) (r : string) :
  is_strip c = false -> lstrip (pre +:+ String c r) = lstrip pre +:+ String c r.
Proof.
  intros Nc. induction pre as [|x pre IH]; simpl.
  - now rewrite Nc.
  - destruct (is_strip x); [exact IH | reflexivity].
Qed.

Lemma rstrip_app (s : string) (c : ascii) (post : string) :
  is_strip c = false -> rstrip (s +:+ String c post) = s +:+ String c (rstrip post).
Proof.
  intros Nc. induction s as [|x s IH].
  - simpl. destruct (rstrip post); [now rewrite Nc | reflexivity].
  - change (String x s +:+ String c post) with (String x (s +:+ String c post)).
    rewrite CleanShape.rstrip_cons, IH. now destruct s.
Qed.

(** Stripping a text around a [{...}] strips what is around it. *)
Lemma strip_around (pre mid post : string) :
  is_strip "{" = false -> is_strip "}" = false ->
  strip (pre +:+ "{" +:+ mid +:+ "}" +:+ post)
  = lstrip pre +:+ "{" +:+ mid +:+ "}" +:+ rstrip post.
Proof.
  intros No Nc. unfold strip.
  change ("{" +:+ mid +:+ "}" +:+ post) with (String "{" (mid +:+ "}" +:+ post)).
  rewrite (lstrip_app pre "{" _ No).
  replace (lstrip pre +:+ String "{" (mid +:+ "}" +:+ post))
    with ((lstrip pre +:+ String "{" mid) +:+ String "}" post).
  - rewrite (rstrip_app _ "}" post Nc). rewrite app_assoc_str. reflexivity.
  - rewrite app_assoc_str. reflexivity.
Qed.

(** X21. A reply without code fence that wraps one JSON object in prose:
    whatever stands before the first [{] and after the last [}] is dropped,
    and the object is returned as it is. *)
Theorem extract_json_drops_the_prose (pre mid post : string) :
  is_strip "{" = false -> is_strip "}" = false ->
  without "{" pre -> without "}" post ->
  contains (strip (pre +:+ "{" +:+ mid +:+ "}" +:+ post)) fence = false ->
  extract_json (pre +:+ "{" +:+ mid +:+ "}" +:+ post) = "{" +:+ mid +:+ "}".
Proof.
  intros No Nc Wpre Wpost Plain. unfold extract_json. rewrite Plain.
  rewrite (strip_around pre mid post No Nc).
  apply braces_cut.
  - now apply CleanShape.lstrip_chars.
  - now apply CleanShape.rstrip_chars.
Qed.

Lemma contains_app (pre s needle : string) :
  String.prefix needle s = true -> contains (pre +:+ s) needle = true.
Proof.
  intros P. unfold contains.
  assert (I : exists n, String.index 0 needle (pre +:+ s) = Some n).
  { induction pre as [|x pre [n IH]].
    - destruct s as [|y s].
      + destruct needle; [now exists 0%nat | discriminate].
      + exists 0%nat. change (EmptyString +:+ String y s) with (String y s).
        cbn [String.index]. now rewrite P.
    - change (String x pre +:+ s) with (String x (pre +:+ s)).
      cbn [String.index]. destruct (String.prefix needle (String x (pre +:+ s)));
        [now exists 0%nat|]. rewrite IH. eauto. }
  destruct I as [n ->]. reflexivity.
Qed.

Lemma prefix_fence (r : string) : String.prefix fence (fence +:+ r) = true.
Proof. destruct r; reflexivity. Qed.

Lemma drop_fence_other (x : ascii) (r : string) :
  other_than "`" x = true -> drop_prefix fence (String x r) = None.
Proof.
  intros X. apply other_than_neq in X. unfold fence. cbn [drop_prefix].
  destruct (Ascii.eqb_spec "`" x) as [E|_]; [now subst | reflexivity].
Qed.

Lemma after_fence_eq (s : string) :
  after_fence s
  = match drop_prefix fence s with
    | Some rest => Some rest
    | None => match s with
              | EmptyString => None
              | String _ r => after_fence r
              end
    end.
Proof. destruct s; reflexivity. Qed.

Lemma after_first_fence (pre rest : string) :
  without "`" pre -> after_fence (pre +:+ fence +:+ rest) = Some rest.
Proof.
  unfold without. induction pre as [|x pre IH]; intros W.
  - reflexivity.
  - simpl in W. apply andb_true_iff in W as [X W].
    change (String x pre +:+ fence +:+ rest) with (String x (pre +:+ fence +:+ rest)).
    rewrite after_fence_eq, (drop_fence_other x _ X). exact (IH W).
Qed.

Lemma until_fence_eq (s : string) :
  until_fence s
  = match drop_prefix fence (skip (String newline EmptyString) s) with
    | Some _ => Some EmptyString
    | None => match s with
              | EmptyString => None
              | String c r => String c <$> until_fence r
              end
    end.
Proof. destruct s; reflexivity. Qed.

(** The lazy group of the pattern stops at the closing fence when the
    block has no backquote and ends in [}]. *)
Lemma until_closing_fence (s tail : string) :
  without "`" s ->
  (exists rest, drop_prefix fence (skip (String newline EmptyString) tail) = Some rest) ->
  until_fence (s +:+ "}" +:+ tail) = Some (s +:+ "}").
Proof.
  unfold without. intros W [rest T].
  assert (Last : until_fence ("}" +:+ tail) = Some "}").
  { rewrite until_fence_eq. change ("}" +:+ tail) with (String "}" tail).
    unfold skip at 1. cbn [drop_prefix]. cbn [Ascii.eqb Bool.eqb default].
    unfold fence at 1. cbn [drop_prefix Ascii.eqb Bool.eqb].
    rewrite until_fence_eq, T. reflexivity. }
  induction s as [|x s IH]; [exact Last|].
  simpl in W. apply andb_true_iff in W as [X W]. specialize (IH W).
  change (String x s +:+ "}" +:+ tail) with (String x (s +:+ "}" +:+ tail)).
  rewrite until_fence_eq.
  assert (Next : exists y r, s +:+ "}" +:+ tail = String y r /\ other_than "`" y = true).
  { destruct s as [|y s]; [now exists "}"%char, tail|].
    simpl in W. apply andb_true_iff in W as [Y _]. now exists y, (s +:+ "}" +:+ tail). }
  destruct Next as (y & r & E & Y).
  assert (No : drop_prefix fence
                 (skip (String newline EmptyString) (String x (s +:+ "}" +:+ tail)))
               = None).
  { unfold skip. cbn [drop_prefix]. destruct (Ascii.eqb newline x); cbn [default].
    - rewrite E. now apply drop_fence_other.
    - now apply drop_fence_other. }
  rewrite No, IH. reflexivity.
Qed.

Lemma strip_block (mid : string) :
  is_strip "{" = false -> is_strip "}" = false ->
  strip ("{" +:+ mid +:+ "}") = "{" +:+ mid +:+ "}".
Proof.
  intros No Nc.
  pose proof (strip_around EmptyString mid EmptyString No Nc) as S.
  simpl in S. simpl.
  replace (mid +:+ "}") with (mid +:+ String "}" EmptyString) by reflexivity.
  exact S.
Qed.

Lemma rstrip_before_fence (s post : string) :
  is_strip "`" = false -> rstrip (s +:+ fence +:+ post) = s +:+ fence +:+ rstrip post.
Proof.
  intros Nq. unfold fence.
  replace (s +:+ "```" +:+ post) with ((s +:+ "``") +:+ String "`" post)
    by (now rewrite app_assoc_str).
  rewrite (rstrip_app _ "`" post Nq). now rewrite app_assoc_str.
Qed.

Lemma lstrip_before_fence (pre rest : string) :
  is_strip "`" = false -> lstrip (pre +:+ fence +:+ rest) = lstrip pre +:+ fence +:+ rest.
Proof. intros Nq. exact (lstrip_app pre "`" _ Nq). Qed.

(** X22. A reply with a fenced block: when a JSON object stands between
    the first code fence of the reply, with or without the [json] tag and the
    line breaks, and the next one, that object is returned as it is,
    whatever prose stands before the opening fence and after the closing
    one. *)
Theorem extract_json_takes_the_fenced_block
    (pre mid post : string) (tag nl1 nl2 : bool) :
  is_strip "`" = false -> is_strip "{" = false -> is_strip "}" = false ->
  without "`" pre -> without "`" mid ->
  extract_json (pre +:+ fence +:+ opt tag "json" +:+ opt nl1 (String newline "")
                +:+ "{" +:+ mid +:+ "}"
                +:+ opt nl2 (String newline "") +:+ fence +:+ post)
  = "{" +:+ mid +:+ "}".
Proof.
  intros Nq No Nc Wpre Wmid.
  assert (Stripped :
            strip (pre +:+ fence +:+ opt tag "json" +:+ opt nl1 (String newline "")
                   +:+ "{" +:+ mid +:+ "}"
                   +:+ opt nl2 (String newline "") +:+ fence +:+ post)
            = lstrip pre +:+ fence +:+ opt tag "json" +:+ opt nl1 (String newline "")
              +:+ "{" +:+ mid +:+ "}"
              +:+ opt nl2 (String newline "") +:+ fence +:+ rstrip post).
  { unfold strip. rewrite (lstrip_before_fence pre _ Nq).
    replace (lstrip pre +:+ fence +:+ opt tag "json" +:+ opt nl1 (String newline "")
             +:+ "{" +:+ mid +:+ "}"
             +:+ opt nl2 (String newline "") +:+ fence +:+ post)
      with ((lstrip pre +:+ fence +:+ opt tag "json" +:+ opt nl1 (String newline "")
             +:+ "{" +:+ mid +:+ "}" +:+ opt nl2 (String newline ""))
            +:+ fence +:+ post)
      by (now rewrite !app_assoc_str).
    rewrite (rstrip_before_fence _ post Nq). now rewrite !app_assoc_str. }
  unfold extract_json. rewrite Stripped.
  rewrite (contains_app (lstrip pre) _ fence) by apply prefix_fence.
  assert (Inner : fenced (lstrip pre +:+ fence +:+ opt tag "json"
                          +:+ opt nl1 (String newline "")
                          +:+ "{" +:+ mid +:+ "}"
                          +:+ opt nl2 (String newline "") +:+ fence +:+ rstrip post)
                  = Some ("{" +:+ mid +:+ "}")).
  { unfold fenced.
    rewrite (after_first_fence (lstrip pre) _ (CleanShape.lstrip_chars _ _ Wpre)).
    cbn [mbind option_bind].
    assert (Skipped : skip (String newline "")
                        (skip "json"
                           (opt tag "json" +:+ opt nl1 (String newline "")
                            +:+ "{" +:+ mid +:+ "}"
                            +:+ opt nl2 (String newline "") +:+ fence +:+ rstrip post))
                      = String "{" mid +:+ "}"
                        +:+ opt nl2 (String newline "") +:+ fence +:+ rstrip post)
      by (destruct tag, nl1; reflexivity).
    rewrite Skipped. apply until_closing_fence.
    - unfold without. simpl. exact Wmid.
    - exists (rstrip post). destruct nl2; reflexivity. }
  rewrite Inner, (strip_block mid No Nc).
  exact (braces_cut EmptyString mid EmptyString eq_refl eq_refl).
Qed.

End Facts.
End ExtractFacts.

(** ** Orchestrator: the answers of [handle_scrape] *)

Module MainFacts.
Import Cleaner Scraper Enrich Main Shapes Outcomes NetFacts RecordFacts RunFacts.
Section Facts.
Context `{Host}.

Lemma well_formed_has_fields (r : gmap string json) :
  well_formed_record r -> exists c, cleaned_entry r = Ok c.
Proof.
  intros (_ & [i I] & _ & _ & _ & (desc & D & _)).
  unfold cleaned_entry. rewrite I, D. eauto.
Qed.

Lemma cleaned_data_total (records : list (gmap string json)) :
  Forall well_formed_record records -> exists cs, cleaned_data records = Ok cs.
Proof.
  induction 1 as [|r rest W _ [cs IH]]; [now exists []|].
  destruct (well_formed_has_fields r W) as [c C].
  simpl. rewrite C. simpl. rewrite IH. simpl. eauto.
Qed.

(** The handler after the scrape, case by case. *)
Lemma handle_scrape_cases (url date : string)
    (landing : reply landing_page) (api : reply api_response)
    (fetched : nat -> res json) (backend : nat -> nat -> reply llm_response)
    (d : disk) :
  let scraped := get_optimized_events (strip url) (strip date) landing api fetched in
  let run := summarize_events backend d scraped in
  (scraped = []
   /\ handle_scrape url date landing api fetched backend d
      = (NoEvents ("No events found for " +:+ strip date +:+ " at "
                   +:+ strip url +:+ "."), []))
  \/ (scraped <> []
      /\ ((writable d (output_path "raw" (strip date)) = false
           /\ handle_scrape url date landing api fetched backend d
              = (ServerError (CannotOpen (output_path "raw" (strip date))), []))
          \/ (writable d (output_path "raw" (strip date)) = true
              /\ writable d (output_path "cleaned" (strip date)) = false
              /\ handle_scrape url date landing api fetched backend d
                 = (ServerError (CannotOpen (output_path "cleaned" (strip date))), []))
          \/ (writable d (output_path "raw" (strip date)) = true
              /\ writable d (output_path "cleaned" (strip date)) = true
              /\ ((exists e, run.1.1 = Raise e
                     /\ handle_scrape url date landing api fetched backend d
                        = (ServerError (Python e), run.2))
                  \/ (exists enriched, run.1.1 = Ok enriched
                        /\ writable run.1.2 (output_path "final" (strip date)) = false
                        /\ handle_scrape url date landing api fetched backend d
                           = (ServerError
                                (CannotOpen (output_path "final" (strip date))),
                              run.2))
                  \/ (exists enriched, run.1.1 = Ok enriched
                        /\ writable run.1.2 (output_path "final" (strip date)) = true
                        /\ handle_scrape url date landing api fetched backend d
                           = (Success enriched, run.2)))))).
Proof.
  intros scraped run. unfold handle_scrape. fold scraped.
  assert (W : Forall well_formed_record scraped)
    by (apply run_Forall; intros i c r; apply record_is_well_formed).
  destruct scraped as [|r0 rest] eqn:S; [now left|]. right. split; [discriminate|].
  unfold dump.
  destruct (writable d (output_path "raw" (strip date))); [|now left].
  right. destruct (cleaned_data_total _ W) as [cs ->].
  destruct (writable d (output_path "cleaned" (strip date))); [|now left].
  right. split; [reflexivity|]. split; [reflexivity|].
  fold run. destruct run as [[r d'] log]. cbn [fst snd].
  destruct r as [enriched|e]; [|left; eauto]. right.
  destruct (writable d' (output_path "final" (strip date))); [right | left]; eauto.
Qed.

(** X23. The handler answers 400 exactly when the scrape gave no record;
    the message names the stripped date and URL, and nothing is sent to the
    enrichment backend. *)
Theorem no_events_is_a_400 (url date : string)
    (landing : reply landing_page) (api : reply api_response)
    (fetched : nat -> res json) (backend : nat -> nat -> reply llm_response)
    (d : disk) :
  (get_optimized_events (strip url) (strip date) landing api fetched = []
   <-> exists message log,
         handle_scrape url date landing api fetched backend d
         = (NoEvents message, log))
  /\ (get_optimized_events (strip url) (strip date) landing api fetched = []
      <-> handle_scrape url date landing api fetched backend d
          = (NoEvents ("No events found for " +:+ strip date +:+ " at "
                       +:+ strip url +:+ "."), [])).
Proof.
  assert (Back : forall message log,
            handle_scrape url date landing api fetched backend d
            = (NoEvents message, log) ->
            get_optimized_events (strip url) (strip date) landing api fetched = []).
  { intros message log E.
    destruct (handle_scrape_cases url date landing api fetched backend d)
      as [[S _] | [_ [[_ Q] | [(_ & _ & Q) | (_ & _ & [(e & _ & Q) |
           [(en & _ & _ & Q) | (en & _ & _ & Q)]])]]]];
      [exact S | rewrite Q in E; discriminate ..]. }
  assert (Forth : get_optimized_events (strip url) (strip date) landing api fetched
                  = [] ->
                  handle_scrape url date landing api fetched backend d
                  = (NoEvents ("No events found for " +:+ strip date +:+ " at "
                               +:+ strip url +:+ "."), [])).
  { intros S. unfold handle_scrape. now rewrite S. }
  split; split.
  - intros S. eauto.
  - intros (message & log & E). exact (Back _ _ E).
  - exact Forth.
  - apply Back.
Qed.

(** X24. The handler answers 500 for two reasons only: one of its three
    output files cannot be opened for writing, or enrichment raised, in
    which case that exception is the one reported.  Reading [id] and
    [description] of a scraped record never fails. *)
Theorem server_errors_have_two_causes (url date : string)
    (landing : reply landing_page) (api : reply api_response)
    (fetched : nat -> res json) (backend : nat -> nat -> reply llm_response)
    (d : disk) (cause : failure) (log : list io) :
  handle_scrape url date landing api fetched backend d = (ServerError cause, log) ->
  (exists kind, kind ∈ ["raw"; "cleaned"; "final"]
                /\ cause = CannotOpen (output_path kind (strip date)))
  \/ (exists e,
        cause = Python e
        /\ (summarize_events backend d
              (get_optimized_events (strip url) (strip date) landing api fetched)).1.1
           = Raise e).
Proof.
  intros E.
  destruct (handle_scrape_cases url date landing api fetched backend d)
    as [[_ Q] | [_ [[_ Q] | [(_ & _ & Q) | (_ & _ & [(e & R & Q) |
         [(en & _ & _ & Q) | (en & _ & _ & Q)]])]]]];
    rewrite Q in E; try discriminate; injection E as <- <-.
  - left. exists "raw". split; [|reflexivity]. rewrite !elem_of_cons. tauto.
  - left. exists "cleaned". split; [|reflexivity]. rewrite !elem_of_cons. tauto.
  - right. eauto.
  - left. exists "final". split; [|reflexivity]. rewrite !elem_of_cons. tauto.
Qed.

Lemma enriched_key_set (e e' : gmap string json) :
  well_formed_record e ->
  (forall k, k ∉ summary_keys -> e' !! k = e !! k) ->
  (forall k, k ∈ summary_keys -> is_Some (e' !! k)) ->
  forall k, is_Some (e' !! k) <-> k ∈ enriched_keys.
Proof.
  intros (Keys & _) Other Has k. unfold enriched_keys. rewrite elem_of_app.
  destruct (decide (k ∈ summary_keys)) as [In|Out].
  - split; [now right | intros _; now apply Has].
  - rewrite (Other k Out), Keys. tauto.
Qed.

(** X25. A success answer carries one event for each scraped record, in
    the same order: the record with its eight fields unchanged and the three
    enrichment fields added, and no other key; the backend has seen at most
    five requests for each batch of 15 records. *)
Theorem success_carries_enriched_records (url date : string)
    (landing : reply landing_page) (api : reply api_response)
    (fetched : nat -> res json) (backend : nat -> nat -> reply llm_response)
    (d : disk) (data : list (gmap string json)) (log : list io) :
  handle_scrape url date landing api fetched backend d = (Success data, log) ->
  let scraped := get_optimized_events (strip url) (strip date) landing api fetched in
  scraped <> []
  /\ length data = length scraped
  /\ (forall i e, scraped !! i = Some e ->
        exists e', data !! i = Some e'
          /\ (forall k, k ∈ record_keys -> e' !! k = e !! k)
          /\ (forall k, is_Some (e' !! k) <-> k ∈ enriched_keys))
  /\ (requests log <= 5 * ((length scraped + 14) / 15))%nat.
Proof.
  intros E scraped.
  assert (W : Forall well_formed_record scraped)
    by (apply run_Forall; intros i c r; apply record_is_well_formed).
  destruct (handle_scrape_cases url date landing api fetched backend d)
    as [[_ Q] | [Ne [[_ Q] | [(_ & _ & Q) | (_ & _ & [(e & _ & Q) |
         [(en & _ & _ & Q) | (en & R & _ & Q)]])]]]];
    rewrite Q in E; try discriminate. injection E as <- <-.
  fold scraped in R, Ne |- *.
  destruct (summarize_events backend d scraped) as [[r d'] log] eqn:Run.
  cbn [fst snd] in *. subst r.
  split; [exact Ne|].
  split; [exact (proj1 (run_positions _ _ _ _ _ _ Run))|]. split.
  - intros i e Ei.
    destruct (position_outcome _ _ _ _ _ _ _ _ Run Ei) as (e' & E' & Shape).
    destruct (outcome_keeps_record e e' Shape) as [Other Has].
    exists e'. split; [exact E'|]. split.
    + intros k K. apply Other. unfold record_keys, summary_keys in *.
      rewrite !elem_of_cons, elem_of_nil in K. rewrite !not_elem_of_cons.
      repeat (destruct K as [-> | K]; [repeat split; try discriminate; apply not_elem_of_nil|]).
      contradiction.
    + apply (enriched_key_set e); [|exact Other | exact Has].
      rewrite Forall_forall in W. apply W. now apply (list_elem_of_lookup_2 _ i).
  - pose proof (run_requests backend d scraped) as B. rewrite Run in B.
    cbn [snd] in B. unfold batches in B.
    rewrite (batches_of_length _ _ (Nat.le_refl _)) in B.
    etransitivity; [exact B|].
    apply Nat.mul_le_mono_l, Nat.Div0.div_le_mono.
    assert (length (miss_positions d scraped 0) <= length scraped)%nat; [|lia].
    clear. generalize 0%nat. induction scraped as [|e rest IH]; intros i; simpl; [lia|].
    destruct (is_miss d e); simpl; specialize (IH (S i)); lia.
Qed.

(** X26. White space around the two form fields does not change the
    answer: the handler works on the stripped URL and date only. *)
Theorem form_fields_are_stripped (url date : string)
    (landing : reply landing_page) (api : reply api_response)
    (fetched : nat -> res json) (backend : nat -> nat -> reply llm_response)
    (d : disk) :
  handle_scrape (strip url) (strip date) landing api fetched backend d
  = handle_scrape url date landing api fetched backend d.
Proof. unfold handle_scrape. now rewrite !CleanShape.strip_twice. Qed.

End Facts.
End MainFacts.

(** ** EnrichmentEngine: the retry policy, round by round *)

Module RetryPolicy.
Import Enrich Traces NetFacts RetryFacts.
Section Facts.
Context `{Host}.

Lemma rounds_S (backend : nat -> reply llm_response) (a : nat) :
  rounds backend (S a)
  = rounds backend a ++ [Request; Sleep (delay_after (count_429 backend a))].
Proof.
  unfold rounds. rewrite seq_S, flat_map_app. cbn [flat_map]. now rewrite app_nil_r.
Qed.

(** The log of the loop: rounds of a request and a wait, one for each
    attempt that was answered 429 or raised, and then the request of the
    attempt that ended the loop, unless the fifth was answered 429. *)
Lemma post_loop_rounds (backend : nat -> reply llm_response) (n : nat) :
  forall a retry_delay resp log,
    (a + n = max_retries)%nat ->
    retry_delay = delay_after (count_429 backend a) ->
    log = rounds backend a ->
    (forall i, (i < a)%nat -> accepted (backend i) = false) ->
    (a = 5%nat -> rate_limited (backend 4%nat) = true) ->
    exists m,
      (a <= m <= 5)%nat
      /\ (post_loop backend (seq a n) retry_delay resp log).2
         = rounds backend m ++ (if (m =? 5)%nat then [] else [Request])
      /\ (forall i, (i < m)%nat -> accepted (backend i) = false)
      /\ ((m < 5)%nat ->
          accepted (backend m) = true
          \/ (m = 4%nat /\ exists e, attempt_end_of (backend 4%nat) = Raised e))
      /\ (m = 5%nat -> rate_limited (backend 4%nat) = true).
Proof.
  induction n as [|n IH]; intros a retry_delay resp log An Dl Lg Bad Last;
    cbn [seq post_loop].
  - unfold max_retries in An. assert (a = 5%nat) as -> by lia.
    exists 5%nat. cbn [snd Nat.eqb]. rewrite app_nil_r.
    repeat split; auto; lia.
  - unfold max_retries in An.
    assert (Stop : forall r : res llm_response,
              (accepted (backend a) = true
               \/ (a = 4%nat /\ exists e, attempt_end_of (backend 4%nat) = Raised e)) ->
              exists m,
                (a <= m <= 5)%nat
                /\ (r, log ++ [Request]).2
                   = rounds backend m ++ (if (m =? 5)%nat then [] else [Request])
                /\ (forall i, (i < m)%nat -> accepted (backend i) = false)
                /\ ((m < 5)%nat ->
                    accepted (backend m) = true
                    \/ (m = 4%nat /\ exists e, attempt_end_of (backend 4%nat) = Raised e))
                /\ (m = 5%nat -> rate_limited (backend 4%nat) = true)).
    { intros r End. exists a. cbn [snd].
      destruct (Nat.eqb_spec a 5) as [E|_]; [lia|].
      rewrite Lg. repeat split; auto; lia. }
    assert (Go : forall delay r,
              accepted (backend a) = false ->
              delay = delay_after (count_429 backend (S a)) ->
              (a = 4%nat -> rate_limited (backend 4%nat) = true) ->
              exists m,
                (a <= m <= 5)%nat
                /\ (post_loop backend (seq (S a) n) delay r
                      ((log ++ [Request]) ++ [Sleep retry_delay])).2
                   = rounds backend m ++ (if (m =? 5)%nat then [] else [Request])
                /\ (forall i, (i < m)%nat -> accepted (backend i) = false)
                /\ ((m < 5)%nat ->
                    accepted (backend m) = true
                    \/ (m = 4%nat /\ exists e, attempt_end_of (backend 4%nat) = Raised e))
                /\ (m = 5%nat -> rate_limited (backend 4%nat) = true)).
    { intros delay r Ba Dl' La.
      destruct (IH (S a) delay r ((log ++ [Request]) ++ [Sleep retry_delay]))
        as (m & Rg & E & B & C & D).
      - unfold max_retries. lia.
      - exact Dl'.
      - rewrite rounds_S, Lg, Dl, <- app_assoc. reflexivity.
      - intros i Hi. destruct (Nat.eq_dec i a) as [->|Ne]; [exact Ba | apply Bad; lia].
      - intros E. apply La. lia.
      - exists m. repeat split; auto; lia. }
    assert (Same : rate_limited (backend a) = false ->
                   retry_delay = delay_after (count_429 backend (S a))).
    { intros R. rewrite Dl. cbn [count_429]. now rewrite R. }
    destruct (backend a) as [r|e] eqn:B.
    + destruct (llm_status r =? 429) eqn:L.
      * apply Go.
        -- unfold accepted, attempt_end_of. now rewrite ?B, L.
        -- rewrite Dl. cbn [count_429]. unfold rate_limited, attempt_end_of.
           rewrite ?B, L. reflexivity.
        -- intros ->. unfold rate_limited, attempt_end_of. now rewrite ?B, L.
      * destruct (raise_for_status r) as [u|e] eqn:Rs.
        -- apply Stop. left. unfold accepted, attempt_end_of. now rewrite ?B, L, Rs.
        -- unfold on_exception. destruct (Nat.eqb_spec a (max_retries - 1)) as [E|Ne].
           ++ apply Stop. right. unfold max_retries in E. simpl in E. subst a.
              split; [reflexivity|]. exists e. unfold attempt_end_of.
              now rewrite ?B, L, Rs.
           ++ apply Go.
              ** unfold accepted, attempt_end_of. now rewrite ?B, L, Rs.
              ** apply Same. unfold rate_limited, attempt_end_of. now rewrite ?B, L, Rs.
              ** intros ->. now contradict Ne.
    + unfold on_exception. destruct (Nat.eqb_spec a (max_retries - 1)) as [E|Ne].
      * apply Stop. right. unfold max_retries in E. simpl in E. subst a.
        split; [reflexivity|]. exists e. unfold attempt_end_of. now rewrite ?B.
      * apply Go.
        -- unfold accepted, attempt_end_of. now rewrite ?B.
        -- apply Same. unfold rate_limited, attempt_end_of. now rewrite ?B.
        -- intros ->. now contradict Ne.
Qed.

Lemma no_429_no_growth (backend : nat -> reply llm_response) (j : nat) :
  (forall i, (i < j)%nat -> rate_limited (backend i) = false) ->
  count_429 backend j = 0%nat.
Proof.
  induction j as [|j IH]; intros None; [reflexivity|]. cbn [count_429].
  rewrite None, IH by (try intros i Hi; try apply None; lia). reflexivity.
Qed.

(** C1, as amended. A batch sends at most 5 requests, and its log is made
    of rounds: each attempt that is answered 429, and each attempt before
    the fifth that raises, is followed by a wait and by the next attempt.
    The wait lasts the current delay, which is 10 seconds times 1.5 for each
    429 answer before it and is changed by nothing else, so that a batch whose
    attempts all raise waits 10, 10, 10 and 10 seconds.  The loop ends with
    the first accepted answer, or with the fifth attempt: when that one
    raises, no wait follows and the exception leaves the batch's task; when
    it is answered 429, a fifth wait follows and no further request. *)
Theorem retry_policy (backend : nat -> reply llm_response) :
  (requests (process_batch_async backend).2 <= 5)%nat
  /\ sleeps (process_batch_async backend).2
     = map (fun j => delay_after (count_429 backend j))
           (seq 0 (length (sleeps (process_batch_async backend).2)))
  /\ (exists m,
        (m <= 5)%nat
        /\ (process_batch_async backend).2
           = rounds backend m ++ (if (m =? 5)%nat then [] else [Request])
        /\ (forall i, (i < m)%nat -> accepted (backend i) = false)
        /\ ((m < 5)%nat ->
            accepted (backend m) = true
            \/ (m = 4%nat /\ exists e, attempt_end_of (backend 4%nat) = Raised e))
        /\ (m = 5%nat -> rate_limited (backend 4%nat) = true))
  /\ ((forall i, (i < 5)%nat -> exists e, attempt_end_of (backend i) = Raised e) ->
      (process_batch_async backend).2
      = [Request; Sleep 10; Request; Sleep 10; Request; Sleep 10; Request; Sleep 10;
         Request])
  /\ (forall e,
        (forall i, (i < 4)%nat -> accepted (backend i) = false) ->
        attempt_end_of (backend 4%nat) = Raised e ->
        (process_batch_async backend).1 = Raise e).
Proof.
  pose proof (post_loop_log backend max_retries 0 10%Q None [] eq_refl eq_refl eq_refl eq_refl)
    as [Rq Sl].
  destruct (post_loop_rounds backend max_retries 0 10%Q None [] eq_refl eq_refl eq_refl)
    as (m & Rg & Lg & Bad & End & Lim); [intros i Hi; lia | discriminate|].
  pose proof (post_loop_last_raises backend) as Raises.
  unfold process_batch_async.
  destruct (post_loop backend (seq 0 max_retries) 10%Q None []) as [r log] eqn:E.
  cbn [fst snd] in *. split; [exact Rq|]. split; [exact Sl|]. split; [|split].
  - exists m. repeat split; auto; lia.
  - intros All.
    assert (NoAcc : forall i, (i < 5)%nat -> accepted (backend i) = false).
    { intros i Hi. destruct (All i Hi) as [e A]. unfold accepted. now rewrite A. }
    assert (NoLim : forall i, (i < 5)%nat -> rate_limited (backend i) = false).
    { intros i Hi. destruct (All i Hi) as [e A]. unfold rate_limited. now rewrite A. }
    assert (m = 4%nat) as ->.
    { destruct (Nat.eq_dec m 5%nat) as [M|M].
      - specialize (Lim M). rewrite NoLim in Lim by lia. discriminate.
      - destruct (End ltac:(lia)) as [A | [M4 _]]; [|exact M4].
        rewrite NoAcc in A by lia. discriminate. }
    rewrite Lg. unfold rounds. cbn [seq flat_map Nat.eqb app].
    rewrite !(no_429_no_growth backend) by (intros i Hi; apply NoLim; lia).
    reflexivity.
  - intros e Bad4 Last4.
    specialize (Raises e max_retries 0%nat 10%Q None [] eq_refl).
    rewrite E in Raises. cbn [fst] in Raises.
    rewrite Raises; [reflexivity | unfold max_retries; lia | | exact Last4].
    intros i Hi. apply Bad4. unfold max_retries in Hi. lia.
Qed.

End Facts.
End RetryPolicy.

(** ** Resolver: the ids of the records *)

Module IdFacts.
Import Cleaner Scraper ResolverFacts.
Section Facts.
Context `{Host}.

Lemma gather_results_all (fetched : nat -> res json) (prepped : list candidate) :
  forall j,
    (forall i c, prepped !! i = Some c ->
                 exists r, fetch_with_results (fetched (j + i)%nat) c = Ok r) ->
    exists rs, gather_results fetched j prepped = Ok rs.
Proof.
  induction prepped as [|c rest IH]; intros j All; cbn [gather_results]; [eauto|].
  destruct (All 0%nat c eq_refl) as [r R]. rewrite Nat.add_0_r in R. rewrite R.
  destruct (IH (S j)) as [rs G].
  { intros i c' L. replace (S j + i)%nat with (j + S i)%nat by lia. now apply All. }
  rewrite G. simpl. eauto.
Qed.

Lemma gather_results_raise (fetched : nat -> res json) (prepped : list candidate) :
  forall j i c e,
    prepped !! i = Some c ->
    fetch_with_results (fetched (j + i)%nat) c = Raise e ->
    exists e', gather_results fetched j prepped = Raise e'.
Proof.
  induction prepped as [|c0 rest IH]; intros j i c e L R; [discriminate|].
  cbn [gather_results]. destruct i as [|i].
  - injection L as ->. rewrite Nat.add_0_r in R. rewrite R. simpl. eauto.
  - destruct (fetch_with_results (fetched j) c0) as [r0|e0]; simpl; [|eauto].
    destruct (IH (S j) i c e L) as [e' G].
    { now replace (S j + i)%nat with (j + S i)%nat by lia. }
    rewrite G. simpl. eauto.
Qed.

Lemma fallback_id (cal : option string) (target_date url : string) (it : json)
    (c : candidate) (start : string) :
  prepare_event cal target_date url it = Ok (Some c) ->
  first_of (ev c) "api_id" "id" (Ok JNull) = Ok JNull ->
  first_of (ev c) "start_at" "start_date" (Ok (JStr "")) = Ok (JStr start) ->
  candidate_id c = "evt-" +:+ py_str (JNum (str_hash start)).
Proof.
  intros Q I S.
  destruct (prepare_event_inv _ _ _ _ _ Q) as (start' & _ & _ & De & S' & _ & _ & I').
  rewrite S in S'. injection S' as <-.
  destruct (ev c) as [| | | | |ekvs]; try discriminate.
  unfold candidate_id. unfold first_of, or_else in I, I'. simpl in I, I'.
  destruct (truthy (default JNull (assoc "api_id" ekvs))) eqn:T1.
  { injection I as I. rewrite I in T1. discriminate. }
  destruct (truthy (default JNull (assoc "id" ekvs))) eqn:T2.
  { injection I as I. rewrite I in T2. discriminate. }
  injection I' as I'. rewrite <- I'. reflexivity.
Qed.

(** C3, as amended. On a landing page that answers 200 and gives a list
    of candidates: when every record can be built, the run returns one record
    for each candidate, and their ids are, in order, the identifiers of the
    candidates ([str] of [api_id], else of [id], else of the fallback), so the
    ids are pairwise distinct exactly when those identifiers are, and the code
    removes no duplicate; when building one record raises, the run returns
    nothing.  It returns nothing as well when the landing page cannot be
    fetched or does not answer 200, and when finding the candidates raises.
    A candidate without [api_id] and [id] gets an id made from the hash of its
    start-date value only, so that two such candidates with the same
    start-date string share one id. *)
Theorem record_ids_follow_candidates (url target_date : string) (page : landing_page)
    (api : reply api_response) (fetched : nat -> res json) :
  (forall prepped,
     landing_status page = 200 ->
     candidates url target_date page api = Ok prepped ->
     ((forall i c, prepped !! i = Some c ->
                   exists r, fetch_with_results (fetched i) c = Ok r) ->
      length (get_optimized_events url target_date (Responds page) api fetched)
      = length prepped
      /\ record_ids (get_optimized_events url target_date (Responds page) api fetched)
         = map (fun c => JStr (candidate_id c)) prepped
      /\ (NoDup (record_ids
                   (get_optimized_events url target_date (Responds page) api fetched))
          <-> NoDup (map candidate_id prepped)))
     /\ ((exists i c e, prepped !! i = Some c
                        /\ fetch_with_results (fetched i) c = Raise e) ->
         get_optimized_events url target_date (Responds page) api fetched = []))
  /\ (landing_status page <> 200 ->
      get_optimized_events url target_date (Responds page) api fetched = [])
  /\ ((exists e, candidates url target_date page api = Raise e) ->
      get_optimized_events url target_date (Responds page) api fetched = [])
  /\ (forall e, get_optimized_events url target_date (Fails e) api fetched = [])
  /\ (forall cal it c start,
        prepare_event cal target_date url it = Ok (Some c) ->
        first_of (ev c) "api_id" "id" (Ok JNull) = Ok JNull ->
        first_of (ev c) "start_at" "start_date" (Ok (JStr "")) = Ok (JStr start) ->
        candidate_id c = "evt-" +:+ py_str (JNum (str_hash start)))
  /\ (forall cal it1 it2 c1 c2 start,
        prepare_event cal target_date url it1 = Ok (Some c1) ->
        prepare_event cal target_date url it2 = Ok (Some c2) ->
        first_of (ev c1) "api_id" "id" (Ok JNull) = Ok JNull ->
        first_of (ev c2) "api_id" "id" (Ok JNull) = Ok JNull ->
        first_of (ev c1) "start_at" "start_date" (Ok (JStr "")) = Ok (JStr start) ->
        first_of (ev c2) "start_at" "start_date" (Ok (JStr "")) = Ok (JStr start) ->
        candidate_id c1 = candidate_id c2).
Proof.
  split; [|split; [|split; [|split; [|split]]]].
  - intros prepped St C.
    assert (Run : get_optimized_events url target_date (Responds page) api fetched
                  = match gather_results fetched 0 prepped with
                    | Ok results => results
                    | Raise _ => []
                    end).
    { unfold get_optimized_events. rewrite St, C. reflexivity. }
    split.
    + intros All. destruct (gather_results_all fetched prepped 0 All) as [rs G].
      rewrite Run, G.
      pose proof (gather_results_ids _ _ _ _ G) as Ids.
      split; [|split; [exact Ids|]].
      * apply (f_equal (@length json)) in Ids. unfold record_ids in Ids.
        now rewrite !length_map in Ids.
      * rewrite Ids, <- (map_map candidate_id JStr).
        assert (Inj eq eq JStr) by (intros x y Q; now injection Q).
        split; [apply (NoDup_fmap_1 JStr) | apply (NoDup_fmap_2 JStr)].
    + intros (i & c & e & L & R).
      destruct (gather_results_raise fetched prepped 0 i c e L R) as [e' G].
      now rewrite Run, G.
  - intros St. unfold get_optimized_events.
    destruct (Z.eqb_spec (landing_status page) 200) as [Q|_]; [contradiction|].
    reflexivity.
  - intros [e C]. unfold get_optimized_events. rewrite C.
    now destruct (negb (landing_status page =? 200)).
  - reflexivity.
  - intros cal it c start. apply fallback_id.
  - intros cal it1 it2 c1 c2 start Q1 Q2 I1 I2 S1 S2.
    now rewrite (fallback_id _ _ _ _ _ _ Q1 I1 S1), (fallback_id _ _ _ _ _ _ Q2 I2 S2).
Qed.

End Facts.
End IdFacts.

(** ** KeyedCache: what comes back from the cache *)

Module RoundTrip.
Import Serial CacheFacts.
Section Facts.
Context `{Host}.






End Facts.
End RoundTrip.

(** ** EnrichmentEngine: the cache after any run *)

Module WriteFacts.
Import Cleaner Enrich Traces SummaryFacts MergeFacts.
Section Facts.
Context `{Host}.

Lemma stale_spec (d : disk) (event : gmap string json) :
  let cached := get_cached_summary d (get_event_hash event) in
  (stale d event = true ->
   truthy cached = true /\ exists e, apply_summary event cached = Raise e)
  /\ (stale d event = false -> truthy cached = true ->
      exists kvs, cached = JObj kvs).
Proof.
  unfold stale. cbn zeta.
  destruct (get_cached_summary d (get_event_hash event)) as [| b | n | s | l | kvs];
    cbn [isinstance_dict negb]; rewrite ?andb_true_r, ?andb_false_r; split; intros B.
  all: try discriminate B.
  all: try (split; [exact B | unfold apply_summary; simpl; eauto]).
  all: try (intros T; congruence).
  intros T. now exists kvs.
Qed.

Lemma partition_returns (d : disk) (events : list (gmap string json)) :
  (forall e, e ∈ events -> stale d e = false) ->
  forall i m, exists evs,
    partition d events i m
    = Ok (evs, miss_positions d events i, hashes_by_id events m).
Proof.
  induction events as [|e rest IH]; intros Wf i m.
  - exists []. reflexivity.
  - assert (Some_result : exists r, partition d (e :: rest) i m = Ok r).
    { cbn [partition].
      destruct (IH ltac:(intros e' In; apply Wf, elem_of_cons; now right)
                  (S i) (<[event_id e := get_event_hash e]> m)) as [evs P].
      rewrite P.
      destruct (truthy (get_cached_summary d (get_event_hash e))) eqn:T; simpl;
        [|eauto].
      destruct (stale_spec d e) as [_ Dict].
      destruct (Dict (Wf e ltac:(apply elem_of_cons; now left)) T) as [kvs ->].
      rewrite apply_summary_dict. simpl. eauto. }
    destruct Some_result as [[[evs todo] m'] P].
    destruct (partition_spec _ _ _ _ _ _ _ P) as (-> & -> & _). eauto.
Qed.

Lemma partition_raises (d : disk) (events : list (gmap string json)) :
  (exists e, e ∈ events /\ stale d e = true) ->
  forall i m, exists x, partition d events i m = Raise x.
Proof.
  induction events as [|e rest IH]; intros (e0 & In & St) i m; [inversion In|].
  cbn [partition].
  destruct (stale d e) eqn:Se.
  - destruct (stale_spec d e) as [Br _]. destruct (Br Se) as [T [x A]].
    rewrite T, A. simpl. eauto.
  - apply elem_of_cons in In as [->|In]; [congruence|].
    destruct (IH ltac:(eauto) (S i) (<[event_id e := get_event_hash e]> m)) as [x P].
    rewrite P.
    destruct (truthy (get_cached_summary d (get_event_hash e))); simpl; [|eauto].
    destruct (apply_summary e (get_cached_summary d (get_event_hash e))); simpl; eauto.
Qed.

Lemma breaks_spec (mm : gmap string json) (event : gmap string json) :
  let ai_data := default JNull (mm !! event_id event) in
  (breaks mm event = true ->
   truthy ai_data = true /\ exists e, apply_summary event ai_data = Raise e)
  /\ (breaks mm event = false -> truthy ai_data = true ->
      exists kvs, ai_data = JObj kvs /\ kvs <> []).
Proof.
  unfold breaks. cbn zeta.
  destruct (default JNull (mm !! event_id event)) as [| b | n | s | l | kvs];
    cbn [isinstance_dict negb]; rewrite ?andb_true_r, ?andb_false_r; split; intros B.
  all: try discriminate B.
  all: try (split; [exact B | unfold apply_summary; simpl; eauto]).
  all: try (intros T; congruence).
  intros T. exists kvs. split; [reflexivity|]. now destruct kvs.
Qed.

(** The merge loop writes for the events it gets through, and raises at
    the first one that breaks it. *)
Lemma merge_reached (mm : gmap string json) (ids : gmap string string)
    (to_process : list nat) :
  forall evs d,
    NoDup to_process ->
    (merge mm ids to_process evs d).2
    = fold_left (saved mm ids) (reached mm (omap (fun i => evs !! i) to_process)) d
    /\ ((exists e, e ∈ omap (fun i => evs !! i) to_process /\ breaks mm e = true) ->
        exists x, (merge mm ids to_process evs d).1 = Raise x)
    /\ ((forall e, e ∈ omap (fun i => evs !! i) to_process -> breaks mm e = false) ->
        exists evs', (merge mm ids to_process evs d).1 = Ok evs').
Proof.
  induction to_process as [|i rest IH]; intros evs d ND; cbn [merge].
  - cbn. split; [reflexivity|]. split; [|eauto].
    intros (e & In & _). inversion In.
  - apply NoDup_cons in ND as [Ni ND].
    destruct (evs !! i) as [event|] eqn:L.
    + assert (Om : omap (fun j => evs !! j) (i :: rest)
                   = event :: omap (fun j => evs !! j) rest).
      { cbn. now rewrite L. }
      rewrite Om. clear Om. cbn [reached].
      destruct (breaks_spec mm event) as [Br NoBr].
      assert (Step : forall event1,
                breaks mm event = false ->
                (merge mm ids rest (<[i := event1]> evs) (saved mm ids d event)).2
                = fold_left (saved mm ids)
                    (event :: reached mm (omap (fun j => evs !! j) rest)) d
                /\ ((exists e, e ∈ event :: omap (fun j => evs !! j) rest
                               /\ breaks mm e = true) ->
                    exists x, (merge mm ids rest (<[i := event1]> evs)
                                 (saved mm ids d event)).1 = Raise x)
                /\ ((forall e, e ∈ event :: omap (fun j => evs !! j) rest ->
                               breaks mm e = false) ->
                    exists evs', (merge mm ids rest (<[i := event1]> evs)
                                    (saved mm ids d event)).1 = Ok evs')).
      { intros event1 B.
        destruct (IH (<[i := event1]> evs) (saved mm ids d event) ND) as (Dk & Rs & Oks).
        rewrite omap_insert_other in Dk, Rs, Oks by done.
        split; [exact Dk|]. split.
        - intros (e & In & Be). apply Rs. apply elem_of_cons in In as [->|In];
            [congruence | eauto].
        - intros All. apply Oks. intros e In. apply All. apply elem_of_cons. now right. }
      destruct (breaks mm event) eqn:B.
      * destruct (Br eq_refl) as [T [x A]]. rewrite T, A. cbn [fst snd fold_left].
        split; [reflexivity|]. split; [eauto|].
        intros All. specialize (All event ltac:(apply elem_of_cons; now left)).
        congruence.
      * destruct (truthy (default JNull (mm !! event_id event))) eqn:T.
        -- destruct (NoBr eq_refl eq_refl) as (kvs & A & _).
           assert (Sv : saved mm ids d event
                        = save_summary d ids (event_id event) (JObj kvs))
             by (unfold saved; now rewrite T, A).
           rewrite A, apply_summary_dict.
           specialize (Step (with_summary event kvs) eq_refl).
           rewrite Sv in Step. exact Step.
        -- assert (Sv : saved mm ids d event = d) by (unfold saved; now rewrite T).
           specialize (Step (apply_placeholder event) eq_refl).
           rewrite Sv in Step. exact Step.
    + assert (Om : omap (fun j => evs !! j) (i :: rest)
                   = omap (fun j => evs !! j) rest).
      { cbn. now rewrite L. }
      rewrite Om. now apply IH.
Qed.

Lemma reached_sub (mm : gmap string json) (l : list (gmap string json))
    (e : gmap string json) :
  e ∈ reached mm l -> e ∈ l /\ breaks mm e = false.
Proof.
  induction l as [|x l IH]; cbn [reached]; [intros In; inversion In|].
  destruct (breaks mm x) eqn:B; [intros In; inversion In|].
  rewrite !elem_of_cons. intros [->|In]; [now split; [left|]|].
  destruct (IH In). split; [now right | assumption].
Qed.

Lemma reached_all (mm : gmap string json) (l : list (gmap string json)) :
  (forall e, e ∈ l -> breaks mm e = false) -> reached mm l = l.
Proof.
  induction l as [|x l IH]; intros All; [reflexivity|]. cbn [reached].
  rewrite (All x) by (apply elem_of_cons; now left).
  rewrite IH; [reflexivity|]. intros e In. apply All. apply elem_of_cons. now right.
Qed.

Lemma summarize_events_eq (backend : nat -> nat -> reply llm_response) (d : disk)
    (events : list (gmap string json)) :
  summarize_events backend d events
  = match partition d events 0 ∅ with
    | Raise e => (Raise e, d, [])
    | Ok (evs, to_process, ids) =>
        if bool_decide (to_process = []) then (Ok evs, d, [])
        else
          let '(r, log) := gather_batches backend 0 (batches to_process) in
          match r with
          | Raise e => (Raise e, d, log)
          | Ok results =>
              let '(r, d') := merge (master_map_of results) ids to_process evs d in
              (r, d', log)
          end
    end.
Proof.
  destruct events as [|e0 rest]; [reflexivity|]. unfold summarize_events.
  destruct (partition d (e0 :: rest) 0 ∅) as [[[evs to_process] ids]|]; [|reflexivity].
  now destruct to_process.
Qed.

Lemma hashes_recorded (events : list (gmap string json)) (m : gmap string string)
    (e : gmap string json) :
  e ∈ events ->
  exists e2, e2 ∈ events /\ event_id e2 = event_id e
             /\ hashes_by_id events m !! event_id e = Some (get_event_hash e2).
Proof.
  induction events as [|x l IH] using rev_ind; intros In; [inversion In|].
  unfold hashes_by_id. rewrite fold_left_app. cbn [fold_left].
  fold (hashes_by_id l m).
  destruct (decide (event_id x = event_id e)) as [Same|Other].
  - exists x. split; [apply elem_of_app; right; apply elem_of_cons; now left|].
    split; [exact Same|]. rewrite Same. apply lookup_insert_eq.
  - apply elem_of_app in In as [In|In].
    + destruct (IH In) as (e2 & I2 & Id & L). exists e2.
      split; [apply elem_of_app; now left|]. split; [exact Id|].
      now rewrite lookup_insert_ne.
    + apply elem_of_cons in In as [->|In]; [congruence | inversion In].
Qed.

(** The run, whatever its end, when the first loop gets through. *)
Lemma run_reached (backend : nat -> nat -> reply llm_response) (d : disk)
    (events : list (gmap string json)) :
  (forall e, e ∈ events -> stale d e = false) ->
  (summarize_events backend d events).1.2
  = fold_left (saved (merged_results backend d events) (hashes_by_id events ∅))
              (reached (merged_results backend d events) (dispatched d events)) d
  /\ ((exists e, e ∈ dispatched d events
                 /\ breaks (merged_results backend d events) e = true) ->
      exists x, (summarize_events backend d events).1.1 = Raise x)
  /\ ((forall e, e ∈ dispatched d events ->
                 breaks (merged_results backend d events) e = false) ->
      (exists results,
         gather_batches backend 0 (batches (miss_positions d events 0)) = (Ok results,
           (gather_batches backend 0 (batches (miss_positions d events 0))).2)) ->
      exists events', (summarize_events backend d events).1.1 = Ok events').
Proof.
  intros Wf.
  set (mm := merged_results backend d events). set (ids := hashes_by_id events ∅).
  destruct (partition_returns d events Wf 0 ∅) as [evs P]. fold ids in P.
  destruct (partition_spec _ _ _ _ _ _ _ P) as (_ & _ & _ & Keep).
  assert (Ag : forall j, j ∈ miss_positions d events 0 -> evs !! j = events !! j).
  { intros j Ij. pose proof (miss_positions_range _ _ _ _ Ij) as [_ Lt].
    destruct (events !! j) as [e|] eqn:L.
    - apply Keep; [exact L|]. eapply miss_positions_miss; [exact Ij|].
      now rewrite Nat.sub_0_r.
    - apply lookup_ge_None in L. simpl in Lt. lia. }
  assert (Disp : omap (fun j => evs !! j) (miss_positions d events 0)
                 = dispatched d events).
  { unfold dispatched. now apply omap_lookup_agree. }
  assert (Quiet : mm = ∅ ->
            fold_left (saved mm ids) (reached mm (dispatched d events)) d = d
            /\ forall e, breaks mm e = false).
  { intros ->. split.
    - generalize (reached ∅ (dispatched d events)). intros l.
      induction l as [|e l IH]; [reflexivity|]. cbn [fold_left].
      unfold saved at 2. now rewrite lookup_empty.
    - intros e. unfold breaks. now rewrite lookup_empty. }
  rewrite summarize_events_eq, P.
  case_bool_decide as M.
  { unfold dispatched. rewrite M. cbn. split; [reflexivity|]. split; [|eauto].
    intros (e & In & _). inversion In. }
  destruct (gather_batches backend 0 (batches (miss_positions d events 0)))
    as [[results|x] log] eqn:G.
  - assert (R : mm = master_map_of results).
    { unfold mm, merged_results. now rewrite G. }
    destruct (merge_reached (master_map_of results) ids (miss_positions d events 0)
                evs d (miss_positions_NoDup d events 0)) as (Dk & Rs & Oks).
    rewrite Disp, <- R in Dk, Rs, Oks. rewrite <- R.
    destruct (merge mm ids (miss_positions d events 0) evs d) as [r d'] eqn:Mg.
    cbn [fst snd] in *. split; [exact Dk|]. split; [exact Rs|].
    intros All _. now apply Oks.
  - assert (R : mm = ∅). { unfold mm, merged_results. now rewrite G. }
    destruct (Quiet R) as [Q NoBr]. cbn [fst snd]. rewrite Q.
    split; [reflexivity|]. split; [eauto|].
    intros _ [results Gr]. cbn [snd] in Gr. discriminate.
Qed.

(** C9, as amended. When the cache holds, under the content hash of one
    of the events, a non-empty value that is not a dict, the run raises in its
    first loop: no request is sent and nothing is written.  In every other
    case, however the run ends: the merge loop takes the dispatched events in
    turn and, for each, writes the value that the merged results hold under
    its id, under the hash recorded for that id, if and only if that value is
    a non-empty dict; an empty value gives the placeholders and no write; a
    non-empty value that is not a dict makes the loop raise at that event,
    with nothing written for it and for the events after it, and the entries
    written before it left in place.  So every entry is one from before the
    run or a non-empty dict of the results, never the placeholder values; an
    event that got the placeholders is still a miss afterwards, unless the
    hash recorded for another, enriched event is its content hash; and an
    enriched event whose id carries its own hash is a hit afterwards, when
    files can be written. *)
Theorem cache_writes_follow_results (backend : nat -> nat -> reply llm_response)
    (d : disk) (events : list (gmap string json)) :
  ((exists e, e ∈ events /\ stale d e = true) ->
   exists x, summarize_events backend d events = (Raise x, d, []))
  /\ ((forall e, e ∈ events -> stale d e = false) ->
     (summarize_events backend d events).1.2
     = fold_left (saved (merged_results backend d events) (hashes_by_id events ∅))
                 (reached (merged_results backend d events) (dispatched d events)) d
     /\ ((exists e, e ∈ dispatched d events
                    /\ breaks (merged_results backend d events) e = true) ->
         exists x, (summarize_events backend d events).1.1 = Raise x)
     /\ (forall e, e ∈ reached (merged_results backend d events) (dispatched d events) ->
           forall d0,
             (truthy (default JNull (merged_results backend d events !! event_id e)) = true ->
              exists kvs e2,
                merged_results backend d events !! event_id e = Some (JObj kvs)
                /\ kvs <> []
                /\ e2 ∈ events
                /\ event_id e2 = event_id e
                /\ hashes_by_id events ∅ !! event_id e = Some (get_event_hash e2)
                /\ saved (merged_results backend d events) (hashes_by_id events ∅) d0 e
                   = set_cached_summary d0 (get_event_hash e2) (JObj kvs))
             /\ (truthy (default JNull (merged_results backend d events !! event_id e)) = false ->
                 saved (merged_results backend d events) (hashes_by_id events ∅) d0 e = d0))
     /\ (forall h,
           get_cached_summary (summarize_events backend d events).1.2 h
           = get_cached_summary d h
           \/ exists e kvs,
                e ∈ reached (merged_results backend d events) (dispatched d events)
                /\ merged_results backend d events !! event_id e = Some (JObj kvs)
                /\ kvs <> []
                /\ hashes_by_id events ∅ !! event_id e = Some h
                /\ get_cached_summary (summarize_events backend d events).1.2 h = JObj kvs)
     /\ (forall e,
           e ∈ dispatched d events ->
           truthy (default JNull (merged_results backend d events !! event_id e)) = false ->
           (forall e2,
              e2 ∈ reached (merged_results backend d events) (dispatched d events) ->
              truthy (default JNull (merged_results backend d events !! event_id e2)) = true ->
              hashes_by_id events ∅ !! event_id e2 <> Some (get_event_hash e)) ->
           is_miss (summarize_events backend d events).1.2 e = true)
     /\ (forall e,
           e ∈ reached (merged_results backend d events) (dispatched d events) ->
           truthy (default JNull (merged_results backend d events !! event_id e)) = true ->
           hashes_by_id events ∅ !! event_id e = Some (get_event_hash e) ->
           (forall path, writable d path = true) ->
           is_miss (summarize_events backend d events).1.2 e = false)).
Proof.
  split.
  { intros Bad. destruct (partition_raises d events Bad 0 ∅) as [x P].
    exists x. now rewrite summarize_events_eq, P. }
  intros Wf. destruct (run_reached backend d events Wf) as (Dk & Rs & _).
  set (mm := merged_results backend d events) in *.
  set (ids := hashes_by_id events ∅) in *.
  set (got := reached mm (dispatched d events)) in *.
  assert (Dicts : forall e, e ∈ got ->
            truthy (default JNull (mm !! event_id e)) = true ->
            exists kvs, mm !! event_id e = Some (JObj kvs) /\ kvs <> []).
  { intros e In T. destruct (reached_sub _ _ _ In) as [_ B].
    destruct (breaks_spec mm e) as [_ NoBr].
    destruct (NoBr B T) as (kvs & A & Ne). exists kvs. split; [|exact Ne].
    destruct (mm !! event_id e) as [v|]; [|discriminate]. simpl in A. now subst. }
  split; [exact Dk|]. split; [exact Rs|]. split; [|split; [|split]].
  - intros e In d0. split.
    + intros T. destruct (Dicts e In T) as (kvs & A & Ne).
      destruct (reached_sub _ _ _ In) as [Disp _].
      apply dispatched_elem in Disp as (j & _ & Lj).
      destruct (hashes_recorded events ∅ e (list_elem_of_lookup_2 _ _ _ Lj))
        as (e2 & I2 & Id & Rec).
      fold ids in Rec. exists kvs, e2.
      split; [exact A|]. split; [exact Ne|]. split; [exact I2|].
      split; [exact Id|]. split; [exact Rec|].
      unfold saved. rewrite T, A. cbn [default]. unfold save_summary.
      now rewrite Rec, hash_is_truthy.
    + intros F. unfold saved. now rewrite F.
  - intros h. rewrite Dk.
    destruct (fold_saved_entry mm ids got h d) as [S | (e & Ie & T & I & G)];
      [now left|].
    right. destruct (Dicts e Ie T) as (kvs & A & Ne). exists e, kvs.
    rewrite A in G. repeat split; auto.
  - intros e Ie F Others. unfold is_miss. rewrite Dk.
    destruct (fold_saved_entry mm ids got (get_event_hash e) d)
      as [-> | (e2 & I2 & T2 & Id2 & _)].
    + apply (dispatched_is_miss d events e Ie).
    + exfalso. exact (Others e2 I2 T2 Id2).
  - intros e Ie T Own W. unfold is_miss. rewrite Dk.
    apply list_elem_of_split in Ie as (l1 & l2 & ->).
    rewrite fold_left_app. cbn [fold_left].
    rewrite (fold_saved_keeps mm ids l2); [reflexivity|].
    unfold saved at 1. rewrite T. unfold save_summary. rewrite Own, hash_is_truthy.
    rewrite summary_same; [exact T|]. rewrite fold_saved_writable. apply W.
Qed.

End Facts.
End WriteFacts.

(** * The further properties at work *)

Module MoreExamples.
Import Cleaner Scraper Enrich Main Shapes Outcomes Sample Scenes.
#[local] Existing Instance Sample.host.

(** X5, at work: the page of [evt-1] is fetched once; the second fetch
    finds the network down and still has the description. *)
Lemma fetched_description_is_reused_witness :
  truthy (get_cached_data blank "https://lu.ma/evt-1") = false
  /\ exists d',
       fetch_event_details (fun _ => Responds event_page) blank "https://lu.ma/evt-1"
       = (Ok (JStr "Talks on rollups"), d', [Request])
       /\ fetch_event_details (fun _ => Fails (TransportError "down")) d'
            "https://lu.ma/evt-1"
          = (Ok (JStr "Talks on rollups"), d', []).
Proof.
  assert (Miss : truthy (get_cached_data blank "https://lu.ma/evt-1") = false)
    by reflexivity.
  split; [exact Miss|].
  destruct (DetailMore.fetched_description_is_reused
              (fun _ => Responds event_page) (fun _ => Fails (TransportError "down"))
              blank "https://lu.ma/evt-1" Miss)
    as (v & d' & log & E & Shape).
  assert (Run : exists d1,
            fetch_event_details (fun _ => Responds event_page) blank
              "https://lu.ma/evt-1"
            = (Ok (JStr "Talks on rollups"), d1, [Request]))
    by (eexists; vm_compute; reflexivity).
  destruct Run as [d1 Run]. rewrite Run in E. injection E as <- <- <-.
  exists d1. split; [exact Run|].
  destruct Shape as [[N _] | (description & _ & _ & _ & _ & Again)]; [discriminate N|].
  apply Again. reflexivity.
Defined.

(** X9, at work: no detail page gave a description, and the record has
    the cleaned description of the listing, here the empty one. *)
Lemma descriptions_are_clean_witness :
  Forall (fun r => exists v, r !! "description" = Some v /\ clean_string v)
         (get_optimized_events "https://lu.ma/hk" "2025-03-01"
            (Responds calendar_page) calendar_answer (fun _ => Ok JNull)).
Proof.
  apply (RecordFacts.descriptions_are_clean "https://lu.ma/hk" "2025-03-01"
           (Responds calendar_page) calendar_answer (fun _ => Ok JNull)).
  intros i. left. reflexivity.
Defined.

(** X10, at work: of a string and an item of the platform, the item is the
    one candidate. *)
Lemma candidates_come_from_items_witness :
  prepare_all (Some "cal-abc123") "2025-03-01" "https://lu.ma/hk"
    [JStr "noise"; luma_item]
  = Ok [luma_candidate]
  /\ sublist (map item [luma_candidate]) [JStr "noise"; luma_item]
  /\ Forall (passes (Some "cal-abc123") "2025-03-01") [luma_candidate].
Proof.
  assert (P : prepare_all (Some "cal-abc123") "2025-03-01" "https://lu.ma/hk"
                [JStr "noise"; luma_item]
              = Ok [luma_candidate]) by (vm_compute; reflexivity).
  exact (conj P (RecordFacts.candidates_come_from_items _ _ _ _ _ P)).
Defined.

(** X12, at work: three 429s, then the answer that is read. *)
Lemma first_accepted_answer_is_read_witness :
  (process_batch_async limited_thrice).1 = read_reply good_answer
  /\ requests (process_batch_async limited_thrice).2 = 4%nat
  /\ length (sleeps (process_batch_async limited_thrice).2) = 3%nat.
Proof.
  apply (RetryMore.first_accepted_answer_is_read limited_thrice 3 good_answer).
  - lia.
  - intros i Hi. do 3 (destruct i as [|i]; [reflexivity|]). lia.
  - reflexivity.
Defined.

(** X13, at work: five 429s, and the body of the last one is parsed. *)
Lemma last_429_is_parsed_witness :
  (process_batch_async always_limited).1 = read_reply slow_down
  /\ requests (process_batch_async always_limited).2 = 5%nat
  /\ length (sleeps (process_batch_async always_limited).2) = 5%nat.
Proof.
  apply (RetryMore.last_429_is_parsed always_limited slow_down).
  - intros i _. reflexivity.
  - reflexivity.
Defined.

(** X17, at work: [evt-1] comes back with its three fields and its title. *)
Lemma enrichment_keeps_records_witness :
  summarize_events (fun _ => always_limited) warm [event1]
  = (Ok (from_cache warm [event1]), warm, [])
  /\ exists e', from_cache warm [event1] !! 0%nat = Some e'
                /\ e' !! "title" = event1 !! "title"
                /\ is_Some (e' !! "tags").
Proof.
  assert (Hits : Forall (is_cached warm) [event1]).
  { repeat constructor. exists fields. split; [discriminate | vm_compute; reflexivity]. }
  pose proof (SummaryFacts.all_hits_run (fun _ => always_limited) warm [event1] Hits)
    as Run.
  split; [exact Run|].
  destruct (RunFacts.enrichment_keeps_records _ _ _ _ _ _ Run) as [_ Pos].
  destruct (Pos 0%nat event1 eq_refl) as (e' & E' & Other & Has).
  exists e'. split; [exact E'|]. split.
  - apply Other. unfold summary_keys. rewrite !not_elem_of_cons.
    repeat split; try (intros Q; discriminate Q). apply not_elem_of_nil.
  - apply Has. unfold summary_keys. rewrite !elem_of_cons. tauto.
Defined.

(** X18, at work: [evt-1] is in the cache, and the run gives it the fields
    of its entry. *)
Lemma hits_are_served_from_cache_witness :
  is_miss warm event1 = false
  /\ summarize_events (fun _ => always_limited) warm [event1]
     = (Ok (from_cache warm [event1]), warm, [])
  /\ from_cache warm [event1] !! 0%nat
     = Some (with_summary event1 (cached_fields warm event1)).
Proof.
  assert (Hit : is_miss warm event1 = false) by (vm_compute; reflexivity).
  assert (Hits : Forall (is_cached warm) [event1]).
  { repeat constructor. exists fields. split; [discriminate | vm_compute; reflexivity]. }
  pose proof (SummaryFacts.all_hits_run (fun _ => always_limited) warm [event1] Hits)
    as Run.
  split; [exact Hit|]. split; [exact Run|].
  exact (RunFacts.hits_are_served_from_cache _ _ _ _ _ _ 0%nat event1 Run eq_refl Hit).
Defined.

(** X20, at work: the backend is down, the run raises, the cache is as it
    was. *)
Lemma failing_batch_fails_the_run_witness :
  exists e' log, summarize_events down blank [event1] = (Raise e', blank, log).
Proof.
  apply (RunFacts.failing_batch_fails_the_run down blank [event1] 0
           (TransportError "connection refused")).
  - vm_compute. lia.
  - reflexivity.
Defined.

(** X21, at work: a reply that talks around its object. *)
Lemma extract_json_drops_the_prose_witness :
  extract_json ("Here it is: " +:+ "{" +:+ quoted "evt-1" +:+ ": {}" +:+ "}"
                +:+ " Hope this helps.")
  = "{" +:+ quoted "evt-1" +:+ ": {}" +:+ "}".
Proof.
  apply (ExtractFacts.extract_json_drops_the_prose
           "Here it is: " (quoted "evt-1" +:+ ": {}") " Hope this helps.");
    reflexivity.
Defined.

(** X22, at work: the usual fenced reply, tag and line breaks included. *)
Lemma extract_json_takes_the_fenced_block_witness :
  extract_json ("Sure. " +:+ fence +:+ opt true "json"
                +:+ opt true (String newline "")
                +:+ "{" +:+ quoted "evt-1" +:+ ": {}" +:+ "}"
                +:+ opt true (String newline "") +:+ fence +:+ " Done.")
  = "{" +:+ quoted "evt-1" +:+ ": {}" +:+ "}".
Proof.
  apply (ExtractFacts.extract_json_takes_the_fenced_block
           "Sure. " (quoted "evt-1" +:+ ": {}") " Done." true true true);
    reflexivity.
Defined.

(** X24, at work: the output directory cannot be written, and the answer
    is a 500 that names the raw file. *)
Lemma server_errors_have_two_causes_witness :
  handle_scrape "https://lu.ma/hk" "2025-03-01" (Responds calendar_page)
    calendar_answer (fun _ => Ok JNull) down read_only
  = (ServerError (CannotOpen "outputs/raw_2025-03-01.json"), [])
  /\ ((exists kind, kind ∈ ["raw"; "cleaned"; "final"]
                    /\ CannotOpen "outputs/raw_2025-03-01.json"
                       = CannotOpen (output_path kind (strip "2025-03-01")))
      \/ (exists e,
            CannotOpen "outputs/raw_2025-03-01.json" = Python e
            /\ (summarize_events down read_only
                  (get_optimized_events (strip "https://lu.ma/hk") (strip "2025-03-01")
                     (Responds calendar_page) calendar_answer (fun _ => Ok JNull))).1.1
               = Raise e)).
Proof.
  assert (Run : handle_scrape "https://lu.ma/hk" "2025-03-01" (Responds calendar_page)
                  calendar_answer (fun _ => Ok JNull) down read_only
                = (ServerError (CannotOpen "outputs/raw_2025-03-01.json"), []))
    by (vm_compute; reflexivity).
  exact (conj Run (MainFacts.server_errors_have_two_causes _ _ _ _ _ _ _ _ _ Run)).
Defined.

(** X25, at work: one record is scraped, enriched after one request, and
    answered with its eleven fields. *)
Lemma success_carries_enriched_records_witness :
  exists data log,
    handle_scrape " https://lu.ma/hk " "2025-03-01" (Responds calendar_page)
      calendar_answer (fun _ => Ok JNull) (fun _ _ => answer 200 full_reply_text) blank
    = (Success data, log)
    /\ length data = 1%nat
    /\ (requests log <= 5)%nat.
Proof.
  assert (Run : exists data log,
            handle_scrape " https://lu.ma/hk " "2025-03-01" (Responds calendar_page)
              calendar_answer (fun _ => Ok JNull)
              (fun _ _ => answer 200 full_reply_text) blank
            = (Success data, log))
    by (do 2 eexists; vm_compute; reflexivity).
  destruct Run as (data & log & Run). exists data, log. split; [exact Run|].
  destruct (MainFacts.success_carries_enriched_records _ _ _ _ _ _ _ _ _ Run)
    as (_ & L & _ & B).
  assert (One : length (get_optimized_events (strip " https://lu.ma/hk ")
                          (strip "2025-03-01") (Responds calendar_page)
                          calendar_answer (fun _ => Ok JNull)) = 1%nat)
    by (vm_compute; reflexivity).
  rewrite One in L, B. split; [exact L | exact B].
Defined.

End MoreExamples.

(** * The amended claims at work *)

Module Scenarios.
Import Cleaner Scraper Enrich Traces Serial Sample Scenes Calendar.
#[local] Existing Instance Sample.host.

(** C3, at work: two candidates, their two ids in order, and no id twice. *)
Lemma record_ids_follow_candidates_witness :
  landing_status calendar_page = 200
  /\ candidates "https://lu.ma/hk" "2025-03-01" calendar_page two_items
     = Ok [luma_candidate; luma_candidate2]
  /\ record_ids (get_optimized_events "https://lu.ma/hk" "2025-03-01"
                   (Responds calendar_page) two_items (fun _ => Ok JNull))
     = [JStr "evt-1"; JStr "evt-2"]
  /\ NoDup (record_ids (get_optimized_events "https://lu.ma/hk" "2025-03-01"
                          (Responds calendar_page) two_items (fun _ => Ok JNull))).
Proof.
  assert (St : landing_status calendar_page = 200) by reflexivity.
  assert (C : candidates "https://lu.ma/hk" "2025-03-01" calendar_page two_items
              = Ok [luma_candidate; luma_candidate2]) by (vm_compute; reflexivity).
  assert (All : forall i c, [luma_candidate; luma_candidate2] !! i = Some c ->
                            exists r, fetch_with_results (Ok JNull) c = Ok r).
  { assert (B1 : match fetch_with_results (Ok JNull) luma_candidate with
                   | Ok _ => true | Raise _ => false end = true)
      by (vm_compute; reflexivity).
    assert (B2 : match fetch_with_results (Ok JNull) luma_candidate2 with
                   | Ok _ => true | Raise _ => false end = true)
      by (vm_compute; reflexivity).
    intros [|[|i]] c L; try discriminate L; injection L as <-.
    - destruct (fetch_with_results (Ok JNull) luma_candidate); [eauto | discriminate B1].
    - destruct (fetch_with_results (Ok JNull) luma_candidate2); [eauto | discriminate B2]. }
  destruct (proj1 (proj1 (IdFacts.record_ids_follow_candidates
                            "https://lu.ma/hk" "2025-03-01" calendar_page two_items
                            (fun _ => Ok JNull))
                     [luma_candidate; luma_candidate2] St C) All)
    as (_ & Ids & ND).
  split; [exact St|]. split; [exact C|]. split; [exact Ids|].
  apply ND. vm_compute.
  apply NoDup_cons. split; [|apply NoDup_singleton].
  intros In. apply elem_of_cons in In as [Q|In]; [discriminate Q | inversion In].
Defined.



(** C9, at work: an event that the cache does not know is a miss before
    the run that enriches it, and is served from the cache after it. *)
Lemma cache_writes_follow_results_witness :
  (forall e, e ∈ [event1] -> stale blank e = false)
  /\ is_miss blank event1 = true
  /\ is_miss (summarize_events (fun _ => limited_thrice) blank [event1]).1.2 event1
     = false.
Proof.
  assert (Wf : forall e, e ∈ [event1] -> stale blank e = false).
  { intros e In. apply list_elem_of_singleton in In as ->. reflexivity. }
  assert (M : is_miss blank event1 = true) by reflexivity.
  assert (B : breaks (merged_results (fun _ => limited_thrice) blank [event1]) event1
              = false) by (vm_compute; reflexivity).
  assert (Got : reached (merged_results (fun _ => limited_thrice) blank [event1])
                        (dispatched blank [event1]) = [event1]).
  { unfold dispatched. cbn [miss_positions]. rewrite M.
    change (omap (fun i => [event1] !! i) [0%nat]) with [event1].
    cbn [reached]. now rewrite B. }
  destruct (proj2 (WriteFacts.cache_writes_follow_results (fun _ => limited_thrice)
                     blank [event1]) Wf) as (_ & _ & _ & _ & _ & Hit).
  split; [exact Wf|]. split; [exact M|].
  apply Hit; [| vm_compute; reflexivity | vm_compute; reflexivity | reflexivity].
  rewrite Got. apply list_elem_of_singleton. reflexivity.
Defined.

End Scenarios.
